(** * Room / session / clock engine of the game server

    A shallow embedding of [server/src/GameServer/ServerRoom.ts]: the base
    class [ServerRoom] and its chess specialisation [ChessServerRoom].

    The JavaScript object is modelled by the record [Room]; methods are
    computations in a state-and-exception monad [M] over that record, so that
    an exception thrown half-way leaves the mutations made so far in place.
    What leaves the room (socket emissions, listener registrations, signals
    of the room's own event emitter, database rows) is appended to the
    [trace] field. *)

From stdpp Require Import base option list gmap strings sorting numbers.

(** ** Data model

    [DataModel.ts] is not among the sources; the enumerations and records
    below have exactly the members that [ServerRoom.ts] reads or writes. *)

Inductive Color := White | Black.
Inductive GameStatus := NotStarted | InProgress | Finished.
Inductive GameResolution :=
  Checkmate | Stalemate | Draw | GiveUp | OutOfTime | PlayerQuit.

#[global] Instance Color_eq_dec : EqDecision Color.
Proof. solve_decision. Defined.
#[global] Instance GameStatus_eq_dec : EqDecision GameStatus.
Proof. solve_decision. Defined.
#[global] Instance GameResolution_eq_dec : EqDecision GameResolution.
Proof. solve_decision. Defined.

(** User identifiers are database keys: natural numbers.  Durations and
    instants are integers (milliseconds unless said otherwise); an optional
    number that is absent, or the NaN that arithmetic on an absent number
    gives, is [None]. *)
Record User := { uid : N; displayName : string }.

Record MemberState :=
  { connected : bool; isPlayer : bool; color : option Color }.

Record Member := { user : User; state : MemberState }.

Record GameRules :=
  { timer : bool;
    initialTime : option Z;
    timerIncrement : option Z;
    hostPreferredColor : option Color }.

Record TimerState :=
  { whiteTimeLeft : option Z; blackTimeLeft : option Z }.

(** The fields of [GameState] that the room stores ([_gameState]). *)
Record GameStateCore :=
  { status : GameStatus;
    resolution : option GameResolution;
    winnerID : option N }.

(** What [gameState()] hands out. *)
Record GameState :=
  { gs_status : GameStatus;
    gs_resolution : option GameResolution;
    gs_winnerID : option N;
    gs_turn : Color;
    gs_pgn : string;
    gs_timer : option TimerState }.

(** What [dto()] hands out.  [createdTimestamp] is the creation instant; the
    source converts it to seconds, the model keeps the instant itself. *)
Record RoomDto :=
  { dto_id : string;
    dto_members : list Member;
    dto_hostID : N;
    dto_createdTimestamp : Z;
    dto_gameRules : GameRules;
    dto_gameState : GameState }.

(** The row handed to [PlayedGame.create]. *)
Record PlayedGameRow :=
  { pg_id : string;
    pg_timerEnabled : bool;
    pg_timerInit : Z;
    pg_timerIncrement : Z;
    pg_pgn : string;
    pg_resolution : option GameResolution;
    pg_winner : option Color;
    pg_whitePlayerID : option N;
    pg_blackPlayerID : option N }.

(** Process configuration ([config.get]). *)
Record Config :=
  { cfg_inactivityTimeout : Z;
    cfg_disconnectTimeout : Z;
    cfg_fakeRoomCreate : bool;
    cfg_fakeRoomId : string }.

Definition InactivityTimeout (cfg : Config) : Z := cfg_inactivityTimeout cfg * 1000.
Definition DisconnectTimeout (cfg : Config) : Z := cfg_disconnectTimeout cfg * 1000.

Inductive Error :=
| AlreadyConnectedError (msg : string)
| IllegalMoveError (msg : string)
| PlainError (msg : string)
| TypeError
| InvalidMoveError.

(** How a method ends: it returns, or it throws. *)
Inductive Outcome (A : Type) := Ok (a : A) | Throw (e : Error).
Arguments Ok {A} a.
Arguments Throw {A} e.

(** A connection handle of the transport layer. *)
Definition Socket := N.

(** ** PausableTimer *)

(** The closure a timer was built around. *)
Inductive TimerCallback :=
| CbInactivity
| CbDisconnect (userID : N)
| CbClock (side : Color).

Record PausableTimer :=
  { timeLeft : option Z; isGoing : bool; callback : TimerCallback }.

(** Modelled from the spec: [PausableTimer.ts] is not among the sources.
    A timer is built around a callback with an optional remaining time and
    is not running. *)
Definition PausableTimer_new (cb : TimerCallback) (duration : option Z) : PausableTimer :=
  {| timeLeft := duration; isGoing := false; callback := cb |}.

(** Modelled from the spec: [start(duration?)] begins or resumes the
    countdown; a given duration re-initialises the remaining time; on a
    running timer it does nothing. *)
Definition PausableTimer_start (duration : option Z) (t : PausableTimer) : PausableTimer :=
  if isGoing t then t
  else {| timeLeft := match duration with Some d => Some d | None => timeLeft t end;
          isGoing := true;
          callback := callback t |}.

(** Modelled from the spec: [stop()] cancels the countdown; the callback
    will not fire. *)
Definition PausableTimer_stop (t : PausableTimer) : PausableTimer :=
  {| timeLeft := timeLeft t; isGoing := false; callback := callback t |}.

(** Modelled from the spec: [pause()] freezes the remaining time; harmless
    on a timer that is not running. *)
Definition PausableTimer_pause (t : PausableTimer) : PausableTimer :=
  {| timeLeft := timeLeft t; isGoing := false; callback := callback t |}.

(** Modelled from the spec: [addTime(delta)] adjusts the remaining time,
    running or not. *)
Definition PausableTimer_addTime (delta : option Z) (t : PausableTimer) : PausableTimer :=
  {| timeLeft := match timeLeft t, delta with
                 | Some l, Some d => Some (l + d)%Z
                 | _, _ => None
                 end;
     isGoing := isGoing t;
     callback := callback t |}.

(** Modelled from the spec: the passing of [d] milliseconds, seen by one
    timer.  Only a running timer loses time, and never below zero. *)
Definition PausableTimer_elapse (d : Z) (t : PausableTimer) : PausableTimer :=
  if isGoing t
  then {| timeLeft := (λ l, Z.max 0 (l - d)) <$> timeLeft t;
          isGoing := true;
          callback := callback t |}
  else t.

(** Modelled from the spec: a timer whose time ran out is inert until it is
    started again. *)
Definition PausableTimer_expire (t : PausableTimer) : PausableTimer :=
  {| timeLeft := Some 0%Z; isGoing := false; callback := callback t |}.

(** ** The rules oracle ([chess.js]) *)

Class RulesOracle :=
  { Chess : Type;
    Move : Type;
    Chess_new : Chess;
    Chess_turn : Chess → Color;
    (** [move] throws on a move that is not legal: [None]. *)
    Chess_move : Chess → Move → option Chess;
    Chess_isCheckmate : Chess → bool;
    Chess_isStalemate : Chess → bool;
    Chess_isDraw : Chess → bool;
    Chess_pgn : Chess → string }.

(** A scripted oracle for running concrete games: a move says what it leads
    to, the side to move alternates, and the history is the list of moves
    made. *)
Inductive ScriptedMove := Quiet | Mating | Stalemating | Drawing | Illegal.

Record ScriptedPosition :=
  { sp_turn : Color; sp_last : option ScriptedMove; sp_count : nat }.

Definition ScriptedPosition_move (p : ScriptedPosition) (mv : ScriptedMove)
  : option ScriptedPosition :=
  match mv with
  | Illegal => None
  | _ => Some {| sp_turn := match sp_turn p with White => Black | Black => White end;
                 sp_last := Some mv;
                 sp_count := S (sp_count p) |}
  end.

Definition ScriptedOracle : RulesOracle :=
  {| Chess := ScriptedPosition;
     Move := ScriptedMove;
     Chess_new := {| sp_turn := White; sp_last := None; sp_count := 0 |};
     Chess_turn := sp_turn;
     Chess_move := ScriptedPosition_move;
     Chess_isCheckmate := λ p, match sp_last p with Some Mating => true | _ => false end;
     Chess_isStalemate := λ p, match sp_last p with Some Stalemating => true | _ => false end;
     Chess_isDraw := λ p, match sp_last p with Some Drawing => true | _ => false end;
     Chess_pgn := λ p, String.concat " " (replicate (sp_count p) "m") |}.

(** ** Sessions *)

Record MemberSession :=
  { member : Member;
    socket : option Socket;
    joined : Z;
    disconnectTimer : option PausableTimer }.

Definition MemberState_connect (b : bool) (st : MemberState) : MemberState :=
  {| connected := b; isPlayer := isPlayer st; color := color st |}.

Definition MemberState_promote (c : Color) (st : MemberState) : MemberState :=
  {| connected := connected st; isPlayer := true; color := Some c |}.

Definition with_state (f : MemberState → MemberState) (s : MemberSession) : MemberSession :=
  {| member := {| user := user (member s); state := f (state (member s)) |};
     socket := socket s;
     joined := joined s;
     disconnectTimer := disconnectTimer s |}.

Definition with_socket (so : option Socket) (s : MemberSession) : MemberSession :=
  {| member := member s; socket := so; joined := joined s;
     disconnectTimer := disconnectTimer s |}.

Definition with_disconnectTimer (t : option PausableTimer) (s : MemberSession) : MemberSession :=
  {| member := member s; socket := socket s; joined := joined s;
     disconnectTimer := t |}.

(** [session.disconnectTimer?.stop()] *)
Definition stop_disconnectTimer (s : MemberSession) : MemberSession :=
  with_disconnectTimer (PausableTimer_stop <$> disconnectTimer s) s.

(** [Object.values] / [Object.entries] of an object whose keys are
    identifiers: ascending key order. *)
Definition key_le {V : Type} (a b : N * V) : Prop := (a.1 ≤ b.1)%N.

#[global] Instance key_le_dec {V : Type} (a b : N * V) : Decision (key_le a b).
Proof. unfold key_le. apply _. Defined.

Definition Object_entries {V : Type} (m : gmap N V) : list (N * V) :=
  merge_sort key_le (map_to_list m).

(** [Array.prototype.sort(cmp)]: stable; [a] stays before [b] unless
    [cmp a b] is positive. *)
Fixpoint Array_sort_insert {A : Type} (cmp : A → A → Z) (x : A) (l : list A) : list A :=
  match l with
  | [] => [x]
  | y :: l' => if (cmp x y <=? 0)%Z then x :: y :: l'
               else y :: Array_sort_insert cmp x l'
  end.

Definition Array_sort {A : Type} (cmp : A → A → Z) (l : list A) : list A :=
  foldr (Array_sort_insert cmp) [] l.

(** The comparator [(a, b) => key(b) - key(a)], and the order it sorts
    into: larger keys first. *)
Definition descending_cmp {A : Type} (key : A → Z) : A → A → Z :=
  λ a b, (key b - key a)%Z.

Definition descending {A : Type} (key : A → Z) : relation A :=
  λ a b, (key b ≤ key a)%Z.

Section Engine.

Context {O : RulesOracle}.
Variable cfg : Config.

(** ** What leaves the room *)

Inductive Listener :=
| OnDisconnect (userID : N)
| OnMakeMove (c : option Color)
| OnGiveUp (c : option Color).

Inductive RoomSignal := connectedUsersChange | gameStatusChange | destroy.

(** Server-to-client events.  [timer] is [None] both when the argument is
    left out and when [this.timer] is undefined. *)
Inductive ServerEvent :=
| EvInit (room : RoomDto) (userID : N)
| EvMemberUpdate (userID : N) (st : MemberState)
| EvMemberJoin (m : Member)
| EvMemberLeave (userID : N)
| EvGameStart
| EvMove (mv : Move) (t : option TimerState)
| EvGameEnd (res : option GameResolution) (winner : option N) (t : option TimerState).

Inductive Effect :=
| SocketEmit (to : Socket) (ev : ServerEvent)
| SocketOn (on : Socket) (l : Listener)
| Signal (sig : RoomSignal)
| DbCreate (row : PlayedGameRow)
| Unhandled (e : Error).

(** ** The room object

    The fields of [ServerRoom] and of [ChessServerRoom], and two fields for
    the world around it: the wall clock read by [DateTime.now()] and the
    trace of effects. *)
Record Room :=
  { roomId : string;
    hostID : N;
    createdDateTime : Z;
    gameRules : GameRules;
    isFake : bool;
    _gameState : GameStateCore;
    sessions : gmap N MemberSession;
    winnerId : option N;
    inactivityTimer : PausableTimer;
    chess : Chess;
    whitePlayerID : option N;
    blackPlayerID : option N;
    whiteTimer : option PausableTimer;
    blackTimer : option PausableTimer;
    wallClock : Z;
    trace : list Effect }.

Definition set_gameState (f : GameStateCore → GameStateCore) (r : Room) : Room :=
  {| roomId := roomId r; hostID := hostID r; createdDateTime := createdDateTime r;
     gameRules := gameRules r; isFake := isFake r;
     _gameState := f (_gameState r);
     sessions := sessions r; winnerId := winnerId r;
     inactivityTimer := inactivityTimer r; chess := chess r;
     whitePlayerID := whitePlayerID r; blackPlayerID := blackPlayerID r;
     whiteTimer := whiteTimer r; blackTimer := blackTimer r;
     wallClock := wallClock r; trace := trace r |}.

Definition set_sessions (f : gmap N MemberSession → gmap N MemberSession) (r : Room) : Room :=
  {| roomId := roomId r; hostID := hostID r; createdDateTime := createdDateTime r;
     gameRules := gameRules r; isFake := isFake r;
     _gameState := _gameState r;
     sessions := f (sessions r); winnerId := winnerId r;
     inactivityTimer := inactivityTimer r; chess := chess r;
     whitePlayerID := whitePlayerID r; blackPlayerID := blackPlayerID r;
     whiteTimer := whiteTimer r; blackTimer := blackTimer r;
     wallClock := wallClock r; trace := trace r |}.

Definition set_winnerId (w : option N) (r : Room) : Room :=
  {| roomId := roomId r; hostID := hostID r; createdDateTime := createdDateTime r;
     gameRules := gameRules r; isFake := isFake r;
     _gameState := _gameState r;
     sessions := sessions r; winnerId := w;
     inactivityTimer := inactivityTimer r; chess := chess r;
     whitePlayerID := whitePlayerID r; blackPlayerID := blackPlayerID r;
     whiteTimer := whiteTimer r; blackTimer := blackTimer r;
     wallClock := wallClock r; trace := trace r |}.

Definition set_inactivityTimer (f : PausableTimer → PausableTimer) (r : Room) : Room :=
  {| roomId := roomId r; hostID := hostID r; createdDateTime := createdDateTime r;
     gameRules := gameRules r; isFake := isFake r;
     _gameState := _gameState r;
     sessions := sessions r; winnerId := winnerId r;
     inactivityTimer := f (inactivityTimer r); chess := chess r;
     whitePlayerID := whitePlayerID r; blackPlayerID := blackPlayerID r;
     whiteTimer := whiteTimer r; blackTimer := blackTimer r;
     wallClock := wallClock r; trace := trace r |}.

Definition set_chess (c : Chess) (r : Room) : Room :=
  {| roomId := roomId r; hostID := hostID r; createdDateTime := createdDateTime r;
     gameRules := gameRules r; isFake := isFake r;
     _gameState := _gameState r;
     sessions := sessions r; winnerId := winnerId r;
     inactivityTimer := inactivityTimer r; chess := c;
     whitePlayerID := whitePlayerID r; blackPlayerID := blackPlayerID r;
     whiteTimer := whiteTimer r; blackTimer := blackTimer r;
     wallClock := wallClock r; trace := trace r |}.

Definition set_whitePlayerID (p : option N) (r : Room) : Room :=
  {| roomId := roomId r; hostID := hostID r; createdDateTime := createdDateTime r;
     gameRules := gameRules r; isFake := isFake r;
     _gameState := _gameState r;
     sessions := sessions r; winnerId := winnerId r;
     inactivityTimer := inactivityTimer r; chess := chess r;
     whitePlayerID := p; blackPlayerID := blackPlayerID r;
     whiteTimer := whiteTimer r; blackTimer := blackTimer r;
     wallClock := wallClock r; trace := trace r |}.

Definition set_blackPlayerID (p : option N) (r : Room) : Room :=
  {| roomId := roomId r; hostID := hostID r; createdDateTime := createdDateTime r;
     gameRules := gameRules r; isFake := isFake r;
     _gameState := _gameState r;
     sessions := sessions r; winnerId := winnerId r;
     inactivityTimer := inactivityTimer r; chess := chess r;
     whitePlayerID := whitePlayerID r; blackPlayerID := p;
     whiteTimer := whiteTimer r; blackTimer := blackTimer r;
     wallClock := wallClock r; trace := trace r |}.

Definition set_whiteTimer (f : option PausableTimer → option PausableTimer) (r : Room) : Room :=
  {| roomId := roomId r; hostID := hostID r; createdDateTime := createdDateTime r;
     gameRules := gameRules r; isFake := isFake r;
     _gameState := _gameState r;
     sessions := sessions r; winnerId := winnerId r;
     inactivityTimer := inactivityTimer r; chess := chess r;
     whitePlayerID := whitePlayerID r; blackPlayerID := blackPlayerID r;
     whiteTimer := f (whiteTimer r); blackTimer := blackTimer r;
     wallClock := wallClock r; trace := trace r |}.

Definition set_blackTimer (f : option PausableTimer → option PausableTimer) (r : Room) : Room :=
  {| roomId := roomId r; hostID := hostID r; createdDateTime := createdDateTime r;
     gameRules := gameRules r; isFake := isFake r;
     _gameState := _gameState r;
     sessions := sessions r; winnerId := winnerId r;
     inactivityTimer := inactivityTimer r; chess := chess r;
     whitePlayerID := whitePlayerID r; blackPlayerID := blackPlayerID r;
     whiteTimer := whiteTimer r; blackTimer := f (blackTimer r);
     wallClock := wallClock r; trace := trace r |}.

Definition set_wallClock (f : Z → Z) (r : Room) : Room :=
  {| roomId := roomId r; hostID := hostID r; createdDateTime := createdDateTime r;
     gameRules := gameRules r; isFake := isFake r;
     _gameState := _gameState r;
     sessions := sessions r; winnerId := winnerId r;
     inactivityTimer := inactivityTimer r; chess := chess r;
     whitePlayerID := whitePlayerID r; blackPlayerID := blackPlayerID r;
     whiteTimer := whiteTimer r; blackTimer := blackTimer r;
     wallClock := f (wallClock r); trace := trace r |}.

(** Appends effects to the trace. *)
Definition log (es : list Effect) (r : Room) : Room :=
  {| roomId := roomId r; hostID := hostID r; createdDateTime := createdDateTime r;
     gameRules := gameRules r; isFake := isFake r;
     _gameState := _gameState r;
     sessions := sessions r; winnerId := winnerId r;
     inactivityTimer := inactivityTimer r; chess := chess r;
     whitePlayerID := whitePlayerID r; blackPlayerID := blackPlayerID r;
     whiteTimer := whiteTimer r; blackTimer := blackTimer r;
     wallClock := wallClock r; trace := trace r ++ es |}.

Definition set_status (s : GameStatus) : GameStateCore → GameStateCore :=
  λ g, {| status := s; resolution := resolution g; winnerID := winnerID g |}.
Definition set_resolution (x : GameResolution) : GameStateCore → GameStateCore :=
  λ g, {| status := status g; resolution := Some x; winnerID := winnerID g |}.
Definition set_winnerID (w : option N) : GameStateCore → GameStateCore :=
  λ g, {| status := status g; resolution := resolution g; winnerID := w |}.

(** ** The monad of methods *)

Definition M (A : Type) : Type := Room → Outcome A * Room.

Definition ret {A : Type} (a : A) : M A := λ r, (Ok a, r).
Definition bind {A B : Type} (m : M A) (f : A → M B) : M B :=
  λ r, match m r with
       | (Ok a, r') => f a r'
       | (Throw e, r') => (Throw e, r')
       end.
Definition throw {A : Type} (e : Error) : M A := λ r, (Throw e, r).
Definition get : M Room := λ r, (Ok r, r).
Definition modify (f : Room → Room) : M unit := λ r, (Ok tt, f r).
#[global] Instance M_ret : MRet M := @ret.
#[global] Instance M_bind : MBind M := λ A B f m, bind m f.

Definition when (b : bool) (m : M unit) : M unit := if b then m else mret tt.

(** A call to an [async] method whose promise nobody awaits: the method
    runs, and an exception in it is a rejection that reaches no handler. *)
Definition detached (m : M unit) : M unit :=
  λ r, match m r with
       | (Ok _, r') => (Ok tt, r')
       | (Throw e, r') => (Ok tt, log [Unhandled e] r')
       end.

(** [this.sessions[k]], for an access that goes on to read a property of
    the session: a TypeError when there is none. *)
Definition session_at (k : option N) : M MemberSession :=
  r ← get;
  match k ≫= (λ i, sessions r !! i) with
  | Some s => mret s
  | None => throw TypeError
  end.

Definition update_session (k : N) (f : MemberSession → MemberSession) : M unit :=
  modify (set_sessions (alter f k)).

Definition emit (sig : RoomSignal) : M unit := modify (log [Signal sig]).
Definition socket_emit (so : Socket) (ev : ServerEvent) : M unit :=
  modify (log [SocketEmit so ev]).
Definition socket_on (so : Socket) (l : Listener) : M unit :=
  modify (log [SocketOn so l]).

(** ** class ServerRoom *)

Definition gameStatus (r : Room) : GameStatus := status (_gameState r).

Definition connectedSessions (r : Room) : list (N * MemberSession) :=
  filter (λ e, connected (state (member e.2))) (Object_entries (sessions r)).

Definition members (r : Room) : list Member :=
  (λ e, member e.2) <$> Object_entries (sessions r).

Definition numberOfConnectedMembers (r : Room) : nat :=
  length (connectedSessions r).

Definition isUserPresent (r : Room) (userID : N) : bool :=
  bool_decide (is_Some (sessions r !! userID)).

Definition isUserConnected (r : Room) (userID : N) : bool :=
  match sessions r !! userID with
  | Some s => connected (state (member s))
  | None => false
  end.

(** [get host()] *)
Definition host : M User :=
  r ← get;
  s ← session_at (Some (hostID r));
  mret (user (member s)).

(** [get connectedUsers()] *)
Definition connectedUsers (r : Room) : list User :=
  (λ e, user (member e.2)) <$> connectedSessions r.

Definition getWinnerId : M User :=
  r ← get;
  s ← session_at (winnerId r);
  mret (user (member s)).

Definition setWinnerId (id : option N) : M unit :=
  match id with
  | None => mret tt
  | Some _ => modify (set_winnerId id)
  end.

(** [if (winnerId)] on a number that may be undefined. *)
Definition truthy (id : option N) : bool :=
  match id with
  | Some n => negb (n =? 0)%N
  | None => false
  end.

Definition broadcast (ev : ServerEvent) : M unit :=
  r ← get;
  modify (log (omap (λ e, (λ so, SocketEmit so ev) <$> socket e.2)
                    (Object_entries (sessions r)))).

Definition broadcastExcept (userID : N) (ev : ServerEvent) : M unit :=
  r ← get;
  modify (log (omap (λ e, if bool_decide (uid (user (member e.2)) ≠ userID)
                          then (λ so, SocketEmit so ev) <$> socket e.2
                          else None)
                    (Object_entries (sessions r)))).

(** [for (const session of Object.values(this.sessions))
       session.disconnectTimer?.stop()] *)
Definition stopDisconnectTimers : M unit :=
  modify (set_sessions (fmap stop_disconnectTimer)).

Definition handleInactivityTimeout : M unit := emit destroy.

Definition checkInactivity : M unit :=
  r ← get;
  if bool_decide (numberOfConnectedMembers r = 0)
  then
    if bool_decide (gameStatus r = NotStarted)
    then modify (set_inactivityTimer (PausableTimer_start (Some (InactivityTimeout cfg))))
    else if bool_decide (gameStatus r = Finished)
         then emit destroy
         else mret tt
  else mret tt.

Definition ServerRoom_saveGame : M unit :=
  r ← get;
  if bool_decide (status (_gameState r) ≠ Finished)
  then throw (PlainError "Game is not finished yet")
  else if isFake r then mret tt
       else mret tt.

Definition ServerRoom_setUpGameBeforeStart : M unit := mret tt.

Definition ServerRoom_isFinishCond : M bool := mret false.

Definition ServerRoom_timer (r : Room) : option TimerState := None.

Definition ServerRoom_gameState (r : Room) : GameState :=
  {| gs_status := status (_gameState r);
     gs_resolution := resolution (_gameState r);
     gs_winnerID := winnerID (_gameState r);
     gs_turn := White;
     gs_pgn := "";
     gs_timer := ServerRoom_timer r |}.

(** The methods below reach overridable members through [this]; these are
    the members as the object at hand has them. *)
Section Virtual.

Variable this_timer : Room → option TimerState.
Variable this_gameState : Room → GameState.
Variable this_setUpGameBeforeStart : M unit.
Variable this_isFinishCond : M bool.
Variable this_saveGame : M unit.

Definition dto (r : Room) : RoomDto :=
  {| dto_id := roomId r;
     dto_members := members r;
     dto_hostID := hostID r;
     dto_createdTimestamp := createdDateTime r;
     dto_gameRules := gameRules r;
     dto_gameState := this_gameState r |}.

Definition ServerRoom_acceptConnection (so : Socket) (u : User) : M unit :=
  r ← get;
  if isUserConnected r (uid u)
  then throw (AlreadyConnectedError "You can not connect to the same room twice")
  else
    when (isGoing (inactivityTimer r))
         (modify (set_inactivityTimer PausableTimer_stop));;
    (if isUserPresent r (uid u)
     then
       update_session (uid u)
         (λ s, with_state (MemberState_connect true) (with_socket (Some so) s));;
       r ← get;
       socket_emit so (EvInit (dto r) (uid u));;
       s ← session_at (Some (uid u));
       broadcastExcept (uid u) (EvMemberUpdate (uid u) (state (member s)))
     else
       r ← get;
       modify (set_sessions
                 <[uid u := {| member := {| user := u;
                                            state := {| connected := true;
                                                        isPlayer := false;
                                                        color := None |} |};
                               socket := Some so;
                               joined := wallClock r;
                               disconnectTimer := None |}]>);;
       r ← get;
       socket_emit so (EvInit (dto r) (uid u));;
       s ← session_at (Some (uid u));
       broadcastExcept (uid u) (EvMemberJoin (member s)));;
    s ← session_at (Some (uid u));
    when (bool_decide (is_Some (disconnectTimer s)))
         (update_session (uid u) (with_disconnectTimer None));;
    socket_on so (OnDisconnect (uid u)).

Definition ServerRoom_handleDisconnectTimeout (userID : N) : M unit :=
  modify (set_gameState (set_status Finished));;
  stopDisconnectTimers;;
  emit gameStatusChange;;
  this_saveGame.

Definition handleDisconnect (userID : N) (reason : string) : M unit :=
  s ← session_at (Some userID);
  (if isPlayer (state (member s))
   then
     update_session userID
       (λ s, with_socket None (with_state (MemberState_connect false) s));;
     s ← session_at (Some userID);
     broadcast (EvMemberUpdate userID (state (member s)));;
     r ← get;
     when (bool_decide (gameStatus r = InProgress))
          (update_session userID
             (with_disconnectTimer
                (Some (PausableTimer_start (Some (DisconnectTimeout cfg))
                         (PausableTimer_new (CbDisconnect userID) None)))))
   else
     modify (set_sessions (delete userID));;
     broadcast (EvMemberLeave userID));;
  emit connectedUsersChange;;
  checkInactivity.

Definition ServerRoom_startGame : M unit :=
  this_setUpGameBeforeStart;;
  broadcast EvGameStart;;
  emit gameStatusChange.

Definition ServerRoom_checkGameEnd : M unit :=
  finished ← this_isFinishCond;
  if negb finished then mret tt
  else
    modify (set_gameState (set_status Finished));;
    r ← get;
    let winnerId := winnerID (_gameState r) in
    (if timer (gameRules r)
     then broadcast (EvGameEnd (resolution (_gameState r)) winnerId (this_timer r))
     else broadcast (EvGameEnd (resolution (_gameState r)) winnerId None));;
    stopDisconnectTimers;;
    when (truthy winnerId) (setWinnerId winnerId);;
    emit gameStatusChange;;
    checkInactivity;;
    this_saveGame.

End Virtual.

(** [new ServerRoom(host, gameRules, id)].  [rnd] is what [UID.rnd()]
    returns and [now] what [DateTime.now()] returns.  The members that only
    the subclass has are passed in. *)
Definition ServerRoom_new (host : User) (rules : GameRules) (id : option string)
    (rnd : string) (now : Z) (c : Chess) : Room :=
  let id' := match id with
             | Some s => if bool_decide (s = "") then rnd else s
             | None => rnd
             end in
  {| roomId := id';
     hostID := uid host;
     createdDateTime := now;
     gameRules := rules;
     isFake := if cfg_fakeRoomCreate cfg
               then bool_decide (id' = cfg_fakeRoomId cfg)
               else false;
     _gameState := {| status := NotStarted; resolution := None; winnerID := None |};
     sessions := {[ uid host :=
                      {| member := {| user := host;
                                      state := {| connected := false;
                                                  isPlayer := true;
                                                  color := None |} |};
                         socket := None;
                         joined := now;
                         disconnectTimer := None |} ]};
     winnerId := Some 0%N;
     inactivityTimer :=
       PausableTimer_start (Some (InactivityTimeout cfg))
                           (PausableTimer_new CbInactivity None);
     chess := c;
     whitePlayerID := None;
     blackPlayerID := None;
     whiteTimer := None;
     blackTimer := None;
     wallClock := now;
     trace := [] |}.

(** ** class ChessServerRoom extends ServerRoom *)

Definition swapColor (c : Color) : Color :=
  if bool_decide (c = White) then Black else White.

(** [this.whiteTimer!.f()]: a TypeError when the clock is undefined. *)
Definition whiteTimer_call (f : PausableTimer → PausableTimer) : M unit :=
  r ← get;
  match whiteTimer r with
  | Some t => modify (set_whiteTimer (λ _, Some (f t)))
  | None => throw TypeError
  end.

Definition blackTimer_call (f : PausableTimer → PausableTimer) : M unit :=
  r ← get;
  match blackTimer r with
  | Some t => modify (set_blackTimer (λ _, Some (f t)))
  | None => throw TypeError
  end.

(** [this.whiteTimer?.pause(); this.blackTimer?.pause()] *)
Definition pauseClocks : M unit :=
  modify (set_whiteTimer (fmap PausableTimer_pause));;
  modify (set_blackTimer (fmap PausableTimer_pause)).

Definition ChessServerRoom_timer (r : Room) : option TimerState :=
  match whiteTimer r, blackTimer r with
  | Some w, Some b => Some {| whiteTimeLeft := timeLeft w; blackTimeLeft := timeLeft b |}
  | _, _ => None
  end.

Definition ChessServerRoom_gameState (r : Room) : GameState :=
  {| gs_status := status (_gameState r);
     gs_resolution := resolution (_gameState r);
     gs_winnerID := winnerID (_gameState r);
     gs_turn := Chess_turn (chess r);
     gs_pgn := Chess_pgn (chess r);
     gs_timer := ChessServerRoom_timer r |}.

Definition ChessServerRoom_saveGame : M unit :=
  ServerRoom_saveGame;;
  r ← get;
  let gameState := ChessServerRoom_gameState r in
  let winner :=
    if bool_decide (gs_winnerID gameState = whitePlayerID r) then Some White
    else if bool_decide (gs_winnerID gameState = blackPlayerID r) then Some Black
         else None in
  modify (log [DbCreate
                 {| pg_id := roomId r;
                    pg_timerEnabled := timer (gameRules r);
                    pg_timerInit := default 0%Z (initialTime (gameRules r));
                    pg_timerIncrement := default 0%Z (timerIncrement (gameRules r));
                    pg_pgn := gs_pgn gameState;
                    pg_resolution := gs_resolution gameState;
                    pg_winner := winner;
                    pg_whitePlayerID := whitePlayerID r;
                    pg_blackPlayerID := blackPlayerID r |}]).

Definition ChessServerRoom_handleDisconnectTimeout (userID : N) : M unit :=
  modify (set_gameState (set_resolution PlayerQuit));;
  r ← get;
  modify (set_gameState
            (set_winnerID (if bool_decide (Some userID = whitePlayerID r)
                           then blackPlayerID r else whitePlayerID r)));;
  ServerRoom_handleDisconnectTimeout ChessServerRoom_saveGame userID;;
  pauseClocks.

Definition subscribeToEvents (session : MemberSession) : M unit :=
  let color := color (state (member session)) in
  match socket session with
  | None => throw TypeError
  | Some so =>
      socket_on so (OnMakeMove color);;
      socket_on so (OnGiveUp color)
  end.

(** The session that [selectOpponent] takes: the connected sessions that are
    not players, sorted by [b.joined - a.joined], and of these the last
    ([pop()]).  A session is referred to by its key in [sessions]. *)
Definition nonPlayerSessions (r : Room) : list (N * MemberSession) :=
  filter (λ e, negb (isPlayer (state (member e.2)))) (connectedSessions r).

Definition selectedSession (r : Room) : option (N * MemberSession) :=
  list.last (Array_sort (λ a b, joined b.2 - joined a.2)%Z (nonPlayerSessions r)).

(** [hostColor] is read with [!]: should it be undefined, [swapColor]
    compares it with White, finds it different and answers White. *)
Definition selectOpponent : M unit :=
  r ← get;
  host ← session_at (Some (hostID r));
  let hostColor := color (state (member host)) in
  match selectedSession r with
  | None => throw TypeError
  | Some (k, selected) =>
      let c := match hostColor with Some hc => swapColor hc | None => White end in
      update_session k (with_state (MemberState_promote c));;
      (if bool_decide (c = White)
       then modify (set_whitePlayerID (Some (uid (user (member selected)))))
       else modify (set_blackPlayerID (Some (uid (user (member selected))))));;
      broadcast (EvMemberUpdate (uid (user (member selected)))
                                (MemberState_promote c (state (member selected))))
  end.

Definition ms (seconds : option Z) : option Z := (λ s, s * 1000)%Z <$> seconds.

Definition ChessServerRoom_setUpGameBeforeStart : M unit :=
  selectOpponent;;
  r ← get;
  w ← session_at (whitePlayerID r);
  subscribeToEvents w;;
  b ← session_at (blackPlayerID r);
  subscribeToEvents b;;
  modify (set_gameState (set_status InProgress));;
  when (timer (gameRules r))
       (modify (set_whiteTimer
                  (λ _, Some (PausableTimer_new (CbClock White)
                                                (ms (initialTime (gameRules r))))));;
        modify (set_blackTimer
                  (λ _, Some (PausableTimer_new (CbClock Black)
                                                (ms (initialTime (gameRules r))))));;
        whiteTimer_call (PausableTimer_start None)).

Definition ChessServerRoom_startGame : M unit :=
  ServerRoom_startGame ChessServerRoom_setUpGameBeforeStart.

Definition ChessServerRoom_isFinishCond : M bool :=
  r ← get;
  if Chess_isCheckmate (chess r)
  then
    modify (set_gameState (set_resolution Checkmate));;
    modify (set_gameState
              (set_winnerID (if bool_decide (Chess_turn (chess r) = White)
                             then blackPlayerID r else whitePlayerID r)));;
    mret true
  else if Chess_isStalemate (chess r)
  then modify (set_gameState (set_resolution Stalemate));; mret true
  else if Chess_isDraw (chess r)
  then modify (set_gameState (set_resolution Draw));; mret true
  else mret false.

Definition ChessServerRoom_checkGameEnd : M unit :=
  pauseClocks;;
  detached (ServerRoom_checkGameEnd ChessServerRoom_timer
                                    ChessServerRoom_isFinishCond
                                    ChessServerRoom_saveGame).

Definition handleMove (move : Move) (color : Color) : M unit :=
  r ← get;
  if bool_decide (status (_gameState r) ≠ InProgress)
  then throw (IllegalMoveError "Game is not in progress")
  else if bool_decide (Chess_turn (chess r) ≠ color)
  then throw (IllegalMoveError "This was not your turn")
  else
    match Chess_move (chess r) move with
    | None => throw InvalidMoveError
    | Some c' =>
        modify (set_chess c');;
        (if timer (gameRules r)
         then
           (if bool_decide (Chess_turn c' = White)
            then
              whiteTimer_call (PausableTimer_start None);;
              blackTimer_call PausableTimer_pause;;
              blackTimer_call (PausableTimer_addTime (ms (timerIncrement (gameRules r))))
            else
              blackTimer_call (PausableTimer_start None);;
              whiteTimer_call PausableTimer_pause;;
              whiteTimer_call (PausableTimer_addTime (ms (timerIncrement (gameRules r)))));;
           r ← get;
           broadcast (EvMove move (ChessServerRoom_timer r))
         else broadcast (EvMove move None));;
        finished ← ChessServerRoom_isFinishCond;
        when finished (detached ChessServerRoom_checkGameEnd)
    end.

Definition handleGiveUp (color : Color) : M unit :=
  r ← get;
  if bool_decide (gameStatus r ≠ InProgress) then mret tt
  else
    modify (set_gameState (set_resolution GiveUp));;
    modify (set_gameState
              (set_winnerID (if bool_decide (color = White)
                             then blackPlayerID r else whitePlayerID r)));;
    modify (set_gameState (set_status Finished));;
    pauseClocks;;
    stopDisconnectTimers;;
    r ← get;
    (if timer (gameRules r)
     then broadcast (EvGameEnd (resolution (_gameState r)) (winnerID (_gameState r))
                               (ChessServerRoom_timer r))
     else broadcast (EvGameEnd (resolution (_gameState r)) (winnerID (_gameState r))
                               None));;
    emit gameStatusChange;;
    checkInactivity;;
    ChessServerRoom_saveGame.

Definition handleTimerOut (side : Color) : M unit :=
  whiteTimer_call PausableTimer_stop;;
  blackTimer_call PausableTimer_stop;;
  stopDisconnectTimers;;
  modify (set_gameState (set_resolution OutOfTime));;
  r ← get;
  modify (set_gameState
            (set_winnerID (if bool_decide (side = White)
                           then blackPlayerID r else whitePlayerID r)));;
  modify (set_gameState (set_status Finished));;
  r ← get;
  broadcast (EvGameEnd (resolution (_gameState r)) (winnerID (_gameState r))
                       (ChessServerRoom_timer r));;
  emit gameStatusChange;;
  checkInactivity;;
  ChessServerRoom_saveGame.

Definition ChessServerRoom_acceptConnection (so : Socket) (u : User) : M unit :=
  ServerRoom_acceptConnection ChessServerRoom_gameState so u;;
  r ← get;
  (if bool_decide (status (_gameState r) = NotStarted)
      && bool_decide (2 ≤ numberOfConnectedMembers r)
   then
     host ← session_at (Some (hostID r));
     if connected (state (member host))
     then ChessServerRoom_startGame
     else mret tt
   else if bool_decide (status (_gameState r) = InProgress)
   then
     when (bool_decide (Some (uid u) = whitePlayerID r)
           || bool_decide (Some (uid u) = blackPlayerID r))
          (s ← session_at (Some (uid u));
           subscribeToEvents s)
   else mret tt);;
  emit connectedUsersChange.

(** [new ChessServerRoom(host, gameRules, id)].  The base constructor runs
    first; [rnd1], [now1] are what it draws and reads, [rnd2], [now2] what
    the subclass constructor draws and reads, and [rc] is [randomColor()]. *)
Definition ChessServerRoom_new (host : User) (rules : GameRules) (id : option string)
    (rnd1 rnd2 : string) (now1 now2 : Z) (rc : Color) : Room :=
  let base := ServerRoom_new host rules id rnd1 now1 Chess_new in
  let hostColor := match hostPreferredColor rules with Some c => c | None => rc end in
  {| roomId := match id with
               | Some s => if bool_decide (s = "") then rnd2 else s
               | None => rnd2
               end;
     hostID := uid host;
     createdDateTime := now2;
     gameRules := rules;
     isFake := isFake base;
     _gameState := {| status := NotStarted; resolution := None; winnerID := None |};
     sessions := {[ uid host :=
                      {| member := {| user := host;
                                      state := {| connected := false;
                                                  isPlayer := true;
                                                  color := Some hostColor |} |};
                         socket := None;
                         joined := now2;
                         disconnectTimer := None |} ]};
     winnerId := winnerId base;
     inactivityTimer := inactivityTimer base;
     chess := Chess_new;
     whitePlayerID := if bool_decide (hostColor = White) then Some (uid host) else None;
     blackPlayerID := if bool_decide (hostColor = White) then None else Some (uid host);
     whiteTimer := None;
     blackTimer := None;
     wallClock := now2;
     trace := [] |}.

(** ** The room as a reactive system

    Whatever happens to a room is one of these: an event of the transport
    layer reaching one of the room's handlers, a timer running out, or time
    passing.  Handlers are wrapped in [catchErrors], so an exception ends
    the handler and the room lives on in the state the handler left.  A
    handler runs to its end before the next one starts; the database write
    that ends some of them is taken to be done by then. *)
Inductive Op :=
| Connect (so : Socket) (u : User)
| Disconnect (userID : N) (reason : string)
| MakeMove (move : Move) (color : Color)
| Resign (color : Color)
| InactivityExpired
| GraceExpired (userID : N)
| ClockExpired (side : Color)
| Elapse (d : N).

(** What a timer does when it runs out. *)
Definition run_callback (cb : TimerCallback) : M unit :=
  match cb with
  | CbInactivity => handleInactivityTimeout
  | CbDisconnect userID => detached (ChessServerRoom_handleDisconnectTimeout userID)
  | CbClock side => handleTimerOut side
  end.

Definition elapse (d : Z) (r : Room) : Room :=
  set_wallClock (λ t, t + d)%Z
    (set_inactivityTimer (PausableTimer_elapse d)
       (set_whiteTimer (fmap (PausableTimer_elapse d))
          (set_blackTimer (fmap (PausableTimer_elapse d))
             (set_sessions
                (fmap (λ s, with_disconnectTimer
                              (PausableTimer_elapse d <$> disconnectTimer s) s))
                r)))).

(** Only a running timer runs out. *)
Definition handle (op : Op) : M unit :=
  match op with
  | Connect so u => ChessServerRoom_acceptConnection so u
  | Disconnect userID reason => handleDisconnect userID reason
  | MakeMove move color => handleMove move color
  | Resign color => detached (handleGiveUp color)
  | InactivityExpired =>
      r ← get;
      when (isGoing (inactivityTimer r))
           (modify (set_inactivityTimer PausableTimer_expire);;
            run_callback (callback (inactivityTimer r)))
  | GraceExpired userID =>
      r ← get;
      match sessions r !! userID ≫= disconnectTimer with
      | Some t =>
          when (isGoing t)
               (update_session userID
                  (with_disconnectTimer (Some (PausableTimer_expire t)));;
                run_callback (callback t))
      | None => mret tt
      end
  | ClockExpired side =>
      r ← get;
      match (if bool_decide (side = White) then whiteTimer r else blackTimer r) with
      | Some t =>
          when (isGoing t)
               ((if bool_decide (side = White)
                 then modify (set_whiteTimer (fmap PausableTimer_expire))
                 else modify (set_blackTimer (fmap PausableTimer_expire)));;
                run_callback (callback t))
      | None => mret tt
      end
  | Elapse d => modify (elapse (Z.of_N d))
  end.

Definition step (r : Room) (op : Op) : Room := (handle op r).2.

Definition run (ops : list Op) (r : Room) : Room := foldl step r ops.

End Engine.

(** ** Reasoning about methods *)

Section Vocabulary.

Context {O : RulesOracle}.

(** Hoare triples with two postconditions: [Q] where the method returns,
    [E] where it throws. *)
Definition hoare {A : Type} (P : Room → Prop) (m : M A)
    (Q : A → Room → Prop) (E : Error → Room → Prop) : Prop :=
  ∀ r, P r → match m r with
             | (Ok a, r') => Q a r'
             | (Throw e, r') => E e r'
             end.

(** [I] holds after [m] whenever it held before, however [m] ends, and
    what [m] throws, if it throws, is in [X]. *)
Definition preserves {A : Type} (I : Room → Prop) (X : Error → Prop) (m : M A) : Prop :=
  hoare I m (λ _, I) (λ e r, X e ∧ I r).

Definition any_error : Error → Prop := λ _, True.
Definition only_TypeError : Error → Prop := λ e, e = TypeError.

(** The rooms that look like [s] through [view]. *)
Definition sees {V : Type} (view : Room → V) (s : Room) : Room → Prop :=
  λ r, view r = view s.

(** The order in which a game's status may change. *)
Definition status_rank (s : GameStatus) : nat :=
  match s with NotStarted => 0 | InProgress => 1 | Finished => 2 end.

Definition at_least (s : GameStatus) (r : Room) : Prop :=
  status_rank s ≤ status_rank (gameStatus r).

(** A clock that exists and is counting down. *)
Definition clock_going (t : option PausableTimer) : bool :=
  match t with Some t => isGoing t | None => false end.

Definition clocks_exclusive (r : Room) : Prop :=
  ¬ (clock_going (whiteTimer r) = true ∧ clock_going (blackTimer r) = true).

(** The rules do not change, and while a game with clocks is in progress
    both clocks exist. *)
Definition clocks_ready (g : GameRules) (r : Room) : Prop :=
  gameRules r = g
  ∧ (gameStatus r = InProgress → timer g = true →
     is_Some (whiteTimer r) ∧ is_Some (blackTimer r)).

(** What the bookkeeping of results looks at. *)
Definition result_view (r : Room) :=
  (_gameState r, winnerId r, chess r, whitePlayerID r, blackPlayerID r).

Definition clock_view (r : Room) := (whiteTimer r, blackTimer r).

(** The rooms whose game state and winner are those of [s]. *)
Definition same_result (s : Room) : Room → Prop :=
  λ r, _gameState r = _gameState s ∧ winnerId r = winnerId s.

(** Until a game is finished it has neither a resolution nor a winner, and a
    game that ended in a stalemate or a draw never gets one: [winnerID] of
    the game state stays undefined and the room's [winnerId] stays 0. *)
Definition drawn (x : option GameResolution) : Prop :=
  x = Some Stalemate ∨ x = Some Draw.

Definition no_winner (r : Room) : Prop :=
  winnerID (_gameState r) = None ∧ winnerId r = Some 0%N.

(** A game that has not ended: no resolution and no winner yet. *)
Definition undecided (r : Room) : Prop :=
  gameStatus r ≠ Finished ∧ resolution (_gameState r) = None ∧ no_winner r.

Definition winner_bookkeeping (r : Room) : Prop :=
  (gameStatus r ≠ Finished → resolution (_gameState r) = None ∧ no_winner r)
  ∧ (drawn (resolution (_gameState r)) → no_winner r).

(** The time left on a clock that exists and has a number on it. *)
Definition clock_time (t : option PausableTimer) : option Z := t ≫= timeLeft.

(** What the scenario of the specification says of White's first move: no
    increment on either clock yet. *)
Definition no_increment_yet (before after : Room) : Prop :=
  clock_time (whiteTimer after) = clock_time (whiteTimer before)
  ∧ clock_time (blackTimer after) = clock_time (blackTimer before).

(** And of Black's answer: White's clock gains the increment. *)
Definition white_gains (inc : Z) (before after : Room) : Prop :=
  clock_time (whiteTimer after)
  = (λ t, t + inc * 1000)%Z <$> clock_time (whiteTimer before).

(** What the specification says of the opponent: of the connected sessions
    that are not players, the one who joined last. *)
Definition joined_last (r : Room) (selected : MemberSession) : Prop :=
  ∀ k s, (k, s) ∈ nonPlayerSessions r → (joined s ≤ joined selected)%Z.

(** The rows that the room has handed to the database so far. *)
Definition Effect_row (e : Effect) : option PlayedGameRow :=
  match e with DbCreate row => Some row | _ => None end.

Definition db_rows (r : Room) : list PlayedGameRow := omap Effect_row (trace r).

(** The rejections of promises that nobody awaited and nobody handled. *)
Definition Effect_error (e : Effect) : option Error :=
  match e with Unhandled x => Some x | _ => None end.

Definition unhandled (r : Room) : list Error := omap Effect_error (trace r).

(** What a room says: an event sent to a socket, a listener put on a
    socket, a signal to the game server. *)
Definition message (e : Effect) : Prop :=
  match e with
  | SocketEmit _ _ | SocketOn _ _ | Signal _ => True
  | DbCreate _ | Unhandled _ => False
  end.

(** No timer of the game is counting down: neither clock, and no session's
    disconnect timer. *)
Definition timers_quiet (r : Room) : Prop :=
  clock_going (whiteTimer r) = false
  ∧ clock_going (blackTimer r) = false
  ∧ (∀ k s t, sessions r !! k = Some s → disconnectTimer s = Some t →
              isGoing t = false).


(** The room of a game that has just been ended with the given result: the
    status is Finished, the clocks and the disconnect timers are halted. *)
Definition ended (res : GameResolution) (w : option N) (r : Room) : Room :=
  set_sessions (fmap stop_disconnectTimer)
    (set_blackTimer (fmap PausableTimer_pause)
       (set_whiteTimer (fmap PausableTimer_pause)
          (set_gameState
             (λ _, {| status := Finished; resolution := Some res; winnerID := w |})
             r))).

(** The player of the other colour. *)
Definition opponent_of (c : Color) (r : Room) : option N :=
  match c with White => blackPlayerID r | Black => whitePlayerID r end.

(** The player identifier that the room holds for a colour. *)
Definition player_of (c : Color) (r : Room) : option N :=
  match c with White => whitePlayerID r | Black => blackPlayerID r end.

(** The clock of a colour. *)
Definition player_clock (c : Color) (r : Room) : option PausableTimer :=
  match c with White => whiteTimer r | Black => blackTimer r end.

(** The colour that a session plays, if it is a player's. *)
Definition seat (s : MemberSession) : option Color :=
  if isPlayer (state (member s)) then color (state (member s)) else None.

(** What is never assigned after construction. *)
Definition fixed_view (r : Room) :=
  (roomId r, hostID r, createdDateTime r, gameRules r, isFake r).

(** A session is filed under the id of its user; it is marked connected
    exactly when it has a socket; it has a colour exactly when it is a
    player's; and a disconnect timer is bound to the session's user and
    sits on the session of a player who is not connected. *)
Definition session_ok (k : N) (s : MemberSession) : Prop :=
  uid (user (member s)) = k
  ∧ (connected (state (member s)) = true ↔ is_Some (socket s))
  ∧ (isPlayer (state (member s)) = true ↔ is_Some (color (state (member s))))
  ∧ (∀ t, disconnectTimer s = Some t →
          callback t = CbDisconnect k
          ∧ connected (state (member s)) = false
          ∧ isPlayer (state (member s)) = true).

Definition sessions_ok (r : Room) : Prop :=
  ∀ k s, sessions r !! k = Some s → session_ok k s.

(** The host has a seat; the sessions of players and the two player
    identifiers name each other, colour by colour; and both identifiers are
    set exactly when the game has been started. *)
Definition seat_at (r : Room) (k : N) : option Color := sessions r !! k ≫= seat.

Definition players_ok (r : Room) : Prop :=
  is_Some (seat_at r (hostID r))
  ∧ (∀ k c, seat_at r k = Some c ↔ player_of c r = Some k)
  ∧ (gameStatus r = NotStarted ↔ whitePlayerID r = None ∨ blackPlayerID r = None).

(** Whether the session of a user is marked connected, if there is one. *)
Definition connected_at (r : Room) (k : N) : option bool :=
  (λ s, connected (state (member s))) <$> sessions r !! k.

(** No session is marked connected. *)
Definition nobody_connected (r : Room) : Prop :=
  ∀ k, connected_at r k ≠ Some true.

(** Each timer calls what it was made for; the two clocks exist together,
    and they do while a game with clocks is in progress; outside a game in
    progress neither a clock nor a disconnect timer is counting down; and
    the inactivity timer only counts down before the game, with nobody
    connected. *)
Definition timers_ok (r : Room) : Prop :=
  callback (inactivityTimer r) = CbInactivity
  ∧ (∀ t, whiteTimer r = Some t → callback t = CbClock White)
  ∧ (∀ t, blackTimer r = Some t → callback t = CbClock Black)
  ∧ (is_Some (whiteTimer r) ↔ is_Some (blackTimer r))
  ∧ (gameStatus r = InProgress → timer (gameRules r) = true → is_Some (whiteTimer r))
  ∧ (gameStatus r ≠ InProgress → timers_quiet r)
  ∧ (isGoing (inactivityTimer r) = true →
     gameStatus r = NotStarted ∧ nobody_connected r).

(** Before the game there are never the host and one more member connected
    at the same time. *)
Definition start_ok (r : Room) : Prop :=
  gameStatus r = NotStarted →
  connected_at r (hostID r) = Some true →
  ∀ k, connected_at r k = Some true → k = hostID r.

(** A game that is not finished has no result and no row; a finished game
    has a resolution and exactly one row, which agrees with the game state
    on the resolution and on the winner; and the room's own [winnerId] is
    0 unless the game ended in a checkmate. *)
Definition results_ok (r : Room) : Prop :=
  (gameStatus r ≠ Finished →
   db_rows r = [] ∧ resolution (_gameState r) = None
   ∧ winnerID (_gameState r) = None)
  ∧ (gameStatus r = Finished →
     ∃ row, db_rows r = [row]
            ∧ is_Some (resolution (_gameState r))
            ∧ pg_resolution row = resolution (_gameState r)
            ∧ pg_winner row =
                (if bool_decide (winnerID (_gameState r) = whitePlayerID r)
                 then Some White
                 else if bool_decide (winnerID (_gameState r) = blackPlayerID r)
                      then Some Black else None))
  ∧ (winnerId r = Some 0%N
     ∨ (resolution (_gameState r) = Some Checkmate
        ∧ winnerId r = winnerID (_gameState r))).

(** All of it together. *)
Definition well_formed (r : Room) : Prop :=
  sessions_ok r ∧ players_ok r ∧ timers_ok r ∧ start_ok r ∧ results_ok r.

(** What a handler turns away, and with which error. *)
Definition refusal (r : Room) (op : Op) : option Error :=
  match op with
  | Connect so u =>
      if isUserConnected r (uid u)
      then Some (AlreadyConnectedError "You can not connect to the same room twice")
      else None
  | Disconnect userID _ =>
      match sessions r !! userID with
      | Some _ => None
      | None => Some TypeError
      end
  | MakeMove move color =>
      if bool_decide (gameStatus r ≠ InProgress)
      then Some (IllegalMoveError "Game is not in progress")
      else if bool_decide (Chess_turn (chess r) ≠ color)
           then Some (IllegalMoveError "This was not your turn")
           else match Chess_move (chess r) move with
                | Some _ => None
                | None => Some InvalidMoveError
                end
  | _ => None
  end.

(** Rooms that a newly built room can come to. *)
Definition reachable (cfg : Config) (r : Room) : Prop :=
  ∃ host rules id rnd1 rnd2 now1 now2 rc ops,
    r = run cfg ops (ChessServerRoom_new cfg host rules id rnd1 rnd2 now1 now2 rc).

End Vocabulary.

(** ** A concrete room

    The scenario of the specification: the host (id 1) prefers White and
    plays with a clock of 300 s and an increment of 5 s; user 2 joins. *)
Module Demo.

#[local] Existing Instance ScriptedOracle.

Definition cfg : Config :=
  {| cfg_inactivityTimeout := 180;
     cfg_disconnectTimeout := 60;
     cfg_fakeRoomCreate := true;
     cfg_fakeRoomId := "fake" |}.

Definition rules : GameRules :=
  {| timer := true;
     initialTime := Some 300%Z;
     timerIncrement := Some 5%Z;
     hostPreferredColor := Some White |}.

Definition alice : User := {| uid := 1; displayName := "alice" |}.
Definition bob : User := {| uid := 2; displayName := "bob" |}.
Definition carol : User := {| uid := 3; displayName := "carol" |}.

Definition fresh : Room :=
  ChessServerRoom_new cfg alice rules (Some "room") "x" "y" 0 0 Black.

(** Alice and Bob are connected and the game has begun. *)
Definition started : Room :=
  run cfg [Connect 100%N alice; Elapse 10; Connect 101%N bob] fresh.

(** One second into the game White makes the first move. *)
Definition before_white : Room := run cfg [Elapse 1000] started.
Definition after_white : Room := run cfg [MakeMove Quiet White] before_white.

(** Two seconds later Black answers. *)
Definition before_black : Room := run cfg [Elapse 2000] after_white.
Definition after_black : Room := run cfg [MakeMove Quiet Black] before_black.

(** Bob and Carol come in before the host does, Bob first. *)
Definition lobby : Room :=
  run cfg [Elapse 5; Connect 102%N bob; Elapse 10; Connect 103%N carol; Elapse 10] fresh.

(** The host's connection has been admitted; the game is about to start. *)
Definition lobby_with_host : Room :=
  (ServerRoom_acceptConnection ChessServerRoom_gameState 100%N alice lobby).2.

(** Bob has lost his connection in the middle of the game. *)
Definition bob_gone : Room :=
  run cfg [Elapse 1000; Disconnect 2%N "transport close"] started.

(** White's first move leaves Black without a legal move. *)
Definition stalemated : Room :=
  run cfg [MakeMove Stalemating White] started.

(** The room that the configuration marks as not to be saved. *)
Definition fake_fresh : Room :=
  ChessServerRoom_new cfg alice rules (Some "fake") "x" "y" 0 0 Black.

Definition fake_started : Room :=
  run cfg [Connect 100%N alice; Elapse 10; Connect 101%N bob] fake_fresh.

Definition fake_finished : Room :=
  run cfg [Resign White] fake_started.

End Demo.

(** * Proofs *)

Section Proofs.

Context {O : RulesOracle}.
Variable cfg : Config.

(** Methods are taken apart by the rules below, never by [simpl]. *)
#[local] Arguments mret : simpl never.
#[local] Arguments M_bind : simpl never.

(** ** Rules of the logic *)

Lemma hoare_conseq {A : Type} (P P' : Room → Prop) (m : M A)
    (Q Q' : A → Room → Prop) (E E' : Error → Room → Prop) :
  hoare P' m Q' E' →
  (∀ r, P r → P' r) → (∀ a r, Q' a r → Q a r) → (∀ e r, E' e r → E e r) →
  hoare P m Q E.
Proof.
  intros H HP HQ HE r Hr. specialize (H r (HP r Hr)).
  destruct (m r) as [[a|e] r']; auto.
Qed.

Lemma hoare_ret {A : Type} (P : Room → Prop) (a : A) (Q : A → Room → Prop) E :
  (∀ r, P r → Q a r) → hoare P (mret a) Q E.
Proof. intros H r Hr. simpl. auto. Qed.

Lemma hoare_throw {A : Type} (P : Room → Prop) e (Q : A → Room → Prop)
    (E : Error → Room → Prop) :
  (∀ r, P r → E e r) → hoare P (throw e) Q E.
Proof. intros H r Hr. simpl. auto. Qed.

Lemma hoare_modify (P : Room → Prop) g (Q : unit → Room → Prop) E :
  (∀ r, P r → Q tt (g r)) → hoare P (modify g) Q E.
Proof. intros H r Hr. simpl. auto. Qed.

Lemma hoare_bind {A B : Type} (P : Room → Prop) (m : M A) (f : A → M B)
    (Mid : A → Room → Prop) Q E :
  hoare P m Mid E → (∀ a, hoare (Mid a) (f a) Q E) → hoare P (m ≫= f) Q E.
Proof.
  intros Hm Hf r Hr. specialize (Hm r Hr).
  unfold mbind, M_bind, bind. destruct (m r) as [[a|e] r']; [|done].
  by apply Hf.
Qed.

Lemma hoare_ret_bind {A B : Type} (P : Room → Prop) (a : A) (f : A → M B) Q E :
  hoare P (f a) Q E → hoare P (mret a ≫= f) Q E.
Proof. intros H r Hr. by apply H. Qed.

Lemma hoare_throw_bind {A B : Type} (P : Room → Prop) e (f : A → M B) Q
    (E : Error → Room → Prop) :
  (∀ r, P r → E e r) → hoare P (throw e ≫= f) Q E.
Proof. intros H r Hr. simpl. auto. Qed.

Lemma hoare_get_bind {B : Type} (P : Room → Prop) (f : Room → M B) Q E :
  (∀ r0, P r0 → hoare (eq r0) (f r0) Q E) → hoare P (get ≫= f) Q E.
Proof. intros H r Hr. by apply (H r Hr). Qed.

Lemma hoare_modify_bind {B : Type} (P P' : Room → Prop) g (f : unit → M B) Q E :
  (∀ r, P r → P' (g r)) → hoare P' (f tt) Q E → hoare P (modify g ≫= f) Q E.
Proof. intros Hg H r Hr. apply (H (g r)). auto. Qed.

Lemma hoare_assoc {A B C : Type} (P : Room → Prop) (m : M A) (f : A → M B)
    (g : B → M C) Q E :
  hoare P (m ≫= λ a, f a ≫= g) Q E → hoare P ((m ≫= f) ≫= g) Q E.
Proof.
  intros H r Hr. specialize (H r Hr). revert H.
  unfold mbind, M_bind, bind. by destruct (m r) as [[a|e] r'].
Qed.

Lemma hoare_detached (P : Room → Prop) (m : M unit) (Q : unit → Room → Prop) E :
  hoare P m Q (λ e r, Q tt (log [Unhandled e] r)) → hoare P (detached m) Q E.
Proof.
  intros H r Hr. specialize (H r Hr). unfold detached.
  destruct (m r) as [[[]|e] r']; auto.
Qed.

Lemma hoare_True {A : Type} (P : Room → Prop) (m : M A)
    (Q : A → Room → Prop) (E : Error → Room → Prop) :
  (∀ a r, Q a r) → (∀ e r, E e r) → hoare P m Q E.
Proof. intros HQ HE r _. destruct (m r) as [[a|e] r']; auto. Qed.

Lemma hoare_pointwise {A : Type} (P : Room → Prop) (m : M A) Q E :
  (∀ s, P s → hoare (eq s) m Q E) → hoare P m Q E.
Proof. intros H r Hr. by apply (H r Hr). Qed.

(** What a triple says about the room a method leaves behind, and about
    the way the method ends. *)
Lemma hoare_final {A : Type} (P : Room → Prop) (m : M A) (I : Room → Prop) X r :
  hoare P m (λ _, I) (λ e r, X e ∧ I r) → P r → I (m r).2.
Proof.
  intros H Hr. specialize (H r Hr).
  destruct (m r) as [[a|e] r']; [done|]. by destruct H.
Qed.

Lemma hoare_outcome {A : Type} (P : Room → Prop) (m : M A) Q E r :
  hoare P m Q E → P r →
  match (m r).1 with Ok a => Q a (m r).2 | Throw e => E e (m r).2 end.
Proof. intros H Hr. specialize (H r Hr). by destruct (m r) as [[a|e] r']. Qed.

Lemma preserves_ret {A : Type} I X (a : A) : preserves I X (mret a).
Proof. by intros r Hr. Qed.

Lemma preserves_throw {A : Type} I (X : Error → Prop) e :
  X e → preserves I X (throw (A:=A) e).
Proof. by intros HX r Hr. Qed.

Lemma preserves_modify I X g : (∀ r, I r → I (g r)) → preserves I X (modify g).
Proof. intros H r Hr. simpl. auto. Qed.

Lemma preserves_bind {A B : Type} I X (m : M A) (f : A → M B) :
  preserves I X m → (∀ a, preserves I X (f a)) → preserves I X (m ≫= f).
Proof. intros. by eapply hoare_bind. Qed.

Lemma preserves_get {B : Type} I X (f : Room → M B) :
  (∀ r0, preserves I X (f r0)) → preserves I X (get ≫= f).
Proof. intros H. apply preserves_bind; [|done]. by intros r Hr. Qed.

(** The state read by [get] is one in which the invariant holds. *)
Lemma preserves_get_known {B : Type} (I : Room → Prop) X (f : Room → M B) :
  (∀ r0, I r0 → preserves I X (f r0)) → preserves I X (get ≫= f).
Proof. intros H r Hr. by apply (H r Hr). Qed.

Lemma preserves_when I X b m : preserves I X m → preserves I X (when b m).
Proof. destruct b; [done|]. intros _. apply preserves_ret. Qed.

Lemma preserves_detached I X m :
  (∀ e r, I r → I (log [Unhandled e] r)) →
  preserves I any_error m → preserves I X (detached m).
Proof.
  intros Hl H. apply hoare_detached.
  eapply hoare_conseq; [apply H|..]; simpl; auto.
  intros e r [_ Hr]. by apply Hl.
Qed.

Lemma preserves_from {A : Type} (I : Room → Prop) X (m : M A) (s : Room) :
  preserves I X m → I s → hoare (eq s) m (λ _, I) (λ e r, X e ∧ I r).
Proof. intros H Hs r <-. by apply H. Qed.

Lemma preserves_always {A : Type} (I : Room → Prop) (m : M A) :
  (∀ r, I r) → preserves I any_error m.
Proof. intros H. by apply hoare_True. Qed.

Lemma preserves_weaken {A : Type} (I : Room → Prop) (X X' : Error → Prop) (m : M A) :
  preserves I X' m → (∀ e, X' e → X e) → preserves I X m.
Proof.
  intros H HX. eapply hoare_conseq; [apply H|..]; [done|done|].
  intros e r [He Hr]. split; [by apply HX|done].
Qed.

Ltac head_of t := lazymatch t with ?f _ => head_of f | _ => t end.

(** Running a method from a given room, one step at a time. *)
Lemma run_bind {A B : Type} (m : M A) (f : A → M B) (r : Room) :
  (m ≫= f) r = match m r with
               | (Ok a, r') => f a r'
               | (Throw e, r') => (Throw e, r')
               end.
Proof. done. Qed.

Lemma run_get (r : Room) : get r = (Ok r, r).
Proof. done. Qed.

Lemma run_modify (g : Room → Room) (r : Room) : modify g r = (Ok tt, g r).
Proof. done. Qed.

Lemma run_mret {A : Type} (a : A) (r : Room) : (mret a : M A) r = (Ok a, r).
Proof. done. Qed.

Lemma run_throw {A : Type} (e : Error) (r : Room) : throw (A:=A) e r = (Throw e, r).
Proof. done. Qed.

Lemma session_at_Some (r : Room) (k : N) (s : MemberSession) :
  sessions r !! k = Some s → session_at (Some k) r = (Ok s, r).
Proof.
  intros H. unfold session_at. rewrite run_bind, run_get. simpl. by rewrite H.
Qed.

Ltac run_step :=
  first [ rewrite run_bind | rewrite run_get | rewrite run_modify
        | rewrite run_mret | rewrite run_throw
        | erewrite session_at_Some by eassumption ];
  cbv beta iota zeta.

Ltac run_steps := repeat run_step.

(** Walks through a method, leaving one goal for each place where it
    changes the room and one for each exception it throws. *)
Ltac preserves_step :=
  lazymatch goal with
  | |- preserves _ _ (get ≫= _) => apply preserves_get; intros ?
  | |- preserves _ _ (_ ≫= _) => apply preserves_bind; [|intros ?]
  | |- preserves _ _ (mret _) => apply preserves_ret
  | |- preserves _ _ (throw _) => apply preserves_throw
  | |- preserves _ _ (modify _) => apply preserves_modify; intros ? ?
  | |- preserves _ _ (when _ _) => apply preserves_when
  | |- preserves _ _ (detached _) => apply preserves_detached; [intros ? ? ?|]
  | |- preserves _ _ (if ?b then _ else _) => destruct b
  | |- preserves _ _ (match ?x with _ => _ end) => destruct x
  | |- preserves _ _ ?m => let h := head_of m in unfold h
  end.

(** ** The status only moves forward *)

Lemma at_least_NotStarted r : at_least NotStarted r.
Proof. unfold at_least. simpl. lia. Qed.

Lemma at_least_Finished s r : at_least s (set_gameState (set_status Finished) r).
Proof. unfold at_least. destruct s; simpl; lia. Qed.

Ltac at_least_walk :=
  repeat preserves_step;
  try done;
  try apply at_least_Finished.

Lemma handleDisconnect_at_least s userID reason :
  preserves (at_least s) any_error (handleDisconnect cfg userID reason).
Proof. at_least_walk. Qed.

Lemma handleMove_at_least s move color :
  preserves (at_least s) any_error (handleMove cfg move color).
Proof. at_least_walk. Qed.

Lemma handleGiveUp_at_least s color :
  preserves (at_least s) any_error (handleGiveUp cfg color).
Proof. at_least_walk. Qed.

Lemma run_callback_at_least s cb :
  preserves (at_least s) any_error (run_callback cfg cb).
Proof. at_least_walk. Qed.

Lemma ServerRoom_acceptConnection_at_least s so u :
  preserves (at_least s) any_error
    (ServerRoom_acceptConnection ChessServerRoom_gameState so u).
Proof. at_least_walk. Qed.

Lemma ChessServerRoom_acceptConnection_at_least s so u :
  preserves (at_least s) any_error (ChessServerRoom_acceptConnection so u).
Proof.
  destruct (decide (s = NotStarted)) as [->|Hs].
  { apply preserves_always, at_least_NotStarted. }
  unfold ChessServerRoom_acceptConnection.
  apply preserves_bind; [apply ServerRoom_acceptConnection_at_least|intros _].
  apply preserves_get_known. intros r0 Hr0.
  assert (status (_gameState r0) ≠ NotStarted) as Hne.
  { intros Heq. unfold at_least, gameStatus in Hr0. rewrite Heq in Hr0.
    destruct s; simpl in Hr0; try lia; done. }
  rewrite (bool_decide_eq_false_2 _ Hne). simpl.
  at_least_walk.
Qed.

Lemma handle_at_least s op : preserves (at_least s) any_error (handle cfg op).
Proof.
  destruct op; simpl.
  - apply ChessServerRoom_acceptConnection_at_least.
  - apply handleDisconnect_at_least.
  - apply handleMove_at_least.
  - apply preserves_detached; [by intros|apply handleGiveUp_at_least].
  - apply preserves_get; intros r0. apply preserves_when.
    apply preserves_bind; [|intros _; apply run_callback_at_least].
    by apply preserves_modify.
  - apply preserves_get; intros r0.
    destruct (sessions r0 !! userID ≫= disconnectTimer); [|apply preserves_ret].
    apply preserves_when.
    apply preserves_bind; [|intros _; apply run_callback_at_least].
    by apply preserves_modify.
  - apply preserves_get; intros r0.
    destruct (if bool_decide (side = White) then whiteTimer r0 else blackTimer r0);
      [|apply preserves_ret].
    apply preserves_when.
    apply preserves_bind; [|intros _; apply run_callback_at_least].
    destruct (bool_decide (side = White)); by apply preserves_modify.
  - by apply preserves_modify.
Qed.

Lemma step_at_least s r op : at_least s r → at_least s (step cfg r op).
Proof. intros H. unfold step. by apply (hoare_final _ _ _ _ _ (handle_at_least s op)). Qed.

Lemma run_at_least s ops : ∀ r, at_least s r → at_least s (run cfg ops r).
Proof.
  induction ops as [|op ops IH]; intros r H; [done|].
  simpl. apply IH. by apply step_at_least.
Qed.

(** C7. Whatever happens to a room — connections, disconnections, moves,
    resignations, timers running out, time passing — its game status never
    moves backward in the order NotStarted, InProgress, Finished: it is never
    Finished before and InProgress after, nor InProgress before and
    NotStarted after. *)
Theorem status_only_moves_forward (ops : list Op) (r : Room) :
  status_rank (gameStatus r) ≤ status_rank (gameStatus (run cfg ops r))
  ∧ ¬ (gameStatus r = Finished ∧ gameStatus (run cfg ops r) = InProgress)
  ∧ ¬ (gameStatus r = InProgress ∧ gameStatus (run cfg ops r) = NotStarted).
Proof.
  assert (status_rank (gameStatus r) ≤ status_rank (gameStatus (run cfg ops r))) as H.
  { apply (run_at_least (gameStatus r) ops r). unfold at_least. lia. }
  split; [done|].
  split; intros [H1 H2]; rewrite H1, H2 in H; simpl in H; lia.
Qed.

(** ** Moves that are turned away *)

(** C6. A move that arrives while the game is not in progress, or from the
    side whose turn it is not, makes [handleMove] throw an IllegalMoveError
    and leaves the room exactly as it was: the oracle has not been given the
    move, no clock has been started, paused or incremented, and nothing has
    been sent. *)
Theorem handleMove_rejects_without_effect (move : Move) (color : Color) (r : Room) :
  status (_gameState r) ≠ InProgress ∨ Chess_turn (chess r) ≠ color →
  ∃ msg, handleMove cfg move color r = (Throw (IllegalMoveError msg), r).
Proof.
  intros H. unfold handleMove, mbind, M_bind, bind, get. simpl.
  destruct (decide (status (_gameState r) = InProgress)) as [Hs|Hs].
  - rewrite (bool_decide_eq_false_2 _ (λ H', H' Hs)).
    destruct H as [H|H]; [done|].
    rewrite (bool_decide_eq_true_2 _ H). by eexists.
  - rewrite (bool_decide_eq_true_2 _ Hs). by eexists.
Qed.

(** ** A second connection of the same user *)

Ltac only_TypeError_walk := repeat preserves_step; done.

Lemma ChessServerRoom_startGame_only_TypeError :
  preserves (λ _, True) only_TypeError ChessServerRoom_startGame.
Proof. only_TypeError_walk. Qed.

Lemma only_TypeError_hoare {A : Type} (P : Room → Prop) (m : M A) :
  preserves (λ _, True) only_TypeError m →
  hoare P m (λ _ _, True) (λ e _, e = TypeError).
Proof.
  intros H. eapply hoare_conseq; [apply H|done|done|]. by intros e r [He _].
Qed.

Lemma isUserConnected_spec (r : Room) (userID : N) :
  isUserConnected r userID = true
  ↔ ∃ s, sessions r !! userID = Some s ∧ connected (state (member s)) = true.
Proof.
  unfold isUserConnected. destruct (sessions r !! userID) as [s|].
  - split; [by exists s|]. by intros (s' & [= <-] & H).
  - split; [done|]. by intros (s' & [=] & _).
Qed.

Lemma ServerRoom_acceptConnection_fresh_user so u r :
  isUserConnected r (uid u) = false →
  hoare (eq r) (ServerRoom_acceptConnection ChessServerRoom_gameState so u)
        (λ _ _, True) (λ e _, e = TypeError).
Proof.
  intros Hc. unfold ServerRoom_acceptConnection.
  apply hoare_get_bind. intros r0 <-. rewrite Hc.
  apply only_TypeError_hoare. only_TypeError_walk.
Qed.

Lemma ChessServerRoom_acceptConnection_fresh_user so u r :
  isUserConnected r (uid u) = false →
  hoare (eq r) (ChessServerRoom_acceptConnection so u)
        (λ _ _, True) (λ e _, e = TypeError).
Proof.
  intros Hc. unfold ChessServerRoom_acceptConnection.
  apply (hoare_bind _ _ _ (λ _ _, True));
    [by apply ServerRoom_acceptConnection_fresh_user|intros ?].
  apply only_TypeError_hoare.
  apply preserves_get; intros r0.
  apply preserves_bind; [|intros _; only_TypeError_walk].
  destruct (_ && _).
  - apply preserves_bind; [only_TypeError_walk|intros host].
    destruct (connected _); [apply ChessServerRoom_startGame_only_TypeError|].
    apply preserves_ret.
  - only_TypeError_walk.
Qed.

(** C9. [acceptConnection] throws an AlreadyConnectedError exactly when the
    user's session is present and marked connected; the room is then exactly
    as it was before the call: no session made or rebound, no timer
    cancelled, nothing sent.  This holds of the method of [ServerRoom] and of
    its override in [ChessServerRoom]. *)
Theorem acceptConnection_already_connected (so : Socket) (u : User) (r : Room) :
  let base := ServerRoom_acceptConnection ChessServerRoom_gameState so u in
  let chess := ChessServerRoom_acceptConnection so u in
  let connected_already :=
    ∃ s, sessions r !! uid u = Some s ∧ connected (state (member s)) = true in
  (connected_already →
     (∃ msg, base r = (Throw (AlreadyConnectedError msg), r))
     ∧ (∃ msg, chess r = (Throw (AlreadyConnectedError msg), r)))
  ∧ (¬ connected_already →
     ∀ msg, (base r).1 ≠ Throw (AlreadyConnectedError msg)
            ∧ (chess r).1 ≠ Throw (AlreadyConnectedError msg)).
Proof.
  intros base chess connected_already. split.
  - intros Hc. apply isUserConnected_spec in Hc.
    unfold base, chess, ChessServerRoom_acceptConnection, ServerRoom_acceptConnection.
    unfold mbind, M_bind, bind, get. simpl. rewrite Hc. simpl.
    split; by eexists.
  - intros Hc msg.
    assert (isUserConnected r (uid u) = false) as Hf.
    { destruct (isUserConnected r (uid u)) eqn:E; [|done].
      destruct Hc. by apply isUserConnected_spec. }
    pose proof (hoare_outcome _ _ _ _ r
                  (ServerRoom_acceptConnection_fresh_user so u r Hf) eq_refl) as H1.
    pose proof (hoare_outcome _ _ _ _ r
                  (ChessServerRoom_acceptConnection_fresh_user so u r Hf) eq_refl) as H2.
    fold base in H1. fold chess in H2.
    split.
    + destruct (base r).1; [done|]. by rewrite H1.
    + destruct (chess r).1; [done|]. by rewrite H2.
Qed.

(** ** Saving a finished game *)

(** The guard of the base class does what it is there for: nothing. *)
Lemma ServerRoom_saveGame_finished (r : Room) :
  status (_gameState r) = Finished → ServerRoom_saveGame r = (Ok tt, r).
Proof.
  intros Hs. unfold ServerRoom_saveGame, mbind, M_bind, bind, get. simpl.
  rewrite bool_decide_eq_false_2 by (intros H; by apply H).
  by destruct (isFake r).
Qed.

(** The override goes on after the base method has returned, fake room or
    not. *)
Lemma ChessServerRoom_saveGame_finished (r : Room) :
  status (_gameState r) = Finished →
  ∃ row, ChessServerRoom_saveGame r = (Ok tt, log [DbCreate row] r)
         ∧ pg_id row = roomId r.
Proof.
  intros Hs. unfold ChessServerRoom_saveGame.
  unfold mbind at 1, M_bind at 1, bind at 1.
  rewrite (ServerRoom_saveGame_finished r Hs).
  unfold mbind, M_bind, bind, get, modify. simpl. by eexists.
Qed.

(** ** The end of the grace period *)

Lemma handleDisconnectTimeout_effect (userID : N) (r : Room) :
  let r' := (ChessServerRoom_handleDisconnectTimeout userID r).2 in
  (ChessServerRoom_handleDisconnectTimeout userID r).1 = Ok tt
  ∧ status (_gameState r') = Finished
  ∧ resolution (_gameState r') = Some PlayerQuit
  ∧ winnerID (_gameState r') =
      (if bool_decide (Some userID = whitePlayerID r)
       then blackPlayerID r else whitePlayerID r)
  ∧ (∀ k s t, sessions r' !! k = Some s → disconnectTimer s = Some t →
              isGoing t = false).
Proof.
  unfold ChessServerRoom_handleDisconnectTimeout, ServerRoom_handleDisconnectTimeout,
    stopDisconnectTimers, emit, pauseClocks.
  unfold mbind, M_bind, bind, get, modify. simpl.
  match goal with
  | |- context [ChessServerRoom_saveGame ?x] =>
      destruct (ChessServerRoom_saveGame_finished x eq_refl) as (row & -> & _)
  end.
  simpl. repeat split.
  intros k s t Hk Ht. rewrite lookup_fmap in Hk.
  destruct (sessions r !! k) as [s0|]; [|done].
  injection Hk as <-. simpl in Ht.
  destruct (disconnectTimer s0); [|done]. by injection Ht as <-.
Qed.

(** C5. When the grace timer of a disconnected player runs out, the game is
    over: the status is Finished, the resolution PlayerQuit, the winner the
    other player, and no disconnect timer of any session is running any
    more.  This holds of [handleDisconnectTimeout], which returns, and of
    the room after the timer of a session has run out. *)
Theorem disconnect_timeout_ends_game (userID : N) (r : Room) :
  let ended (r' : Room) :=
    status (_gameState r') = Finished
    ∧ resolution (_gameState r') = Some PlayerQuit
    ∧ (whitePlayerID r = Some userID → winnerID (_gameState r') = blackPlayerID r)
    ∧ (blackPlayerID r = Some userID → whitePlayerID r ≠ Some userID →
       winnerID (_gameState r') = whitePlayerID r)
    ∧ (∀ k s t, sessions r' !! k = Some s → disconnectTimer s = Some t →
                isGoing t = false) in
  (ChessServerRoom_handleDisconnectTimeout userID r).1 = Ok tt
  ∧ ended (ChessServerRoom_handleDisconnectTimeout userID r).2
  ∧ (∀ k s t, sessions r !! k = Some s → disconnectTimer s = Some t →
              isGoing t = true → callback t = CbDisconnect userID →
              ended (step cfg r (GraceExpired k))).
Proof.
  intros ended.
  assert (∀ x, whitePlayerID x = whitePlayerID r → blackPlayerID x = blackPlayerID r →
               (ChessServerRoom_handleDisconnectTimeout userID x).1 = Ok tt
               ∧ ended (ChessServerRoom_handleDisconnectTimeout userID x).2) as H.
  { intros x Hw Hb.
    destruct (handleDisconnectTimeout_effect userID x) as (Hok & Hs & Hr & Hwin & Ht).
    split; [done|]. unfold ended. rewrite Hw, Hb in Hwin.
    split; [done|]. split; [done|]. split; [|split; [|done]].
    - intros Hu. rewrite Hwin, bool_decide_eq_true_2; done.
    - intros _ Hu. rewrite Hwin, bool_decide_eq_false_2; done. }
  split; [by apply H|]. split; [by apply H|].
  intros k s t Hk Ht Hgoing Hcb.
  unfold step, handle. run_steps. rewrite Hk. simpl. rewrite Ht, Hgoing.
  unfold when, update_session. run_steps. rewrite Hcb.
  unfold run_callback, detached.
  match goal with
  | |- context [ChessServerRoom_handleDisconnectTimeout userID ?x] =>
      destruct (H x eq_refl eq_refl) as [Hok Hend];
      destruct (ChessServerRoom_handleDisconnectTimeout userID x) as [[[]|e] r1]
  end; [exact Hend|discriminate Hok].
Qed.

(** ** Choosing the opponent *)

Lemma Array_sort_insert_Permutation {A : Type} (cmp : A → A → Z) (x : A) (l : list A) :
  Array_sort_insert cmp x l ≡ₚ x :: l.
Proof.
  induction l as [|y l IH]; simpl; [done|].
  destruct (cmp x y <=? 0)%Z; [done|].
  rewrite IH. apply Permutation_swap.
Qed.

Lemma Array_sort_Permutation {A : Type} (cmp : A → A → Z) (l : list A) :
  Array_sort cmp l ≡ₚ l.
Proof.
  induction l as [|x l IH]; simpl; [done|].
  by rewrite Array_sort_insert_Permutation, IH.
Qed.

Section Descending.

Context {A : Type} (key : A → Z).

#[local] Abbreviation cmp := (descending_cmp key).
#[local] Abbreviation desc := (descending key).

Lemma Array_sort_insert_descending (x : A) (l : list A) :
  StronglySorted desc l → StronglySorted desc (Array_sort_insert cmp x l).
Proof.
  induction 1 as [|y l Hl IH Hy]; simpl.
  { repeat constructor. }
  destruct (Z.leb_spec (cmp x y) 0) as [Hxy|Hxy]; unfold descending_cmp in Hxy.
  - constructor; [by constructor|].
    constructor; [unfold descending; lia|].
    eapply List.Forall_impl; [|exact Hy]. unfold descending. intros z Hz. lia.
  - constructor; [done|].
    rewrite Array_sort_insert_Permutation.
    constructor; [unfold descending; lia|done].
Qed.

Lemma Array_sort_descending (l : list A) :
  StronglySorted desc (Array_sort cmp l).
Proof.
  induction l as [|x l IH]; simpl; [constructor|].
  by apply Array_sort_insert_descending.
Qed.

Lemma last_of_descending (l : list A) (x : A) :
  StronglySorted desc l → list.last l = Some x →
  ∀ y, y ∈ l → (key x ≤ key y)%Z.
Proof.
  intros Hl Hlast. apply last_Some in Hlast as [l' ->].
  induction l' as [|a l' IH]; intros y Hy.
  - apply list_elem_of_singleton in Hy. subst y. lia.
  - simpl in Hl. inversion Hl as [|a' l'' Hl' Ha]; subst.
    apply elem_of_cons in Hy as [Hy|Hy]; [|by apply IH].
    subst y. rewrite List.Forall_forall in Ha. apply Ha.
    apply in_or_app. right. by left.
Qed.

(** [sort] by descending key and then [pop]: an element of the array with
    the least key. *)
Lemma sort_pop_least (l : list A) (x : A) :
  list.last (Array_sort cmp l) = Some x →
  x ∈ l ∧ ∀ y, y ∈ l → (key x ≤ key y)%Z.
Proof.
  intros Hlast. split.
  - rewrite <- (Array_sort_Permutation cmp l).
    apply last_Some in Hlast as [l' ->].
    apply elem_of_app. right. by apply list_elem_of_singleton.
  - intros y Hy. apply (last_of_descending _ _ (Array_sort_descending l) Hlast).
    by rewrite (Array_sort_Permutation cmp l).
Qed.

Lemma sort_pop_nonempty (l : list A) :
  l ≠ [] → is_Some (list.last (Array_sort cmp l)).
Proof.
  intros Hl. destruct (list.last (Array_sort cmp l)) eqn:E; [done|].
  apply last_None in E. destruct Hl.
  apply Permutation_nil_r. by rewrite <- E, Array_sort_Permutation.
Qed.

End Descending.

Lemma elem_of_Object_entries {V : Type} (m : gmap N V) (k : N) (v : V) :
  (k, v) ∈ Object_entries m ↔ m !! k = Some v.
Proof.
  unfold Object_entries. rewrite merge_sort_Permutation.
  apply elem_of_map_to_list.
Qed.

Lemma elem_of_connectedSessions (r : Room) (k : N) (s : MemberSession) :
  (k, s) ∈ connectedSessions r
  ↔ sessions r !! k = Some s ∧ connected (state (member s)) = true.
Proof.
  unfold connectedSessions. rewrite list_elem_of_filter, elem_of_Object_entries.
  simpl. rewrite Is_true_true. tauto.
Qed.

Lemma elem_of_nonPlayerSessions (r : Room) (k : N) (s : MemberSession) :
  (k, s) ∈ nonPlayerSessions r
  ↔ sessions r !! k = Some s
    ∧ connected (state (member s)) = true
    ∧ isPlayer (state (member s)) = false.
Proof.
  unfold nonPlayerSessions. rewrite list_elem_of_filter, elem_of_connectedSessions.
  simpl. rewrite Is_true_true, negb_true_iff. tauto.
Qed.

(** C1 (amended). Where [selectOpponent] runs in a room that has the host's
    session and at least one connected session that is not a player, it
    takes, of the connected sessions that are not players, one whose join
    timestamp is the earliest.  That session becomes a player with the
    colour that [swapColor] gives for the host's, the player id of that
    colour is set to its user, and a memberUpdate with the new member state
    goes to every session that has a socket. *)
Theorem selectOpponent_takes_earliest_joined (r : Room) (host : MemberSession) (hc : Color) :
  sessions r !! hostID r = Some host →
  color (state (member host)) = Some hc →
  nonPlayerSessions r ≠ [] →
  ∃ k selected,
    selectedSession r = Some (k, selected)
    ∧ (sessions r !! k = Some selected
       ∧ connected (state (member selected)) = true
       ∧ isPlayer (state (member selected)) = false)
    ∧ (∀ k' s', sessions r !! k' = Some s' →
                connected (state (member s')) = true →
                isPlayer (state (member s')) = false →
                (joined selected ≤ joined s')%Z)
    ∧ let r' := (selectOpponent r).2 in
      let st' := {| connected := connected (state (member selected));
                    isPlayer := true;
                    color := Some (swapColor hc) |} in
      (selectOpponent r).1 = Ok tt
      ∧ (∃ s', sessions r' !! k = Some s' ∧ state (member s') = st'
               ∧ user (member s') = user (member selected))
      ∧ (∀ k', k' ≠ k → sessions r' !! k' = sessions r !! k')
      ∧ (if bool_decide (swapColor hc = White)
         then whitePlayerID r' = Some (uid (user (member selected)))
         else blackPlayerID r' = Some (uid (user (member selected))))
      ∧ trace r' =
          trace r ++
          omap (λ e, (λ so, SocketEmit so
                              (EvMemberUpdate (uid (user (member selected))) st'))
                     <$> socket e.2)
               (Object_entries (sessions r')).
Proof.
  intros Hhost Hcolor Hne.
  destruct (sort_pop_nonempty (λ e : N * MemberSession, joined e.2) _ Hne)
    as [[k selected] Hsel].
  change (selectedSession r = Some (k, selected)) in Hsel.
  destruct (sort_pop_least (λ e : N * MemberSession, joined e.2) _ _ Hsel)
    as [Hin Hleast].
  apply elem_of_nonPlayerSessions in Hin as Hin'.
  destruct Hin' as (Hk & Hconn & Hplayer).
  exists k, selected. split; [done|]. split; [done|]. split.
  { intros k' s' Hk' Hc' Hp'.
    apply (Hleast (k', s')). by apply elem_of_nonPlayerSessions. }
  unfold selectOpponent, update_session, broadcast.
  run_steps. rewrite Hsel, Hcolor. run_steps.
  destruct (bool_decide (swapColor hc = White)) eqn:Hw; run_steps; simpl.
  all: split; [done|].
  all: split; [eexists; split; [by rewrite lookup_alter_eq, Hk|done]|].
  all: split; [by intros k' Hk'; rewrite lookup_alter_ne|done].
Qed.

(** ** Running a method from a known room *)

Lemma exact_get {B : Type} (s : Room) (f : Room → M B) Q E :
  hoare (eq s) (f s) Q E → hoare (eq s) (get ≫= f) Q E.
Proof. intros H r <-. by apply H. Qed.

Lemma exact_modify {B : Type} (s : Room) g (f : unit → M B) Q E :
  hoare (eq (g s)) (f tt) Q E → hoare (eq s) (modify g ≫= f) Q E.
Proof. intros H r <-. by apply (H (g s)). Qed.

Lemma exact_throw_bind {A B : Type} (s : Room) e (f : A → M B) Q
    (E : Error → Room → Prop) :
  E e s → hoare (eq s) (throw e ≫= f) Q E.
Proof. by intros H r <-. Qed.

Lemma exact_ret {A : Type} (s : Room) (a : A) (Q : A → Room → Prop) E :
  Q a s → hoare (eq s) (mret a) Q E.
Proof. by intros H r <-. Qed.

Lemma exact_throw {A : Type} (s : Room) e (Q : A → Room → Prop)
    (E : Error → Room → Prop) :
  E e s → hoare (eq s) (throw e) Q E.
Proof. by intros H r <-. Qed.

Lemma exact_modify_last (s : Room) g (Q : unit → Room → Prop) E :
  Q tt (g s) → hoare (eq s) (modify g) Q E.
Proof. by intros H r <-. Qed.

Lemma exact_session_at {B : Type} (s : Room) (k : N) (x : MemberSession)
    (f : MemberSession → M B) Q E :
  sessions s !! k = Some x →
  hoare (eq s) (f x) Q E → hoare (eq s) (session_at (Some k) ≫= f) Q E.
Proof.
  intros Hk H r <-. rewrite run_bind, (session_at_Some _ _ _ Hk). by apply H.
Qed.

(** After a block that keeps an invariant, go on from any room in which
    the invariant holds. *)
Lemma exact_block {A B : Type} (s : Room) (I : Room → Prop) (m : M A)
    (f : A → M B) Q (E : Error → Room → Prop) :
  preserves I any_error m → I s →
  (∀ e r, I r → E e r) →
  (∀ a, hoare I (f a) Q E) →
  hoare (eq s) (m ≫= f) Q E.
Proof.
  intros Hm Hs HE Hf.
  apply (hoare_bind _ _ _ (λ _, I)); [|done].
  eapply hoare_conseq; [apply Hm|..]; [by intros r <-|done|].
  intros e r [_ Hr]. by apply HE.
Qed.

(** The rest of a method keeps an invariant that holds by now. *)
Lemma exact_close {A : Type} (s : Room) (I : Room → Prop) (m : M A)
    (Q : A → Room → Prop) (E : Error → Room → Prop) :
  preserves I any_error m → I s →
  (∀ a r, I r → Q a r) → (∀ e r, I r → E e r) →
  hoare (eq s) m Q E.
Proof.
  intros Hm Hs HQ HE.
  eapply hoare_conseq; [apply Hm|..]; [by intros r <-|done|].
  intros e r [_ Hr]. by apply HE.
Qed.

(** Uses what is known about the room to settle a test. *)
Ltac state_simpl :=
  cbn [roomId hostID createdDateTime gameRules isFake _gameState sessions winnerId
       inactivityTimer chess whitePlayerID blackPlayerID whiteTimer blackTimer
       wallClock trace
       set_gameState set_sessions set_winnerId set_inactivityTimer set_chess
       set_whitePlayerID set_blackPlayerID set_whiteTimer set_blackTimer
       set_wallClock log
       status resolution winnerID set_status set_resolution set_winnerID
       gameStatus ms truthy fmap option_fmap option_map negb andb orb].

Ltac settle :=
  state_simpl;
  repeat match goal with
         | H : ?x = _ |- context [?x] => rewrite H; state_simpl
         end.

(** Splits on a test that the hypotheses leave open; of a decidable
    proposition both answers are tried and the absurd one goes away. *)
Ltac test_on b :=
  lazymatch b with
  | bool_decide ?P =>
      let Hd := fresh "Hd" in
      destruct (decide P) as [Hd|Hd];
      [ rewrite (bool_decide_eq_true_2 _ Hd)
      | rewrite (bool_decide_eq_false_2 _ Hd) ];
      try (exfalso; congruence);
      try (lazymatch type of Hd with
           | @eq Color _ _ => idtac
           | ¬ @eq Color _ _ => idtac
           | @eq GameStatus _ _ => idtac
           | ¬ @eq GameStatus _ _ => idtac
           end;
           exfalso; cbv in Hd; congruence)
  | _ => destruct b eqn:?
  end.

(** Runs a method from a known room, one step further. *)
Ltac exact_step :=
  settle;
  lazymatch goal with
  | |- hoare (eq _) (get ≫= _) _ _ => apply exact_get
  | |- hoare (eq _) (modify _ ≫= _) _ _ => apply exact_modify
  | |- hoare (eq _) (mret _ ≫= _) _ _ => apply hoare_ret_bind
  | |- hoare (eq _) (throw _ ≫= _) _ _ => apply exact_throw_bind
  | |- hoare (eq _) ((_ ≫= _) ≫= _) _ _ => apply hoare_assoc
  | |- hoare (eq _) ((if ?b then _ else _) ≫= _) _ _ => test_on b
  | |- hoare (eq _) ((match ?x with _ => _ end) ≫= _) _ _ => destruct x eqn:?
  | |- hoare (eq _) (when _ _ ≫= _) _ _ => unfold when at 1
  | |- hoare (eq _) (?m ≫= _) _ _ => let h := head_of m in unfold h
  | |- hoare (eq _) (mret _) _ _ => apply exact_ret
  | |- hoare (eq _) (throw _) _ _ => apply exact_throw
  | |- hoare (eq _) (modify _) _ _ => apply exact_modify_last
  | |- hoare (eq _) (detached _) _ _ => apply hoare_detached
  | |- hoare (eq _) (if ?b then _ else _) _ _ => test_on b
  | |- hoare (eq _) (match ?x with _ => _ end) _ _ => destruct x eqn:?
  | |- hoare (eq _) (when _ _) _ _ => unfold when at 1
  | |- hoare (eq _) ?m _ _ => let h := head_of m in unfold h
  end;
  cbv beta.

(** ** The clocks at a move *)

Lemma swapColor_White_iff (c : Color) : swapColor c = White ↔ c = Black.
Proof. by destruct c. Qed.

(** C3 (amended). In a game with clocks, a move that is accepted, gives the
    turn to the other side and does not end the game pauses the clock of the
    side that moved and adds the
    increment to it at once, and starts the other clock, whose time it
    leaves alone.  So White's first move pauses White's clock with the
    increment already on it and starts Black's; Black's answer pauses
    Black's clock, adds the increment to Black's clock and restarts White's
    without adding to it. *)
Theorem accepted_move_switches_clocks (move : Move) (color : Color) (r : Room)
    (c' : Chess) (w b : PausableTimer) (inc : Z) :
  status (_gameState r) = InProgress →
  timer (gameRules r) = true →
  timerIncrement (gameRules r) = Some inc →
  whiteTimer r = Some w →
  blackTimer r = Some b →
  Chess_turn (chess r) = color →
  Chess_move (chess r) move = Some c' →
  Chess_turn c' = swapColor color →
  Chess_isCheckmate c' = false →
  Chess_isStalemate c' = false →
  Chess_isDraw c' = false →
  let r' := (handleMove cfg move color r).2 in
  (handleMove cfg move color r).1 = Ok tt
  ∧ ∃ w' b',
      whiteTimer r' = Some w' ∧ blackTimer r' = Some b'
      ∧ match color with
        | White =>
            isGoing w' = false
            ∧ timeLeft w' = (λ t, t + inc * 1000)%Z <$> timeLeft w
            ∧ isGoing b' = true
            ∧ timeLeft b' = timeLeft b
        | Black =>
            isGoing b' = false
            ∧ timeLeft b' = (λ t, t + inc * 1000)%Z <$> timeLeft b
            ∧ isGoing w' = true
            ∧ timeLeft w' = timeLeft w
        end.
Proof.
  intros Hs Ht Hinc Hw Hb Hturn Hmove Hturn' Hmate Hstale Hdraw r'.
  cut (hoare (eq r) (handleMove cfg move color)
         (λ _ x, ∃ w' b',
            whiteTimer x = Some w' ∧ blackTimer x = Some b'
            ∧ match color with
              | White =>
                  isGoing w' = false
                  ∧ timeLeft w' = (λ t, t + inc * 1000)%Z <$> timeLeft w
                  ∧ isGoing b' = true
                  ∧ timeLeft b' = timeLeft b
              | Black =>
                  isGoing b' = false
                  ∧ timeLeft b' = (λ t, t + inc * 1000)%Z <$> timeLeft b
                  ∧ isGoing w' = true
                  ∧ timeLeft w' = timeLeft w
              end)
         (λ _ _, False)).
  { intros H. pose proof (hoare_outcome _ _ _ _ r H eq_refl) as H'.
    unfold r'. destruct (handleMove cfg move color r).1 as [[]|e]; [done|done]. }
  destruct color; unfold handleMove; repeat exact_step.
  all: simpl; do 2 eexists; split; [done|split; [done|]].
  all: unfold PausableTimer_start; simpl.
  - destruct (timeLeft w), (isGoing b) eqn:?; simpl; auto.
  - destruct (timeLeft b), (isGoing w) eqn:?; simpl; auto.
Qed.

(** ** Resolution and winner *)

Lemma winner_bookkeeping_frame (r r' : Room) :
  _gameState r' = _gameState r → winnerId r' = winnerId r →
  winner_bookkeeping r → winner_bookkeeping r'.
Proof.
  unfold winner_bookkeeping, no_winner, gameStatus. by intros -> ->.
Qed.

Lemma undecided_frame (r r' : Room) :
  _gameState r' = _gameState r → winnerId r' = winnerId r →
  undecided r → undecided r'.
Proof. unfold undecided, no_winner, gameStatus. by intros -> ->. Qed.

Lemma undecided_InProgress (r : Room) :
  undecided r → undecided (set_gameState (set_status InProgress) r).
Proof. intros (_ & ? & ?). by split. Qed.

Lemma undecided_bookkeeping (r : Room) : undecided r → winner_bookkeeping r.
Proof.
  intros (Hs & Hr & Hw). split; [done|].
  rewrite Hr. by intros [?|?].
Qed.

Lemma bookkeeping_undecided (r : Room) :
  winner_bookkeeping r → gameStatus r ≠ Finished → undecided r.
Proof. intros [H _] Hs. destruct (H Hs). by split. Qed.

(** A finished game satisfies the bookkeeping invariant as soon as a drawn
    resolution comes with no winner. *)
Lemma finished_bookkeeping (r : Room) :
  gameStatus r = Finished →
  (drawn (resolution (_gameState r)) → no_winner r) →
  winner_bookkeeping r.
Proof. intros Hs H. split; [by rewrite Hs|done]. Qed.

Ltac bookkeeping_leaf :=
  cbv beta;
  first
    [ assumption
    | match goal with
      | H : winner_bookkeeping ?r |- winner_bookkeeping _ =>
          apply (winner_bookkeeping_frame r); [reflexivity|reflexivity|exact H]
      end
    | match goal with
      | H : undecided ?r |- undecided _ =>
          apply (undecided_frame r); [reflexivity|reflexivity|exact H]
      end
    | by apply undecided_InProgress ].

Ltac as_preserves :=
  lazymatch goal with
  | |- preserves _ _ _ => idtac
  | |- hoare ?I ?m _ _ => change (preserves I any_error m)
  end.

Ltac bookkeeping_walk :=
  as_preserves; repeat preserves_step; try done; bookkeeping_leaf.

Lemma closing_steps_bookkeeping sig :
  preserves winner_bookkeeping any_error
    (emit sig ≫= λ _, checkInactivity cfg ≫= λ _, ChessServerRoom_saveGame).
Proof. bookkeeping_walk. Qed.

Ltac drop_any_error :=
  cbv beta;
  lazymatch goal with
  | |- any_error _ ∧ _ => split; [done|]
  | |- _ => idtac
  end.

Ltac bookkeeping_now :=
  first
    [ assumption
    | by apply undecided_bookkeeping
    | apply finished_bookkeeping; [reflexivity|];
      unfold drawn, no_winner; simpl; intros [?|?]; try discriminate; by auto ].

(** Once the result is recorded, what is left of a handler is a signal, the
    inactivity check and the saving of the game. *)
Ltac closing_bookkeeping :=
  lazymatch goal with
  | |- hoare (eq _) (emit _ ≫= _) _ _ =>
      eapply (exact_close _ winner_bookkeeping);
      [ apply closing_steps_bookkeeping
      | state_simpl; bookkeeping_now
      | intros ? ? ?; drop_any_error; bookkeeping_leaf
      | intros ? ? ?; drop_any_error; bookkeeping_leaf ]
  end.

(** The end of [handleMove]: the terminal conditions are looked at, and the
    game is closed if one holds. *)
Lemma finish_check_bookkeeping (r : Room) :
  undecided r →
  hoare (eq r)
    (finished ← ChessServerRoom_isFinishCond;
     when finished (detached (ChessServerRoom_checkGameEnd cfg)))
    (λ _, winner_bookkeeping) (λ _, winner_bookkeeping).
Proof.
  intros Hu. pose proof Hu as (Hs & Hr & Hw & Hw').
  repeat first [closing_bookkeeping | exact_step].
  all: try (by apply undecided_bookkeeping).
  all: apply finished_bookkeeping; [reflexivity|].
  all: unfold drawn, no_winner; simpl; intros [?|?]; try discriminate; auto.
Qed.

Ltac finished_leaf :=
  try (split; [done|]);
  apply finished_bookkeeping; [reflexivity|];
  unfold drawn, no_winner; simpl; intros [?|?]; try discriminate; auto.

Lemma handleGiveUp_bookkeeping color :
  preserves winner_bookkeeping any_error (handleGiveUp cfg color).
Proof.
  apply hoare_pointwise. intros r Hr.
  unfold handleGiveUp, gameStatus. repeat first [closing_bookkeeping | exact_step].
  all: try done.
  all: finished_leaf.
Qed.

Lemma handleTimerOut_bookkeeping side :
  preserves winner_bookkeeping any_error (handleTimerOut cfg side).
Proof.
  apply hoare_pointwise. intros r Hr.
  unfold handleTimerOut. repeat first [closing_bookkeeping | exact_step].
  all: try done.
  all: finished_leaf.
Qed.

Lemma handleDisconnectTimeout_bookkeeping userID :
  preserves winner_bookkeeping any_error (ChessServerRoom_handleDisconnectTimeout userID).
Proof.
  apply hoare_pointwise. intros r Hr.
  unfold ChessServerRoom_handleDisconnectTimeout. repeat exact_step.
  all: try done.
  all: finished_leaf.
Qed.

Lemma handleMove_bookkeeping move color :
  preserves winner_bookkeeping any_error (handleMove cfg move color).
Proof.
  unfold handleMove. apply hoare_get_bind. intros r0 Hr0.
  destruct (decide (status (_gameState r0) = InProgress)) as [Hs|Hs].
  2: { rewrite (bool_decide_eq_true_2 _ Hs). by apply exact_throw. }
  rewrite bool_decide_eq_false_2 by (by intros H; apply H).
  destruct (bool_decide (Chess_turn (chess r0) ≠ color)); [by apply exact_throw|].
  destruct (Chess_move (chess r0) move) as [c'|]; [|by apply exact_throw].
  assert (undecided r0) as Hu.
  { apply bookkeeping_undecided; [done|]. unfold gameStatus. by rewrite Hs. }
  apply exact_modify.
  apply (exact_block _ undecided).
  - bookkeeping_walk.
  - bookkeeping_leaf.
  - intros e r Hr. split; [done|]. by apply undecided_bookkeeping.
  - intros _. apply hoare_pointwise. intros s Hs'.
    eapply hoare_conseq; [by apply finish_check_bookkeeping|done|done|done].
Qed.

Lemma run_callback_bookkeeping cb :
  preserves winner_bookkeeping any_error (run_callback cfg cb).
Proof.
  destruct cb as [|userID|side]; simpl.
  - bookkeeping_walk.
  - apply preserves_detached; [intros; bookkeeping_leaf|].
    apply handleDisconnectTimeout_bookkeeping.
  - apply handleTimerOut_bookkeeping.
Qed.

Lemma ChessServerRoom_startGame_undecided :
  preserves undecided any_error ChessServerRoom_startGame.
Proof. bookkeeping_walk. Qed.

Lemma ChessServerRoom_acceptConnection_bookkeeping so u :
  preserves winner_bookkeeping any_error (ChessServerRoom_acceptConnection so u).
Proof.
  unfold ChessServerRoom_acceptConnection.
  apply preserves_bind; [bookkeeping_walk|intros _].
  apply hoare_get_bind. intros r0 Hr0.
  apply (hoare_bind _ _ _ (λ _, winner_bookkeeping)); [|intros _; bookkeeping_walk].
  destruct (decide (status (_gameState r0) = NotStarted)) as [Hs|Hs].
  - assert (undecided r0) as Hu.
    { apply bookkeeping_undecided; [done|]. unfold gameStatus. by rewrite Hs. }
    eapply (hoare_conseq _ undecided _ _ (λ _, undecided) _
              (λ e r, any_error e ∧ undecided r)).
    + change (preserves undecided any_error
                (if bool_decide (status (_gameState r0) = NotStarted)
                    && bool_decide (2 ≤ numberOfConnectedMembers r0)
                 then host ← session_at (Some (hostID r0));
                      if connected (state (member host))
                      then ChessServerRoom_startGame else mret tt
                 else if bool_decide (status (_gameState r0) = InProgress)
                      then when (bool_decide (Some (uid u) = whitePlayerID r0)
                                 || bool_decide (Some (uid u) = blackPlayerID r0))
                                (s ← session_at (Some (uid u)); subscribeToEvents s)
                      else mret tt)).
      destruct (_ && _).
      * apply preserves_bind; [bookkeeping_walk|intros host].
        destruct (connected _); [apply ChessServerRoom_startGame_undecided|].
        apply preserves_ret.
      * bookkeeping_walk.
    + by intros r <-.
    + intros _ r Hr. by apply undecided_bookkeeping.
    + intros e r [_ Hr]. split; [done|]. by apply undecided_bookkeeping.
  - rewrite (bool_decide_eq_false_2 _ Hs). simpl.
    apply preserves_from; [|done].
    bookkeeping_walk.
Qed.

Lemma handle_bookkeeping op :
  preserves winner_bookkeeping any_error (handle cfg op).
Proof.
  destruct op; simpl.
  - apply ChessServerRoom_acceptConnection_bookkeeping.
  - bookkeeping_walk.
  - apply handleMove_bookkeeping.
  - apply preserves_detached; [intros; bookkeeping_leaf|].
    apply handleGiveUp_bookkeeping.
  - apply preserves_get; intros r0. apply preserves_when.
    apply preserves_bind; [|intros _; apply run_callback_bookkeeping].
    apply preserves_modify. intros; bookkeeping_leaf.
  - apply preserves_get; intros r0.
    destruct (sessions r0 !! userID ≫= disconnectTimer); [|apply preserves_ret].
    apply preserves_when.
    apply preserves_bind; [|intros _; apply run_callback_bookkeeping].
    apply preserves_modify. intros; bookkeeping_leaf.
  - apply preserves_get; intros r0.
    destruct (if bool_decide (side = White) then whiteTimer r0 else blackTimer r0);
      [|apply preserves_ret].
    apply preserves_when.
    apply preserves_bind; [|intros _; apply run_callback_bookkeeping].
    destruct (bool_decide (side = White)); apply preserves_modify;
      intros; bookkeeping_leaf.
  - apply preserves_modify. intros; bookkeeping_leaf.
Qed.

Lemma new_room_bookkeeping host rules id rnd1 rnd2 now1 now2 rc :
  winner_bookkeeping (ChessServerRoom_new cfg host rules id rnd1 rnd2 now1 now2 rc).
Proof. apply undecided_bookkeeping. by repeat split. Qed.

Lemma run_preserves (I : Room → Prop) (ops : list Op) :
  (∀ op, preserves I any_error (handle cfg op)) →
  ∀ r, I r → I (run cfg ops r).
Proof.
  intros H. induction ops as [|op ops IH]; intros r Hr; [done|].
  simpl. apply IH. unfold step. by apply (hoare_final _ _ _ _ _ (H op)).
Qed.

Lemma reachable_bookkeeping (r : Room) : reachable cfg r → winner_bookkeeping r.
Proof.
  intros (host & rules & id & rnd1 & rnd2 & now1 & now2 & rc & ops & ->).
  apply run_preserves; [apply handle_bookkeeping|apply new_room_bookkeeping].
Qed.

(** C10. A room is built with [winnerId] 0, and in a room whose game ended
    in a stalemate or a draw it is still 0 (and the game state names no
    winner): [getWinnerId] then looks up the session of user 0 and throws a
    TypeError unless there is one. *)
Theorem drawn_game_leaves_winnerId_zero (r : Room) :
  reachable cfg r →
  drawn (resolution (_gameState r)) →
  (∀ host rules id rnd1 rnd2 now1 now2 rc,
     winnerId (ChessServerRoom_new cfg host rules id rnd1 rnd2 now1 now2 rc) = Some 0%N)
  ∧ winnerId r = Some 0%N
  ∧ winnerID (_gameState r) = None
  ∧ (sessions r !! 0%N = None → getWinnerId r = (Throw TypeError, r))
  ∧ (∀ s, sessions r !! 0%N = Some s → getWinnerId r = (Ok (user (member s)), r)).
Proof.
  intros Hreach Hdrawn.
  destruct (reachable_bookkeeping r Hreach) as [_ H].
  destruct (H Hdrawn) as [HwID Hw].
  split; [done|]. split; [done|]. split; [done|].
  unfold getWinnerId, session_at. run_steps. rewrite Hw. simpl.
  split.
  - intros ->. by run_steps.
  - intros s ->. by run_steps.
Qed.

(** ** Both clocks exist while a game with clocks is in progress *)

Lemma clocks_ready_frame g (r r' : Room) :
  gameRules r' = gameRules r → gameStatus r' = gameStatus r →
  (is_Some (whiteTimer r) → is_Some (whiteTimer r')) →
  (is_Some (blackTimer r) → is_Some (blackTimer r')) →
  clocks_ready g r → clocks_ready g r'.
Proof.
  intros Hg Hs Hw Hb [H1 H2]. split; [by rewrite Hg|].
  rewrite Hs. intros H3 H4. destruct (H2 H3 H4). split; auto.
Qed.

Lemma clocks_ready_Finished g (r : Room) :
  clocks_ready g r → clocks_ready g (set_gameState (set_status Finished) r).
Proof. intros [H1 _]. by split. Qed.

Lemma clocks_ready_same_status g (r : Room) f :
  status (f (_gameState r)) = status (_gameState r) →
  clocks_ready g r → clocks_ready g (set_gameState f r).
Proof. intros Hf. by apply clocks_ready_frame. Qed.

Ltac ready_leaf :=
  cbv beta;
  first
    [ assumption
    | by apply clocks_ready_Finished
    | by apply clocks_ready_same_status
    | match goal with
      | H : clocks_ready ?g ?r |- clocks_ready ?g _ =>
          apply (clocks_ready_frame g r); [reflexivity|reflexivity| | |exact H]
      end;
      simpl; first [done | by rewrite fmap_is_Some | by intros _; eexists] ].

(** The status becomes InProgress and the clocks are made at once. *)
Lemma start_with_clocks_ready g (r0 : Room) :
  gameRules r0 = g →
  preserves (clocks_ready g) any_error
    (modify (set_gameState (set_status InProgress)) ≫= λ _,
     when (timer (gameRules r0))
       (modify (set_whiteTimer
                  (λ _, Some (PausableTimer_new (CbClock White)
                                                (ms (initialTime (gameRules r0)))))) ≫= λ _,
        modify (set_blackTimer
                  (λ _, Some (PausableTimer_new (CbClock Black)
                                                (ms (initialTime (gameRules r0)))))) ≫= λ _,
        whiteTimer_call (PausableTimer_start None))).
Proof.
  intros Hg. apply hoare_pointwise. intros s [Hs _].
  rewrite Hg. destruct (timer g) eqn:Htimer; repeat exact_step.
  all: split; [done|].
  all: intros _ Ht; try congruence.
  all: state_simpl; split; by eexists.
Qed.

Ltac ready_walk :=
  as_preserves; repeat preserves_step; try done; ready_leaf.

Lemma setUpGameBeforeStart_ready g :
  preserves (clocks_ready g) any_error ChessServerRoom_setUpGameBeforeStart.
Proof.
  unfold ChessServerRoom_setUpGameBeforeStart.
  apply preserves_bind; [ready_walk|intros _].
  apply preserves_get_known. intros r0 [Hg _].
  apply preserves_bind; [ready_walk|intros w].
  apply preserves_bind; [ready_walk|intros _].
  apply preserves_bind; [ready_walk|intros b].
  apply preserves_bind; [ready_walk|intros _].
  by apply start_with_clocks_ready.
Qed.

Ltac ready_walk_all :=
  as_preserves;
  repeat first
    [ lazymatch goal with
      | |- preserves _ _ ChessServerRoom_setUpGameBeforeStart =>
          apply setUpGameBeforeStart_ready
      end
    | preserves_step ];
  try done; ready_leaf.

Lemma run_callback_ready g cb :
  preserves (clocks_ready g) any_error (run_callback cfg cb).
Proof. ready_walk_all. Qed.

Lemma handle_ready g op : preserves (clocks_ready g) any_error (handle cfg op).
Proof.
  destruct op; simpl.
  - ready_walk_all.
  - ready_walk_all.
  - ready_walk_all.
  - ready_walk_all.
  - apply preserves_get; intros r0. apply preserves_when.
    apply preserves_bind; [|intros _; apply run_callback_ready].
    apply preserves_modify. intros; ready_leaf.
  - apply preserves_get; intros r0.
    destruct (sessions r0 !! userID ≫= disconnectTimer); [|apply preserves_ret].
    apply preserves_when.
    apply preserves_bind; [|intros _; apply run_callback_ready].
    apply preserves_modify. intros; ready_leaf.
  - apply preserves_get; intros r0.
    destruct (if bool_decide (side = White) then whiteTimer r0 else blackTimer r0);
      [|apply preserves_ret].
    apply preserves_when.
    apply preserves_bind; [|intros _; apply run_callback_ready].
    destruct (bool_decide (side = White)); apply preserves_modify;
      intros; ready_leaf.
  - apply preserves_modify. intros; ready_leaf.
Qed.

Lemma reachable_ready (r : Room) :
  reachable cfg r → clocks_ready (gameRules r) r.
Proof.
  intros (host & rules & id & rnd1 & rnd2 & now1 & now2 & rc & ops & ->).
  assert (clocks_ready rules
            (run cfg ops (ChessServerRoom_new cfg host rules id rnd1 rnd2 now1 now2 rc)))
    as H.
  { apply run_preserves; [apply handle_ready|]. by split. }
  by rewrite (proj1 H).
Qed.

(** ** The end of the game by the rules *)

Lemma same_result_frame (s r r' : Room) :
  _gameState r' = _gameState r → winnerId r' = winnerId r →
  same_result s r → same_result s r'.
Proof. unfold same_result. by intros -> ->. Qed.

Ltac same_result_walk :=
  as_preserves; repeat preserves_step; try done; cbv beta;
  match goal with
  | H : same_result ?s ?r |- same_result ?s _ =>
      apply (same_result_frame s r); [reflexivity|reflexivity|exact H]
  end.

Lemma closing_steps_same_result s sig :
  preserves (same_result s) any_error
    (emit sig ≫= λ _, checkInactivity cfg ≫= λ _, ChessServerRoom_saveGame).
Proof. same_result_walk. Qed.

(** A finished game is saved without an exception. *)
Lemma closing_steps_return sig (s : Room) (Q : unit → Room → Prop) E :
  status (_gameState s) = Finished →
  (∀ r, same_result s r → Q tt r) →
  hoare (eq s)
    (emit sig ≫= λ _, checkInactivity cfg ≫= λ _, ChessServerRoom_saveGame)
    Q E.
Proof.
  intros Hs HQ. repeat exact_step.
  all: by apply HQ.
Qed.

Ltac closing_result :=
  lazymatch goal with
  | |- hoare (eq _) (emit _ ≫= _) _ _ =>
      apply closing_steps_return; [reflexivity|]
  end.

(** C4. In a room that a new room can come to, let a move be accepted: the
    game is in progress, it is the mover's turn and the oracle takes the
    move; [handleMove] then returns.  If the oracle then reports checkmate, the game is Finished with
    resolution Checkmate and the winner is the player of the colour opposite
    to the oracle's turn after the move, which is the mover where the oracle
    alternates turns.  If it reports stalemate, or else a draw, the game is
    Finished with that resolution and no winner is set. *)
Theorem terminal_move_resolves (move : Move) (color : Color) (r : Room) (c' : Chess) :
  reachable cfg r →
  status (_gameState r) = InProgress →
  Chess_turn (chess r) = color →
  Chess_move (chess r) move = Some c' →
  let r' := (handleMove cfg move color r).2 in
  (handleMove cfg move color r).1 = Ok tt
  ∧ (Chess_isCheckmate c' = true →
       status (_gameState r') = Finished
       ∧ resolution (_gameState r') = Some Checkmate
       ∧ winnerID (_gameState r') =
           (if bool_decide (Chess_turn c' = White)
            then blackPlayerID r else whitePlayerID r)
       ∧ (Chess_turn c' = swapColor color →
          winnerID (_gameState r') =
            match color with
            | White => whitePlayerID r
            | Black => blackPlayerID r
            end))
  ∧ (Chess_isCheckmate c' = false → Chess_isStalemate c' = true →
       status (_gameState r') = Finished
       ∧ resolution (_gameState r') = Some Stalemate
       ∧ winnerID (_gameState r') = None)
  ∧ (Chess_isCheckmate c' = false → Chess_isStalemate c' = false →
     Chess_isDraw c' = true →
       status (_gameState r') = Finished
       ∧ resolution (_gameState r') = Some Draw
       ∧ winnerID (_gameState r') = None).
Proof.
  intros Hreach Hs Hturn Hmove r'.
  assert (timer (gameRules r) = true →
          is_Some (whiteTimer r) ∧ is_Some (blackTimer r)) as Hclocks.
  { destruct (reachable_ready r Hreach) as [_ H]. apply H.
    unfold gameStatus. by rewrite Hs. }
  assert (winnerID (_gameState r) = None) as Hnone.
  { destruct (reachable_bookkeeping r Hreach) as [H _].
    unfold gameStatus in H. rewrite Hs in H. by destruct H as (_ & ? & _). }
  set (Q := λ x : Room,
    (Chess_isCheckmate c' = true →
       status (_gameState x) = Finished
       ∧ resolution (_gameState x) = Some Checkmate
       ∧ winnerID (_gameState x) =
           (if bool_decide (Chess_turn c' = White)
            then blackPlayerID r else whitePlayerID r))
    ∧ (Chess_isCheckmate c' = false → Chess_isStalemate c' = true →
       status (_gameState x) = Finished
       ∧ resolution (_gameState x) = Some Stalemate
       ∧ winnerID (_gameState x) = None)
    ∧ (Chess_isCheckmate c' = false → Chess_isStalemate c' = false →
       Chess_isDraw c' = true →
       status (_gameState x) = Finished
       ∧ resolution (_gameState x) = Some Draw
       ∧ winnerID (_gameState x) = None)).
  cut (hoare (eq r) (handleMove cfg move color) (λ _, Q) (λ _ _, False)).
  { intros H. pose proof (hoare_outcome _ _ _ _ r H eq_refl) as H'.
    fold r' in H'. destruct (handleMove cfg move color r).1 as [[]|e]; [|done].
    destruct H' as (H1 & H2 & H3). split; [done|]. split; [|done].
    intros Hmate. destruct (H1 Hmate) as (? & ? & Hw).
    split; [done|]. split; [done|]. split; [done|].
    intros Hturn'. rewrite Hw, Hturn'. by destruct color. }
  assert (∀ x, Q x → ∀ y, same_result x y → Q y) as HQ.
  { intros x Hx y [Hy _]. unfold Q. by rewrite Hy. }
  assert (∀ x, Q x → ∀ y, same_result x y → Q y) as HQ'.
  { intros x Hx y Hy. by apply (HQ x). }
  destruct (timer (gameRules r)) eqn:Htimer;
    [destruct Hclocks as [[w Hw] [b Hb]]; [done|]|].
  all: unfold handleMove; repeat first [closing_result | exact_step].
  all: try (apply HQ').
  all: unfold Q; state_simpl.
  all: repeat split; intros; try congruence.
  all: repeat case_bool_decide; congruence.
Qed.

(** ** The two clocks *)

Lemma isGoing_elapse d t : isGoing (PausableTimer_elapse d t) = isGoing t.
Proof. unfold PausableTimer_elapse. by destruct (isGoing t) eqn:E. Qed.

Lemma clock_going_fmap (f : PausableTimer → PausableTimer) (t : option PausableTimer) :
  (∀ x, isGoing (f x) = true → isGoing x = true) →
  clock_going (f <$> t) = true → clock_going t = true.
Proof. intros H. destruct t as [x|]; [apply H|done]. Qed.

(** A change that starts neither clock keeps them exclusive. *)
Lemma clocks_exclusive_mono (r r' : Room) :
  (clock_going (whiteTimer r') = true → clock_going (whiteTimer r) = true) →
  (clock_going (blackTimer r') = true → clock_going (blackTimer r) = true) →
  clocks_exclusive r → clocks_exclusive r'.
Proof. unfold clocks_exclusive. tauto. Qed.

Ltac clocks_leaf :=
  cbv beta;
  first
    [ assumption
    | match goal with
      | H : clocks_exclusive ?r |- clocks_exclusive _ =>
          apply (clocks_exclusive_mono r); [| |exact H]
      end;
      simpl;
      first [ done
            | apply clock_going_fmap; intros x; simpl;
              first [done | by rewrite isGoing_elapse] ] ].

(** The three calls by which [handleMove] hands the turn to White. *)
Lemma turn_to_White_exclusive d :
  preserves clocks_exclusive any_error
    (whiteTimer_call (PausableTimer_start None) ≫= λ _,
     blackTimer_call PausableTimer_pause ≫= λ _,
     blackTimer_call (PausableTimer_addTime d)).
Proof.
  apply hoare_pointwise. intros r Hr. repeat exact_step.
  all: try (split; [done|]).
  all: unfold clocks_exclusive, clock_going; state_simpl.
  all: repeat match goal with H : _ = None |- _ => rewrite H end.
  all: simpl; by intros [? ?].
Qed.

(** And to Black. *)
Lemma turn_to_Black_exclusive d :
  preserves clocks_exclusive any_error
    (blackTimer_call (PausableTimer_start None) ≫= λ _,
     whiteTimer_call PausableTimer_pause ≫= λ _,
     whiteTimer_call (PausableTimer_addTime d)).
Proof.
  apply hoare_pointwise. intros r Hr. repeat exact_step.
  all: try (split; [done|]).
  all: unfold clocks_exclusive, clock_going; state_simpl.
  all: repeat match goal with H : _ = None |- _ => rewrite H end.
  all: simpl; by intros [? ?].
Qed.

(** The clocks as [setUpGameBeforeStart] makes them. *)
Lemma new_clocks_exclusive d :
  preserves clocks_exclusive any_error
    (modify (set_whiteTimer (λ _, Some (PausableTimer_new (CbClock White) d))) ≫= λ _,
     modify (set_blackTimer (λ _, Some (PausableTimer_new (CbClock Black) d))) ≫= λ _,
     whiteTimer_call (PausableTimer_start None)).
Proof.
  apply hoare_pointwise. intros r Hr. repeat exact_step.
  all: try (split; [done|]).
  all: unfold clocks_exclusive, clock_going; state_simpl.
  all: simpl; by intros [? ?].
Qed.

Ltac clocks_block :=
  lazymatch goal with
  | |- preserves _ _ (whiteTimer_call (PausableTimer_start None) ≫= _) =>
      apply turn_to_White_exclusive
  | |- preserves _ _ (blackTimer_call (PausableTimer_start None) ≫= _) =>
      apply turn_to_Black_exclusive
  | |- preserves _ _ (modify (set_whiteTimer (λ _, Some (PausableTimer_new _ _))) ≫= _) =>
      apply new_clocks_exclusive
  end.

Ltac clocks_walk :=
  as_preserves;
  repeat first [clocks_block | preserves_step];
  try done; clocks_leaf.

Lemma run_callback_clocks cb :
  preserves clocks_exclusive any_error (run_callback cfg cb).
Proof. clocks_walk. Qed.

Lemma handle_clocks op : preserves clocks_exclusive any_error (handle cfg op).
Proof.
  destruct op; simpl.
  - clocks_walk.
  - clocks_walk.
  - clocks_walk.
  - clocks_walk.
  - apply preserves_get; intros r0. apply preserves_when.
    apply preserves_bind; [|intros _; apply run_callback_clocks].
    apply preserves_modify. intros; clocks_leaf.
  - apply preserves_get; intros r0.
    destruct (sessions r0 !! userID ≫= disconnectTimer); [|apply preserves_ret].
    apply preserves_when.
    apply preserves_bind; [|intros _; apply run_callback_clocks].
    apply preserves_modify. intros; clocks_leaf.
  - apply preserves_get; intros r0.
    destruct (if bool_decide (side = White) then whiteTimer r0 else blackTimer r0);
      [|apply preserves_ret].
    apply preserves_when.
    apply preserves_bind; [|intros _; apply run_callback_clocks].
    destruct (bool_decide (side = White)); apply preserves_modify;
      intros; clocks_leaf.
  - apply preserves_modify. intros; clocks_leaf.
Qed.

Lemma new_room_clocks host rules id rnd1 rnd2 now1 now2 rc :
  clocks_exclusive (ChessServerRoom_new cfg host rules id rnd1 rnd2 now1 now2 rc).
Proof. by intros [? ?]. Qed.

Lemma game_start_clocks (r : Room) :
  timer (gameRules r) = true →
  hoare (eq r) ChessServerRoom_setUpGameBeforeStart
    (λ _ x, clock_going (whiteTimer x) = true ∧ clock_going (blackTimer x) = false)
    (λ _ _, True).
Proof.
  intros Htimer. repeat exact_step.
  all: done.
Qed.

(** C8. In every room that a new room can come to — so in particular while
    a game with clocks is in progress — the white and the black clock are
    never both counting down.  Everything that can happen to a room keeps it
    so, accepted moves among them, and the start of a game with clocks
    leaves White's clock running and Black's not. *)
Theorem clocks_mutually_exclusive :
  (∀ r, reachable cfg r →
        ¬ (clock_going (whiteTimer r) = true ∧ clock_going (blackTimer r) = true))
  ∧ (∀ r op, clocks_exclusive r → clocks_exclusive (step cfg r op))
  ∧ (∀ r, timer (gameRules r) = true →
          (ChessServerRoom_setUpGameBeforeStart r).1 = Ok tt →
          let r' := (ChessServerRoom_setUpGameBeforeStart r).2 in
          clock_going (whiteTimer r') = true ∧ clock_going (blackTimer r') = false).
Proof.
  assert (∀ r op, clocks_exclusive r → clocks_exclusive (step cfg r op)) as Hstep.
  { intros r op Hr. unfold step.
    by apply (hoare_final _ _ _ _ _ (handle_clocks op)). }
  split; [|split; [done|]].
  - intros r (host & rules & id & rnd1 & rnd2 & now1 & now2 & rc & ops & ->).
    apply (run_preserves clocks_exclusive); [apply handle_clocks|].
    apply new_room_clocks.
  - intros r Htimer Hok r'.
    pose proof (hoare_outcome _ _ _ _ r (game_start_clocks r Htimer) eq_refl) as H.
    fold r' in H. by rewrite Hok in H.
Qed.

(** ** What a method leaves in the trace *)

Lemma log_log (es1 es2 : list Effect) (r : Room) :
  log es2 (log es1 r) = log (es1 ++ es2) r.
Proof. unfold log. simpl. by rewrite app_assoc. Qed.

Lemma db_rows_log (es : list Effect) (r : Room) :
  db_rows (log es r) = db_rows r ++ omap Effect_row es.
Proof. unfold db_rows. simpl. by rewrite omap_app. Qed.

Lemma broadcast_run (ev : ServerEvent) (r : Room) :
  broadcast ev r
  = (Ok tt, log (omap (λ e, (λ so, SocketEmit so ev) <$> socket e.2)
                      (Object_entries (sessions r))) r).
Proof. done. Qed.

Lemma no_rows_sent {X : Type} (f : X → option Socket) (ev : ServerEvent) (l : list X) :
  omap Effect_row (omap (λ e, (λ so, SocketEmit so ev) <$> f e) l) = [].
Proof.
  induction l as [|x l IH]; [done|]. simpl.
  destruct (f x); simpl; done.
Qed.

Lemma unhandled_log (es : list Effect) (r : Room) :
  unhandled (log es r) = unhandled r ++ omap Effect_error es.
Proof. unfold unhandled. simpl. by rewrite omap_app. Qed.

Lemma messages_rows (es : list Effect) : Forall message es → omap Effect_row es = [].
Proof. induction 1 as [|[] ? ? ? IH]; simpl; done. Qed.

Lemma messages_errors (es : list Effect) :
  Forall message es → omap Effect_error es = [].
Proof. induction 1 as [|[] ? ? ? IH]; simpl; done. Qed.

Lemma messages_among {X : Type} (f : X → option Effect) (l : list X) :
  (∀ x e, f x = Some e → message e) → Forall message (omap f l).
Proof.
  intros H. induction l as [|x l IH]; [constructor|]. simpl.
  destruct (f x) as [e|] eqn:E; [|done]. constructor; [by apply (H x)|done].
Qed.

Lemma messages_sent {X : Type} (f : X → option Socket) (ev : ServerEvent) (l : list X) :
  Forall message (omap (λ e, (λ so, SocketEmit so ev) <$> f e) l).
Proof. apply messages_among. intros x e. by destruct (f x); intros [= <-]. Qed.

Lemma messages_sent_except (userID : N) (ev : ServerEvent)
    (l : list (N * MemberSession)) :
  Forall message
    (omap (λ e, if bool_decide (uid (user (member e.2)) ≠ userID)
                then (λ so, SocketEmit so ev) <$> socket e.2
                else None) l).
Proof.
  apply messages_among. intros x e.
  destruct (bool_decide _); [|done]. by destruct (socket x.2); intros [= <-].
Qed.

Ltac messages :=
  repeat first
    [ assumption | exact I | apply Forall_nil_2 | apply Forall_cons_2
    | apply Forall_app_2 | apply messages_sent | apply messages_sent_except ].

(** ** Saving before the end *)

(** X1. [saveGame] refuses a game that is not finished: the method of the
    base class throws the error "Game is not finished yet", the override of
    the chess room passes it on before it has built a row, and the room is
    as it was. *)
Theorem saveGame_before_the_end_throws (r : Room) :
  status (_gameState r) ≠ Finished →
  ServerRoom_saveGame r = (Throw (PlainError "Game is not finished yet"), r)
  ∧ ChessServerRoom_saveGame r = (Throw (PlainError "Game is not finished yet"), r).
Proof.
  intros Hs.
  assert (ServerRoom_saveGame r
          = (Throw (PlainError "Game is not finished yet"), r)) as H.
  { unfold ServerRoom_saveGame. run_steps. by rewrite (bool_decide_eq_true_2 _ Hs). }
  split; [done|].
  unfold ChessServerRoom_saveGame. by rewrite run_bind, H.
Qed.

(** The row that is written for a finished game. *)
Lemma ChessServerRoom_saveGame_row (r : Room) :
  status (_gameState r) = Finished →
  ∃ row, ChessServerRoom_saveGame r = (Ok tt, log [DbCreate row] r)
         ∧ pg_resolution row = resolution (_gameState r)
         ∧ pg_winner row =
             (if bool_decide (winnerID (_gameState r) = whitePlayerID r)
              then Some White
              else if bool_decide (winnerID (_gameState r) = blackPlayerID r)
                   then Some Black else None).
Proof.
  intros Hs. unfold ChessServerRoom_saveGame.
  rewrite run_bind, (ServerRoom_saveGame_finished r Hs). run_steps.
  by eexists.
Qed.

Lemma checkInactivity_Finished (r : Room) :
  gameStatus r = Finished →
  checkInactivity cfg r
  = (Ok tt, log (if bool_decide (numberOfConnectedMembers r = 0)
                 then [Signal destroy] else []) r).
Proof.
  intros Hs. unfold checkInactivity, emit. run_steps. rewrite Hs.
  destruct (bool_decide (numberOfConnectedMembers r = 0)).
  - rewrite bool_decide_eq_false_2 by done.
    rewrite bool_decide_eq_true_2 by done. by run_steps.
  - run_steps. unfold log. simpl. rewrite app_nil_r. by destruct r.
Qed.

(** The last steps of a handler that has ended the game: a signal, the
    inactivity check, the saving. *)
Lemma closing_steps_run (sig : RoomSignal) (s : Room) :
  status (_gameState s) = Finished →
  ∃ es row,
    (emit sig ≫= λ _, checkInactivity cfg ≫= λ _, ChessServerRoom_saveGame) s
    = (Ok tt, log (es ++ [DbCreate row]) s)
    ∧ Forall message es
    ∧ pg_resolution row = resolution (_gameState s)
    ∧ pg_winner row =
        (if bool_decide (winnerID (_gameState s) = whitePlayerID s)
         then Some White
         else if bool_decide (winnerID (_gameState s) = blackPlayerID s)
              then Some Black else None).
Proof.
  intros Hs. unfold emit. run_steps.
  rewrite checkInactivity_Finished by done. run_steps.
  match goal with
  | |- context [ChessServerRoom_saveGame ?x] =>
      destruct (ChessServerRoom_saveGame_row x Hs) as (row & -> & Hres & Hwin)
  end.
  eexists _, row. rewrite !log_log, (app_assoc _ _ [DbCreate row]).
  split; [reflexivity|].
  split; [destruct (bool_decide _); messages|].
  exact (conj Hres Hwin).
Qed.


(** ** Resignation *)

Lemma clock_going_pause (t : option PausableTimer) :
  clock_going (PausableTimer_pause <$> t) = false.
Proof. by destruct t. Qed.

Lemma stopped_sessions_quiet (m : gmap N MemberSession) k s t :
  (stop_disconnectTimer <$> m) !! k = Some s → disconnectTimer s = Some t →
  isGoing t = false.
Proof.
  intros Hk Ht. rewrite lookup_fmap in Hk.
  destruct (m !! k) as [s0|]; [|done].
  injection Hk as <-. simpl in Ht.
  destruct (disconnectTimer s0); [|done]. by injection Ht as <-.
Qed.

Lemma ended_quiet res w es (r : Room) : timers_quiet (log es (ended res w r)).
Proof.
  split; [apply clock_going_pause|]. split; [apply clock_going_pause|].
  intros k s t. apply stopped_sessions_quiet.
Qed.

Lemma handleGiveUp_idle (color : Color) (r : Room) :
  gameStatus r ≠ InProgress → handleGiveUp cfg color r = (Ok tt, r).
Proof.
  intros H. unfold handleGiveUp. run_steps. by rewrite (bool_decide_eq_true_2 _ H).
Qed.

Lemma handleGiveUp_run (color : Color) (r : Room) :
  gameStatus r = InProgress →
  ∃ es row,
    handleGiveUp cfg color r
    = (Ok tt, log (es ++ [DbCreate row]) (ended GiveUp (opponent_of color r) r))
    ∧ Forall message es
    ∧ pg_resolution row = Some GiveUp
    ∧ pg_winner row =
        (if bool_decide (opponent_of color r = whitePlayerID r) then Some White
         else if bool_decide (opponent_of color r = blackPlayerID r) then Some Black
              else None).
Proof.
  intros Hs. unfold handleGiveUp, pauseClocks, stopDisconnectTimers.
  run_steps. rewrite bool_decide_eq_false_2 by (intros H; by apply H).
  run_steps. state_simpl.
  destruct (timer (gameRules r)); rewrite broadcast_run; cbv beta iota.
  all: match goal with
       | |- context [(emit ?sig ≫= _) ?x] =>
           destruct (closing_steps_run sig x eq_refl) as (es & row & -> & Hes & Hres & Hwin)
       end.
  all: eexists _, row; rewrite log_log, (app_assoc _ _ [DbCreate row]).
  all: split; [by destruct color|].
  all: split; [messages|].
  all: split; [exact Hres|].
  all: rewrite Hwin; by destruct color.
Qed.

(** X2. A resignation during a game ends it: [handleGiveUp] returns, the
    status is Finished, the resolution GiveUp, the winner the player of the
    other colour; both clocks and every disconnect timer are halted, and one
    row goes to the database, with that resolution and, the two players
    being different users, that colour as winner.  The room's own
    [winnerId] is left as it was. *)
Theorem handleGiveUp_ends_game (color : Color) (r : Room) :
  gameStatus r = InProgress →
  let r' := (handleGiveUp cfg color r).2 in
  (handleGiveUp cfg color r).1 = Ok tt
  ∧ status (_gameState r') = Finished
  ∧ resolution (_gameState r') = Some GiveUp
  ∧ winnerID (_gameState r') = opponent_of color r
  ∧ winnerId r' = winnerId r
  ∧ timers_quiet r'
  ∧ ∃ row, db_rows r' = db_rows r ++ [row]
           ∧ pg_resolution row = Some GiveUp
           ∧ (whitePlayerID r ≠ blackPlayerID r →
              pg_winner row = Some (swapColor color)).
Proof.
  intros Hs r'.
  destruct (handleGiveUp_run color r Hs) as (es & row & Hrun & Hes%messages_rows & Hres & Hwin).
  unfold r'. rewrite Hrun. cbn [fst snd].
  split; [done|]. split; [done|]. split; [done|]. split; [done|]. split; [done|].
  split; [apply ended_quiet|].
  exists row. split; [|split; [done|]].
  - rewrite db_rows_log, omap_app, Hes. done.
  - intros Hne. rewrite Hwin. destruct color; cbn [opponent_of].
    + rewrite bool_decide_eq_false_2 by congruence.
      by rewrite bool_decide_eq_true_2.
    + by rewrite bool_decide_eq_true_2.
Qed.

(** X3. Outside a game in progress a resignation is ignored: [handleGiveUp]
    returns and the room is as it was.  So of two resignations in a row the
    second changes nothing, whoever sends it. *)
Theorem resignation_outside_a_game_is_ignored (color : Color) (r : Room) :
  (gameStatus r ≠ InProgress → handleGiveUp cfg color r = (Ok tt, r))
  ∧ (∀ c, step cfg (step cfg r (Resign color)) (Resign c)
          = step cfg r (Resign color)).
Proof.
  split; [apply handleGiveUp_idle|].
  intros c. unfold step, handle, detached.
  destruct (decide (gameStatus r = InProgress)) as [Hs|Hs].
  - destruct (handleGiveUp_run color r Hs) as (es & row & -> & _).
    cbn [snd]. by rewrite handleGiveUp_idle.
  - rewrite (handleGiveUp_idle color r Hs). cbn [snd].
    by rewrite (handleGiveUp_idle c r Hs).
Qed.

(** ** A clock runs out *)

Lemma set_whiteTimer_known (f : PausableTimer → PausableTimer) w (r : Room) :
  whiteTimer r = Some w →
  set_whiteTimer (λ _, Some (f w)) r = set_whiteTimer (fmap f) r.
Proof. intros H. unfold set_whiteTimer. by rewrite H. Qed.

Lemma set_blackTimer_known (f : PausableTimer → PausableTimer) b (r : Room) :
  blackTimer r = Some b →
  set_blackTimer (λ _, Some (f b)) r = set_blackTimer (fmap f) r.
Proof. intros H. unfold set_blackTimer. by rewrite H. Qed.

Lemma handleTimerOut_run (side : Color) (r : Room) (w b : PausableTimer) :
  whiteTimer r = Some w → blackTimer r = Some b →
  ∃ es row,
    handleTimerOut cfg side r
    = (Ok tt, log (es ++ [DbCreate row]) (ended OutOfTime (opponent_of side r) r))
    ∧ Forall message es
    ∧ pg_resolution row = Some OutOfTime
    ∧ pg_winner row =
        (if bool_decide (opponent_of side r = whitePlayerID r) then Some White
         else if bool_decide (opponent_of side r = blackPlayerID r) then Some Black
              else None).
Proof.
  intros Hw Hb.
  unfold handleTimerOut, whiteTimer_call, blackTimer_call, stopDisconnectTimers.
  repeat first [run_step | progress state_simpl | rewrite Hw | rewrite Hb].
  rewrite (set_whiteTimer_known PausableTimer_stop w r Hw).
  rewrite (set_blackTimer_known PausableTimer_stop b
             (set_whiteTimer (fmap PausableTimer_stop) r) Hb).
  rewrite broadcast_run; cbv beta iota.
  match goal with
  | |- context [(emit ?sig ≫= _) ?x] =>
      destruct (closing_steps_run sig x eq_refl) as (es & row & -> & Hes & Hres & Hwin)
  end.
  eexists _, row; rewrite log_log, (app_assoc _ _ [DbCreate row]).
  split; [by destruct side|].
  split; [messages|].
  split; [exact Hres|].
  rewrite Hwin; by destruct side.
Qed.

(** X4. When a clock has run out, [handleTimerOut] ends the game, whatever
    its status was: it returns, the status is Finished, the resolution
    OutOfTime, the winner the player of the other colour than the side whose
    clock it was; both clocks and every disconnect timer are halted, and one
    row goes to the database.  The room's own [winnerId] is left as it
    was. *)
Theorem handleTimerOut_ends_game (side : Color) (r : Room) (w b : PausableTimer) :
  whiteTimer r = Some w → blackTimer r = Some b →
  let r' := (handleTimerOut cfg side r).2 in
  (handleTimerOut cfg side r).1 = Ok tt
  ∧ status (_gameState r') = Finished
  ∧ resolution (_gameState r') = Some OutOfTime
  ∧ winnerID (_gameState r') = opponent_of side r
  ∧ winnerId r' = winnerId r
  ∧ timers_quiet r'
  ∧ ∃ row, db_rows r' = db_rows r ++ [row]
           ∧ pg_resolution row = Some OutOfTime
           ∧ (whitePlayerID r ≠ blackPlayerID r →
              pg_winner row = Some (swapColor side)).
Proof.
  intros Hw Hb r'.
  destruct (handleTimerOut_run side r w b Hw Hb)
    as (es & row & Hrun & Hes%messages_rows & Hres & Hwin).
  unfold r'. rewrite Hrun. cbn [fst snd].
  split; [done|]. split; [done|]. split; [done|]. split; [done|]. split; [done|].
  split; [apply ended_quiet|].
  exists row. split; [|split; [done|]].
  - rewrite db_rows_log, omap_app, Hes. done.
  - intros Hne. rewrite Hwin. destruct side; cbn [opponent_of].
    + rewrite bool_decide_eq_false_2 by congruence.
      by rewrite bool_decide_eq_true_2.
    + by rewrite bool_decide_eq_true_2.
Qed.

(** X5. In a room without clocks [handleTimerOut] fails at its first step:
    a TypeError, and the room is as it was.  Where only Black's clock is
    missing, White's has been stopped by then and nothing else is
    changed. *)
Theorem handleTimerOut_without_clocks (side : Color) (r : Room) :
  (whiteTimer r = None → handleTimerOut cfg side r = (Throw TypeError, r))
  ∧ (∀ w, whiteTimer r = Some w → blackTimer r = None →
          handleTimerOut cfg side r
          = (Throw TypeError,
             set_whiteTimer (λ _, Some (PausableTimer_stop w)) r)).
Proof.
  unfold handleTimerOut, whiteTimer_call, blackTimer_call.
  split.
  - intros Hw. run_steps. rewrite Hw. by run_steps.
  - intros w Hw Hb.
    repeat first [run_step | progress state_simpl | rewrite Hw | rewrite Hb].
    done.
Qed.


(** ** A connection is lost *)

Lemma checkInactivity_run (r : Room) :
  checkInactivity cfg r
  = (Ok tt,
     if bool_decide (numberOfConnectedMembers r = 0)
     then if bool_decide (gameStatus r = NotStarted)
          then set_inactivityTimer
                 (PausableTimer_start (Some (InactivityTimeout cfg))) r
          else if bool_decide (gameStatus r = Finished)
               then log [Signal destroy] r else r
     else r).
Proof.
  unfold checkInactivity, emit. run_steps.
  repeat (destruct (bool_decide _)); by run_steps.
Qed.

(** The inactivity check looks at the sessions and the status and touches
    neither, nor the clocks. *)
Lemma checkInactivity_frame (r : Room) :
  let r' := (checkInactivity cfg r).2 in
  (checkInactivity cfg r).1 = Ok tt
  ∧ sessions r' = sessions r ∧ result_view r' = result_view r
  ∧ clock_view r' = clock_view r ∧ db_rows r' = db_rows r.
Proof.
  rewrite checkInactivity_run. cbn [fst snd].
  repeat (destruct (bool_decide _)); repeat split.
  by rewrite db_rows_log, app_nil_r.
Qed.

(** X6. A disconnect event for a user who has no session makes
    [handleDisconnect] fail on its first line with a TypeError; the room is
    as it was. *)
Theorem handleDisconnect_unknown_user (userID : N) (reason : string) (r : Room) :
  sessions r !! userID = None →
  handleDisconnect cfg userID reason r = (Throw TypeError, r).
Proof.
  intros H. unfold handleDisconnect, session_at. run_steps.
  simpl. rewrite H. by run_steps.
Qed.

Lemma handleDisconnect_spectator_run (userID : N) (reason : string) (r : Room)
    (s : MemberSession) :
  sessions r !! userID = Some s → isPlayer (state (member s)) = false →
  ∃ es, handleDisconnect cfg userID reason r
        = checkInactivity cfg (log es (set_sessions (delete userID) r))
        ∧ Forall message es.
Proof.
  intros Hk Hp. unfold handleDisconnect, emit.
  run_steps. rewrite Hp. run_steps. rewrite broadcast_run. run_steps.
  rewrite log_log. eexists. split; [reflexivity|].
  messages.
Qed.


(** X7. When a member who is not a player loses the connection, the
    session is deleted: [handleDisconnect] returns, the user is no longer
    present, the other sessions are as they were, and so are the game, its
    result, the clocks and the rows written. *)
Theorem spectator_disconnect_removes_session (userID : N) (reason : string)
    (r : Room) (s : MemberSession) :
  sessions r !! userID = Some s → isPlayer (state (member s)) = false →
  let r' := (handleDisconnect cfg userID reason r).2 in
  (handleDisconnect cfg userID reason r).1 = Ok tt
  ∧ sessions r' = delete userID (sessions r)
  ∧ isUserPresent r' userID = false
  ∧ result_view r' = result_view r
  ∧ clock_view r' = clock_view r
  ∧ db_rows r' = db_rows r.
Proof.
  intros Hk Hp r'.
  destruct (handleDisconnect_spectator_run userID reason r s Hk Hp) as (es & Hrun & Hes%messages_rows).
  unfold r'. rewrite Hrun.
  destruct (checkInactivity_frame (log es (set_sessions (delete userID) r)))
    as (-> & Hs & -> & -> & ->).
  split; [done|]. split; [done|].
  split; [|split; [done|split; [done|]]].
  - unfold isUserPresent. rewrite Hs. simpl. rewrite lookup_delete_eq.
    apply bool_decide_eq_false_2. by intros [? ?].
  - rewrite db_rows_log, Hes. apply app_nil_r.
Qed.

Lemma alter_known {V : Type} (f : V → V) (k : N) (v : V) (m : gmap N V) :
  m !! k = Some v → alter f k m = <[k := f v]> m.
Proof.
  intros H. apply map_eq. intros i. destruct (decide (k = i)) as [<-|Hne].
  - by rewrite lookup_alter_eq, lookup_insert_eq, H.
  - by rewrite lookup_alter_ne, lookup_insert_ne.
Qed.

Lemma handleDisconnect_player_run (userID : N) (reason : string) (r : Room)
    (s : MemberSession) :
  sessions r !! userID = Some s → isPlayer (state (member s)) = true →
  ∃ es r1,
    handleDisconnect cfg userID reason r = checkInactivity cfg r1
    ∧ trace r1 = trace r ++ es
    ∧ Forall message es
    ∧ result_view r1 = result_view r
    ∧ clock_view r1 = clock_view r
    ∧ inactivityTimer r1 = inactivityTimer r
    ∧ sessions r1
      = <[userID :=
            with_disconnectTimer
              (if bool_decide (gameStatus r = InProgress)
               then Some {| timeLeft := Some (DisconnectTimeout cfg);
                            isGoing := true;
                            callback := CbDisconnect userID |}
               else disconnectTimer s)
              (with_socket None (with_state (MemberState_connect false) s))]>
          (sessions r)
    ∧ fixed_view r1 = fixed_view r.
Proof.
  intros Hk Hp. unfold handleDisconnect, emit, update_session.
  run_steps. rewrite Hp. run_steps.
  unfold session_at. run_steps. state_simpl.
  cbn [mbind option_bind]. rewrite lookup_alter_eq, Hk.
  cbn [fmap option_fmap option_map]. run_steps. rewrite broadcast_run. run_steps.
  change (gameStatus (log _ (set_sessions _ r))) with (gameStatus r).
  destruct (bool_decide (gameStatus r = InProgress)); unfold when; run_steps.
  all: eexists _, _; split; [reflexivity|].
  all: state_simpl.
  all: split; [by rewrite <- app_assoc|].
  all: split; [messages|].
  all: split; [done|]. all: split; [done|]. all: split; [done|].
  all: split; [|done].
  - rewrite (alter_known _ _ _ _ Hk).
    rewrite (alter_known _ userID _ _ (lookup_insert_eq _ _ _)).
    by rewrite insert_insert_eq.
  - rewrite (alter_known _ _ _ _ Hk). by destruct s.
Qed.

(** X8. When a player loses the connection, the seat is kept:
    [handleDisconnect] returns, the session stays with its user, its colour
    and its join time, marked as not connected and without a socket.  While
    the game is in progress a disconnect timer is set going on it, for the
    configured time and bound to that user; otherwise the session gets no
    timer.  The other sessions, the game, the clocks and the rows written
    are as they were. *)
Theorem player_disconnect_keeps_the_seat (userID : N) (reason : string)
    (r : Room) (s : MemberSession) :
  sessions r !! userID = Some s → isPlayer (state (member s)) = true →
  let r' := (handleDisconnect cfg userID reason r).2 in
  (handleDisconnect cfg userID reason r).1 = Ok tt
  ∧ (∃ s', sessions r' !! userID = Some s'
           ∧ user (member s') = user (member s)
           ∧ state (member s') = MemberState_connect false (state (member s))
           ∧ socket s' = None
           ∧ joined s' = joined s
           ∧ disconnectTimer s' =
               if bool_decide (gameStatus r = InProgress)
               then Some {| timeLeft := Some (DisconnectTimeout cfg);
                            isGoing := true;
                            callback := CbDisconnect userID |}
               else disconnectTimer s)
  ∧ (∀ k, k ≠ userID → sessions r' !! k = sessions r !! k)
  ∧ isUserConnected r' userID = false
  ∧ result_view r' = result_view r
  ∧ clock_view r' = clock_view r
  ∧ db_rows r' = db_rows r.
Proof.
  intros Hk Hp r'.
  destruct (handleDisconnect_player_run userID reason r s Hk Hp)
    as (es & r1 & Hrun & Htrace & Hes%messages_rows & Hres & Hclk & _ & Hsess & _).
  unfold r'. rewrite Hrun.
  destruct (checkInactivity_frame r1) as (-> & Hs & -> & -> & ->).
  split; [done|]. rewrite Hs, Hsess.
  split; [eexists; split; [apply lookup_insert_eq|done]|].
  split; [by intros k Hne; rewrite lookup_insert_ne|].
  split; [|split; [done|split; [done|]]].
  - unfold isUserConnected. by rewrite Hs, Hsess, lookup_insert_eq.
  - unfold db_rows. by rewrite Htrace, omap_app, Hes, app_nil_r.
Qed.

(** ** A connection is admitted *)

Lemma stop_inactivityTimer_run (r : Room) :
  when (isGoing (inactivityTimer r)) (modify (set_inactivityTimer PausableTimer_stop)) r
  = (Ok tt, set_inactivityTimer PausableTimer_stop r).
Proof.
  destruct (isGoing (inactivityTimer r)) eqn:E; [done|].
  unfold when. run_steps. f_equal.
  destruct r as [? ? ? ? ? ? ? ? t ? ? ? ? ? ? ?]. simpl in *.
  unfold set_inactivityTimer. simpl. f_equal.
  destruct t. simpl in *. by subst.
Qed.

Lemma ServerRoom_acceptConnection_run (so : Socket) (u : User) (r : Room) :
  isUserConnected r (uid u) = false →
  ∃ es r1,
    ServerRoom_acceptConnection ChessServerRoom_gameState so u r = (Ok tt, r1)
    ∧ trace r1 = trace r ++ es
    ∧ Forall message es
    ∧ result_view r1 = result_view r
    ∧ clock_view r1 = clock_view r
    ∧ wallClock r1 = wallClock r
    ∧ inactivityTimer r1 = PausableTimer_stop (inactivityTimer r)
    ∧ sessions r1
      = <[uid u :=
            match sessions r !! uid u with
            | Some s =>
                with_disconnectTimer None
                  (with_state (MemberState_connect true) (with_socket (Some so) s))
            | None =>
                {| member := {| user := u;
                                state := {| connected := true;
                                            isPlayer := false;
                                            color := None |} |};
                   socket := Some so;
                   joined := wallClock r;
                   disconnectTimer := None |}
            end]>
          (sessions r)
    ∧ fixed_view r1 = fixed_view r.
Proof.
  intros Hc. unfold ServerRoom_acceptConnection.
  run_steps. rewrite Hc. rewrite run_bind, stop_inactivityTimer_run. cbv beta iota.
  unfold isUserPresent, update_session, socket_emit, socket_on, broadcastExcept,
    session_at.
  destruct (sessions r !! uid u) as [s|] eqn:Hk.
  - rewrite bool_decide_eq_true_2 by eauto.
    run_steps. state_simpl. cbn [mbind option_bind].
    rewrite lookup_alter_eq, Hk. cbn [fmap option_fmap option_map]. run_steps.
    state_simpl. cbn [mbind option_bind].
    rewrite lookup_alter_eq, Hk. cbn [fmap option_fmap option_map]. run_steps.
    change (disconnectTimer (with_state _ (with_socket _ s)))
      with (disconnectTimer s).
    destruct (disconnectTimer s) as [t|] eqn:Ht.
    + rewrite bool_decide_eq_true_2 by eauto. unfold when. run_steps.
      eexists _, _. split; [reflexivity|]. state_simpl.
      split; [by rewrite <- !app_assoc|].
      split; [messages|].
      do 4 (split; [done|]). split; [|done].
      rewrite (alter_known _ _ _ _ Hk).
      rewrite (alter_known _ (uid u) _ _ (lookup_insert_eq _ _ _)).
      by rewrite insert_insert_eq.
    + rewrite bool_decide_eq_false_2 by (by intros [? ?]). unfold when. run_steps.
      eexists _, _. split; [reflexivity|]. state_simpl.
      split; [by rewrite <- !app_assoc|].
      split; [messages|].
      do 4 (split; [done|]). split; [|done].
      rewrite (alter_known _ _ _ _ Hk). f_equal.
      unfold with_disconnectTimer, with_state, with_socket. simpl. by rewrite Ht.
  - rewrite bool_decide_eq_false_2 by (by intros [? ?]).
    run_steps. state_simpl. cbn [mbind option_bind].
    rewrite lookup_insert_eq. run_steps.
    state_simpl. cbn [mbind option_bind].
    rewrite lookup_insert_eq. run_steps.
    rewrite bool_decide_eq_false_2 by (by intros [? ?]). unfold when. run_steps.
    eexists _, _. split; [reflexivity|]. state_simpl.
    split; [by rewrite <- !app_assoc|].
    split; [messages|].
    by do 5 (split; [done|]).
Qed.

(** X9. A user who is not connected is admitted: [acceptConnection] of the
    base class returns, the user's session is marked connected and bound to
    the new socket, it has no disconnect timer, and the inactivity timer is
    not running.  A session that was there keeps its user, its seat, its
    colour and its join time; a new one is a spectator's, joined now.  The
    other sessions, the game, the clocks and the rows written are as they
    were. *)
Theorem acceptConnection_admits (so : Socket) (u : User) (r : Room) :
  isUserConnected r (uid u) = false →
  let r' := (ServerRoom_acceptConnection ChessServerRoom_gameState so u r).2 in
  (ServerRoom_acceptConnection ChessServerRoom_gameState so u r).1 = Ok tt
  ∧ (∃ s', sessions r' !! uid u = Some s'
           ∧ connected (state (member s')) = true
           ∧ socket s' = Some so
           ∧ disconnectTimer s' = None
           ∧ match sessions r !! uid u with
             | Some s =>
                 user (member s') = user (member s)
                 ∧ isPlayer (state (member s')) = isPlayer (state (member s))
                 ∧ color (state (member s')) = color (state (member s))
                 ∧ joined s' = joined s
             | None =>
                 user (member s') = u
                 ∧ isPlayer (state (member s')) = false
                 ∧ color (state (member s')) = None
                 ∧ joined s' = wallClock r
             end)
  ∧ (∀ k, k ≠ uid u → sessions r' !! k = sessions r !! k)
  ∧ isGoing (inactivityTimer r') = false
  ∧ result_view r' = result_view r
  ∧ clock_view r' = clock_view r
  ∧ db_rows r' = db_rows r.
Proof.
  intros Hc r'.
  destruct (ServerRoom_acceptConnection_run so u r Hc)
    as (es & r1 & Hrun & Htrace & Hes%messages_rows & Hres & Hclk & _ & Hina & Hsess & _).
  unfold r'. rewrite Hrun. cbn [fst snd].
  split; [done|]. rewrite Hsess, Hina.
  split.
  { eexists. split; [apply lookup_insert_eq|].
    by destruct (sessions r !! uid u). }
  split; [by intros k Hne; rewrite lookup_insert_ne|].
  split; [done|]. split; [done|]. split; [done|].
  unfold db_rows. by rewrite Htrace, omap_app, Hes, app_nil_r.
Qed.




(** ** What the invariants look at *)

Lemma sessions_ok_frame (r r' : Room) :
  sessions r' = sessions r → sessions_ok r → sessions_ok r'.
Proof. unfold sessions_ok. by intros ->. Qed.

Lemma sessions_ok_insert (r r' : Room) (k : N) (v : MemberSession) :
  sessions r' = <[k := v]> (sessions r) → session_ok k v →
  sessions_ok r → sessions_ok r'.
Proof.
  intros Hs Hv H i s. rewrite Hs. destruct (decide (k = i)) as [<-|Hne].
  - rewrite lookup_insert_eq. by intros [= <-].
  - rewrite lookup_insert_ne by done. apply H.
Qed.

Lemma sessions_ok_delete (r r' : Room) (k : N) :
  sessions r' = delete k (sessions r) → sessions_ok r → sessions_ok r'.
Proof.
  intros Hs H i s. rewrite Hs. destruct (decide (k = i)) as [<-|Hne].
  - by rewrite lookup_delete_eq.
  - rewrite lookup_delete_ne by done. apply H.
Qed.

Lemma sessions_ok_fmap (r r' : Room) (f : MemberSession → MemberSession) :
  sessions r' = f <$> sessions r →
  (∀ k s, session_ok k s → session_ok k (f s)) →
  sessions_ok r → sessions_ok r'.
Proof.
  intros Hs Hf H i s. rewrite Hs, lookup_fmap.
  destruct (sessions r !! i) as [s0|] eqn:E; [|done].
  intros [= <-]. apply Hf. by apply H.
Qed.

Lemma sessions_ok_alter (r r' : Room) (f : MemberSession → MemberSession) (k : N) :
  sessions r' = alter f k (sessions r) →
  (∀ s, sessions r !! k = Some s → session_ok k s → session_ok k (f s)) →
  sessions_ok r → sessions_ok r'.
Proof.
  intros Hs Hf H i s. rewrite Hs. destruct (decide (k = i)) as [<-|Hne].
  - rewrite lookup_alter_eq.
    destruct (sessions r !! k) as [s0|] eqn:E; [|done].
    intros [= <-]. apply Hf; [done|]. by apply H.
  - rewrite lookup_alter_ne by done. apply H.
Qed.

Lemma session_ok_stop (k : N) (s : MemberSession) :
  session_ok k s → session_ok k (stop_disconnectTimer s).
Proof.
  intros (H1 & H2 & H3 & H4). split; [done|]. split; [done|]. split; [done|].
  intros t Ht. simpl in Ht.
  destruct (disconnectTimer s) as [t0|]; [|done].
  injection Ht as <-. exact (H4 t0 eq_refl).
Qed.

Lemma callback_elapse d t : callback (PausableTimer_elapse d t) = callback t.
Proof. unfold PausableTimer_elapse. by destruct (isGoing t). Qed.

Lemma session_ok_elapse d (k : N) (s : MemberSession) :
  session_ok k s →
  session_ok k (with_disconnectTimer (PausableTimer_elapse d <$> disconnectTimer s) s).
Proof.
  intros (H1 & H2 & H3 & H4). split; [done|]. split; [done|]. split; [done|].
  intros t Ht. simpl in Ht.
  destruct (disconnectTimer s) as [t0|]; [|done].
  injection Ht as <-. rewrite callback_elapse. exact (H4 t0 eq_refl).
Qed.

Lemma players_ok_frame (r r' : Room) :
  hostID r' = hostID r →
  whitePlayerID r' = whitePlayerID r → blackPlayerID r' = blackPlayerID r →
  (gameStatus r' = NotStarted ↔ gameStatus r = NotStarted) →
  (∀ k, seat_at r' k = seat_at r k) →
  players_ok r → players_ok r'.
Proof.
  intros Hh Hw Hb Hs Hseat (H1 & H2 & H3).
  split; [by rewrite Hseat, Hh|]. split.
  - intros k c. rewrite Hseat, H2. by destruct c; simpl; rewrite ?Hw, ?Hb.
  - by rewrite Hs, Hw, Hb.
Qed.

Lemma seat_at_fmap (r r' : Room) (f : MemberSession → MemberSession) :
  sessions r' = f <$> sessions r → (∀ s, seat (f s) = seat s) →
  ∀ k, seat_at r' k = seat_at r k.
Proof.
  intros Hs Hf k. unfold seat_at. rewrite Hs, lookup_fmap.
  destruct (sessions r !! k); simpl; [apply Hf|done].
Qed.

Lemma connected_at_fmap (r r' : Room) (f : MemberSession → MemberSession) :
  sessions r' = f <$> sessions r → (∀ s, member (f s) = member s) →
  ∀ k, connected_at r' k = connected_at r k.
Proof.
  intros Hs Hf k. unfold connected_at. rewrite Hs, lookup_fmap.
  destruct (sessions r !! k); simpl; [by rewrite Hf|done].
Qed.

Lemma start_ok_frame (r r' : Room) :
  hostID r' = hostID r →
  (gameStatus r' = NotStarted → gameStatus r = NotStarted) →
  (∀ k, connected_at r' k = connected_at r k) →
  start_ok r → start_ok r'.
Proof.
  intros Hh Hs Hc H Hs' Hhost k. rewrite Hh, !Hc in *. by apply H; [apply Hs|].
Qed.

Lemma results_ok_frame (r r' : Room) :
  _gameState r' = _gameState r → winnerId r' = winnerId r →
  whitePlayerID r' = whitePlayerID r → blackPlayerID r' = blackPlayerID r →
  db_rows r' = db_rows r →
  results_ok r → results_ok r'.
Proof.
  unfold results_ok, gameStatus. by intros -> -> -> -> ->.
Qed.

Lemma isUserConnected_connected_at (r : Room) (k : N) :
  isUserConnected r k = true ↔ connected_at r k = Some true.
Proof.
  unfold isUserConnected, connected_at. destruct (sessions r !! k); simpl.
  - split; [by intros ->|by intros [= ->]].
  - done.
Qed.

(** ** Counting the connected members *)

Lemma connected_at_connectedSessions (r : Room) (k : N) :
  connected_at r k = Some true ↔ ∃ s, (k, s) ∈ connectedSessions r.
Proof.
  unfold connected_at. split.
  - destruct (sessions r !! k) as [s|] eqn:E; [|done]. simpl. intros [= H].
    exists s. by apply elem_of_connectedSessions.
  - intros (s & H). apply elem_of_connectedSessions in H as [-> H]. simpl.
    by rewrite H.
Qed.

Lemma numberOfConnectedMembers_0 (r : Room) :
  numberOfConnectedMembers r = 0 ↔ nobody_connected r.
Proof.
  unfold numberOfConnectedMembers, nobody_connected. split.
  - intros H k Hk. apply connected_at_connectedSessions in Hk as (s & Hs).
    destruct (connectedSessions r); [by apply elem_of_nil in Hs|done].
  - intros H. destruct (connectedSessions r) as [|[k s] l] eqn:E; [done|].
    destruct (H k). apply connected_at_connectedSessions. exists s.
    rewrite E. by left.
Qed.

Lemma NoDup_keys_Object_entries {V : Type} (m : gmap N V) :
  NoDup (Object_entries m).*1.
Proof.
  unfold Object_entries. rewrite merge_sort_Permutation.
  apply NoDup_fst_map_to_list.
Qed.

Lemma NoDup_keys_connectedSessions (r : Room) : NoDup (connectedSessions r).*1.
Proof.
  eapply sublist_NoDup; [apply (NoDup_keys_Object_entries (sessions r))|].
  apply fmap_sublist, sublist_filter.
Qed.

(** Two connected members: one of them is not the given user ... *)
Lemma another_connected (r : Room) (h : N) :
  2 ≤ numberOfConnectedMembers r →
  ∃ k, k ≠ h ∧ connected_at r k = Some true.
Proof.
  unfold numberOfConnectedMembers. intros Hlen.
  pose proof (NoDup_keys_connectedSessions r) as Hnd.
  assert (∃ k s, (k, s) ∈ connectedSessions r ∧ k ≠ h) as (k & s & Hin & Hne).
  { destruct (connectedSessions r) as [|[k1 s1] [|[k2 s2] l]]; simpl in *; try lia.
    inversion Hnd as [|? ? Hnot _]; subst.
    destruct (decide (k1 = h)) as [->|Hne].
    - exists k2, s2. split; [right; left|].
      intros ->. apply Hnot. left.
    - exists k1, s1. split; [left|done]. }
  exists k. split; [done|]. apply connected_at_connectedSessions. by exists s.
Qed.

(** ... and the other way round. *)
Lemma two_connected (r : Room) (k1 k2 : N) :
  k1 ≠ k2 → connected_at r k1 = Some true → connected_at r k2 = Some true →
  2 ≤ numberOfConnectedMembers r.
Proof.
  intros Hne H1 H2. unfold numberOfConnectedMembers.
  apply connected_at_connectedSessions in H1 as (s1 & H1).
  apply connected_at_connectedSessions in H2 as (s2 & H2).
  destruct (connectedSessions r) as [|e1 [|e2 l]]; simpl.
  - by apply elem_of_nil in H1.
  - apply list_elem_of_singleton in H1, H2. congruence.
  - lia.
Qed.

(** ** Keeping the room well formed *)

Lemma timers_quiet_intro (r : Room) :
  clock_going (whiteTimer r) = false → clock_going (blackTimer r) = false →
  (∀ k s t, sessions r !! k = Some s → disconnectTimer s = Some t →
            isGoing t = false) →
  timers_quiet r.
Proof. by intros; repeat split. Qed.

(** What a change has to respect for the timers to stay in order: callbacks
    are kept, a clock exists after if and only if it did before, the status
    and the rules are the same, and outside a game in progress no timer is
    set going; nor is the inactivity timer while somebody is connected. *)
Lemma timers_ok_frame (r r' : Room) :
  gameStatus r' = gameStatus r → gameRules r' = gameRules r →
  callback (inactivityTimer r') = callback (inactivityTimer r) →
  option_Forall2 (λ t t', callback t' = callback t) (whiteTimer r) (whiteTimer r') →
  option_Forall2 (λ t t', callback t' = callback t) (blackTimer r) (blackTimer r') →
  (gameStatus r ≠ InProgress →
   (clock_going (whiteTimer r') = true → clock_going (whiteTimer r) = true)
   ∧ (clock_going (blackTimer r') = true → clock_going (blackTimer r) = true)
   ∧ (∀ k s' t', sessions r' !! k = Some s' → disconnectTimer s' = Some t' →
                 isGoing t' = true →
                 ∃ s t, sessions r !! k = Some s ∧ disconnectTimer s = Some t
                        ∧ isGoing t = true)) →
  (isGoing (inactivityTimer r') = true →
   (isGoing (inactivityTimer r) = true
    ∧ ∀ k, connected_at r' k = Some true → connected_at r k = Some true)
   ∨ (gameStatus r = NotStarted ∧ nobody_connected r')) →
  timers_ok r → timers_ok r'.
Proof.
  intros Hs Hg Hcb Hw Hb Hquiet Hina (H1 & H2 & H3 & H4 & H5 & H6 & H7).
  split; [by rewrite Hcb|].
  split; [intros t' Ht'; rewrite Ht' in Hw; inversion Hw as [t ? Hc Ht|]; subst;
          rewrite Hc; by apply H2|].
  split; [intros t' Ht'; rewrite Ht' in Hb; inversion Hb as [t ? Hc Ht|]; subst;
          rewrite Hc; by apply H3|].
  split.
  { assert (∀ a b : option PausableTimer,
              option_Forall2 (λ t t', callback t' = callback t) a b →
              (is_Some b ↔ is_Some a)) as Hiff.
    { intros a b []; split; intros [? ?]; first [done | by eexists]. }
    by rewrite (Hiff _ _ Hw), (Hiff _ _ Hb). }
  split.
  { rewrite Hs, Hg. intros Hp Ht. destruct (H5 Hp Ht) as [t Hwt].
    rewrite Hwt in Hw. inversion Hw; by eexists. }
  split.
  { rewrite Hs. intros Hne. destruct (H6 Hne) as (Q1 & Q2 & Q3).
    destruct (Hquiet Hne) as (M1 & M2 & M3).
    apply timers_quiet_intro.
    - destruct (clock_going (whiteTimer r')); [|done]. by rewrite <- Q1, M1.
    - destruct (clock_going (blackTimer r')); [|done]. by rewrite <- Q2, M2.
    - intros k s' t' Hk Ht'. destruct (isGoing t') eqn:E; [|done].
      destruct (M3 k s' t' Hk Ht' E) as (s & t & Hks & Hts & Hgo).
      by rewrite <- Hgo, (Q3 k s t Hks Hts). }
  intros Hgo. rewrite Hs. destruct (Hina Hgo) as [[Hgo' Hc]|[Hn Hc]]; [|done].
  destruct (H7 Hgo') as [Hn Hnobody]. split; [done|].
  intros k Hk. by apply (Hnobody k), Hc.
Qed.

(** A change that leaves the game, the players and the rows alone. *)
Lemma well_formed_frame (r r' : Room) :
  hostID r' = hostID r →
  _gameState r' = _gameState r → winnerId r' = winnerId r →
  whitePlayerID r' = whitePlayerID r → blackPlayerID r' = blackPlayerID r →
  db_rows r' = db_rows r →
  (∀ k, seat_at r' k = seat_at r k) →
  (∀ k, connected_at r' k = Some true → connected_at r k = Some true) →
  sessions_ok r' → timers_ok r' →
  well_formed r → well_formed r'.
Proof.
  intros Hh Hg Hid Hw Hb Hdb Hseat Hc Hso Hto (_ & Hp & _ & Hst & Hr).
  split; [done|]. split.
  { apply (players_ok_frame r); try done. unfold gameStatus. by rewrite Hg. }
  split; [done|]. split; [|by apply (results_ok_frame r)].
  intros Hs Hhost k Hk. rewrite Hh in *.
  unfold gameStatus in Hs. rewrite Hg in Hs.
  apply Hst; [done|by apply Hc|by apply Hc].
Qed.

Lemma option_Forall2_fmap_callback (f : PausableTimer → PausableTimer)
    (t : option PausableTimer) :
  (∀ x, callback (f x) = callback x) →
  option_Forall2 (λ t t', callback t' = callback t) t (f <$> t).
Proof. intros H. destruct t; constructor. apply H. Qed.

Lemma same_callback (t : option PausableTimer) :
  option_Forall2 (λ t t', callback t' = callback t) t t.
Proof. destruct t; by constructor. Qed.

Lemma well_formed_elapse (d : Z) (r : Room) : well_formed r → well_formed (elapse d r).
Proof.
  intros Hwf. pose proof Hwf as (Hso & _ & Hto & _).
  set (f := λ s, with_disconnectTimer (PausableTimer_elapse d <$> disconnectTimer s) s).
  assert (sessions (elapse d r) = f <$> sessions r) as Hsess by done.
  apply (well_formed_frame r); try done.
  - by apply (seat_at_fmap r _ f Hsess).
  - intros k. by rewrite (connected_at_fmap r _ f Hsess).
  - by eapply sessions_ok_fmap; [exact Hsess|intros; by apply session_ok_elapse|].
  - apply (timers_ok_frame r); try done.
    + apply callback_elapse.
    + apply option_Forall2_fmap_callback, callback_elapse.
    + apply option_Forall2_fmap_callback, callback_elapse.
    + intros _. split; [|split].
      * apply clock_going_fmap. intros x. by rewrite isGoing_elapse.
      * apply clock_going_fmap. intros x. by rewrite isGoing_elapse.
      * intros k s' t' Hk Ht' Hgo. simpl in Hk. rewrite lookup_fmap in Hk.
        destruct (sessions r !! k) as [s|]; [|done]. injection Hk as <-.
        simpl in Ht'. destruct (disconnectTimer s) as [t|] eqn:Et; [|done].
        injection Ht' as <-. rewrite isGoing_elapse in Hgo. by exists s, t.
    + intros Hgo. left. simpl in Hgo. rewrite isGoing_elapse in Hgo.
      split; [done|]. intros k. by rewrite (connected_at_fmap r _ f Hsess).
Qed.

Lemma InactivityExpired_run (r : Room) :
  callback (inactivityTimer r) = CbInactivity →
  handle cfg InactivityExpired r
  = (Ok tt, if isGoing (inactivityTimer r)
            then log [Signal destroy] (set_inactivityTimer PausableTimer_expire r)
            else r).
Proof.
  intros Hcb. unfold handle. run_steps. rewrite Hcb.
  destruct (isGoing (inactivityTimer r)); unfold when; by run_steps.
Qed.

Lemma well_formed_InactivityExpired (r : Room) :
  well_formed r → well_formed (step cfg r InactivityExpired).
Proof.
  intros Hwf. pose proof Hwf as (Hso & _ & Hto & _).
  unfold step. rewrite InactivityExpired_run by apply Hto. cbn [snd].
  destruct (isGoing (inactivityTimer r)); [|done].
  apply (well_formed_frame r); try done.
  - by rewrite db_rows_log, app_nil_r.
  - apply (timers_ok_frame r); try done.
    + exact (same_callback (whiteTimer r)).
    + exact (same_callback (blackTimer r)).
    + intros _. split; [done|]. split; [done|].
      intros k s' t' Hk Ht' Hgo. by exists s', t'.
Qed.

(** The end of a game that was in progress. *)
Lemma well_formed_ended (x r' : Room) (res : GameResolution) (row : PlayedGameRow) :
  well_formed x → gameStatus x = InProgress →
  hostID r' = hostID x →
  whitePlayerID r' = whitePlayerID x → blackPlayerID r' = blackPlayerID x →
  status (_gameState r') = Finished →
  resolution (_gameState r') = Some res →
  (winnerId r' = winnerId x
   ∨ (res = Checkmate ∧ winnerId r' = winnerID (_gameState r'))) →
  sessions r' = stop_disconnectTimer <$> sessions x →
  whiteTimer r' = PausableTimer_pause <$> whiteTimer x →
  blackTimer r' = PausableTimer_pause <$> blackTimer x →
  inactivityTimer r' = inactivityTimer x →
  db_rows r' = db_rows x ++ [row] →
  pg_resolution row = Some res →
  pg_winner row =
    (if bool_decide (winnerID (_gameState r') = whitePlayerID r') then Some White
     else if bool_decide (winnerID (_gameState r') = blackPlayerID r')
          then Some Black else None) →
  well_formed r'.
Proof.
  intros (Hso & Hp & Hto & _ & Hr) Hs Hh Hw Hb Hfin Hres Hid Hsess Hwt Hbt Hina
    Hdb Hrow Hwin.
  destruct Hto as (T1 & T2 & T3 & T4 & _ & _ & T7).
  assert (gameStatus r' = Finished) as Hfin' by done.
  split; [by eapply sessions_ok_fmap; [done|apply session_ok_stop|]|].
  split.
  { apply (players_ok_frame x); try done.
    - by rewrite Hfin', Hs.
    - by apply (seat_at_fmap x _ _ Hsess). }
  split.
  { split; [by rewrite Hina|].
    split; [rewrite Hwt; intros t' Ht'; destruct (whiteTimer x) as [t|] eqn:E;
            [injection Ht' as <-; exact (T2 t eq_refl)|done]|].
    split; [rewrite Hbt; intros t' Ht'; destruct (blackTimer x) as [t|] eqn:E;
            [injection Ht' as <-; exact (T3 t eq_refl)|done]|].
    split; [by rewrite Hwt, Hbt, !fmap_is_Some|].
    split; [by rewrite Hfin'|].
    split.
    - intros _. apply timers_quiet_intro.
      + rewrite Hwt. apply clock_going_pause.
      + rewrite Hbt. apply clock_going_pause.
      + rewrite Hsess. intros k s t. apply stopped_sessions_quiet.
    - rewrite Hina. intros Hgo. destruct (T7 Hgo) as [Hn _]. congruence. }
  split; [intros Hn; congruence|].
  destruct Hr as (R1 & _ & R3).
  destruct R1 as (Hnone & Hnores & _); [congruence|].
  split; [by intros Hne|]. split.
  - intros _. exists row. rewrite Hdb, Hnone, Hres. by repeat split.
  - destruct Hid as [Hid|[-> Hid]]; [|right; by rewrite Hres].
    left. rewrite Hid. destruct R3 as [?|[? _]]; [done|congruence].
Qed.

Lemma well_formed_Resign (color : Color) (r : Room) :
  well_formed r → well_formed (step cfg r (Resign color)).
Proof.
  intros Hwf. unfold step, handle, detached.
  destruct (decide (gameStatus r = InProgress)) as [Hs|Hs].
  - destruct (handleGiveUp_run color r Hs) as (es & row & -> & Hes%messages_rows & Hres & Hwin).
    cbn [snd].
    apply (well_formed_ended r _ GiveUp row); try done.
    + by left.
    + by rewrite db_rows_log, omap_app, Hes.
  - by rewrite (handleGiveUp_idle color r Hs).
Qed.

(** *** Timers that run out *)

Lemma handleDisconnectTimeout_run (userID : N) (r : Room) :
  ∃ es row,
    ChessServerRoom_handleDisconnectTimeout userID r
    = (Ok tt,
       log (es ++ [DbCreate row])
         (ended PlayerQuit
            (if bool_decide (Some userID = whitePlayerID r)
             then blackPlayerID r else whitePlayerID r) r))
    ∧ Forall message es
    ∧ pg_resolution row = Some PlayerQuit
    ∧ pg_winner row =
        (let w := if bool_decide (Some userID = whitePlayerID r)
                  then blackPlayerID r else whitePlayerID r in
         if bool_decide (w = whitePlayerID r) then Some White
         else if bool_decide (w = blackPlayerID r) then Some Black else None).
Proof.
  unfold ChessServerRoom_handleDisconnectTimeout, ServerRoom_handleDisconnectTimeout,
    stopDisconnectTimers, emit, pauseClocks.
  run_steps.
  match goal with
  | |- context [ChessServerRoom_saveGame ?x] =>
      destruct (ChessServerRoom_saveGame_row x eq_refl) as (row & -> & Hres & Hwin)
  end.
  run_steps. exists [Signal gameStatusChange], row.
  split; [by rewrite log_log|]. split; [messages|]. split; [exact Hres|exact Hwin].
Qed.

Lemma GraceExpired_idle (k : N) (r : Room) :
  (∀ s t, sessions r !! k = Some s → disconnectTimer s = Some t → isGoing t = false) →
  handle cfg (GraceExpired k) r = (Ok tt, r).
Proof.
  intros H. unfold handle. run_steps.
  destruct (sessions r !! k) as [s|] eqn:Hk; cbn [mbind option_bind]; [|done].
  destruct (disconnectTimer s) as [t|] eqn:Ht; [|done].
  by rewrite (H s t eq_refl Ht).
Qed.

Lemma GraceExpired_run (k u : N) (r : Room) (s : MemberSession) (t : PausableTimer) :
  sessions r !! k = Some s → disconnectTimer s = Some t →
  isGoing t = true → callback t = CbDisconnect u →
  handle cfg (GraceExpired k) r
  = detached (ChessServerRoom_handleDisconnectTimeout u)
      (set_sessions (alter (with_disconnectTimer (Some (PausableTimer_expire t))) k) r).
Proof.
  intros Hk Ht Hgo Hcb. unfold handle. run_steps.
  rewrite Hk. cbn [mbind option_bind]. rewrite Ht, Hgo, Hcb.
  unfold when, update_session. by run_steps.
Qed.

Lemma GraceExpired_fires (k : N) (r : Room) (s : MemberSession) (t : PausableTimer) :
  well_formed r →
  sessions r !! k = Some s → disconnectTimer s = Some t → isGoing t = true →
  ∃ x, handle cfg (GraceExpired k) r
       = detached (ChessServerRoom_handleDisconnectTimeout k) x
       ∧ well_formed x ∧ gameStatus x = InProgress ∧ trace x = trace r.
Proof.
  intros Hwf Hk Ht Hgo. pose proof Hwf as (Hso & _ & Hto & _).
  destruct (Hso k s Hk) as (S1 & S2 & S3 & S4).
  destruct (S4 t Ht) as (Hcb & Hnc & Hpl).
  assert (gameStatus r = InProgress) as Hs.
  { destruct (decide (gameStatus r = InProgress)) as [|Hne]; [done|].
    destruct Hto as (_ & _ & _ & _ & _ & Hq & _).
    destruct (Hq Hne) as (_ & _ & Hq'). by rewrite (Hq' k s t Hk Ht) in Hgo. }
  rewrite (GraceExpired_run k k r s t Hk Ht Hgo Hcb).
  eexists. split; [reflexivity|]. split; [|by split].
  set (x := set_sessions _ r).
  apply (well_formed_frame r); try done.
  - intros i. unfold seat_at, x. simpl. destruct (decide (k = i)) as [<-|Hne].
    + by rewrite lookup_alter_eq, Hk.
    + by rewrite lookup_alter_ne.
  - intros i. unfold connected_at, x. simpl. destruct (decide (k = i)) as [<-|Hne].
    + by rewrite lookup_alter_eq, Hk.
    + by rewrite lookup_alter_ne.
  - eapply sessions_ok_alter; [reflexivity| |done].
    intros s0 Hs0 _. rewrite Hk in Hs0. injection Hs0 as <-.
    split; [done|]. split; [done|]. split; [done|].
    intros t0 [= <-]. by repeat split.
  - apply (timers_ok_frame r); try done.
    + exact (same_callback (whiteTimer r)).
    + exact (same_callback (blackTimer r)).
    + intros Hi. left. split; [done|].
      intros i. unfold connected_at, x. simpl. destruct (decide (k = i)) as [<-|Hne].
      * by rewrite lookup_alter_eq, Hk.
      * by rewrite lookup_alter_ne.
Qed.

Lemma well_formed_GraceExpired (k : N) (r : Room) :
  well_formed r → well_formed (step cfg r (GraceExpired k)).
Proof.
  intros Hwf. unfold step.
  destruct (sessions r !! k) as [s|] eqn:Hk;
    [|by rewrite GraceExpired_idle by (intros ? ? ?; congruence)].
  destruct (disconnectTimer s) as [t|] eqn:Ht;
    [|by rewrite GraceExpired_idle by (intros ? ? ? ?; congruence)].
  destruct (isGoing t) eqn:Hgo;
    [|by rewrite GraceExpired_idle by (intros ? ? ? ?; congruence)].
  destruct (GraceExpired_fires k r s t Hwf Hk Ht Hgo) as (x & -> & Hx & Hs & _).
  unfold detached.
  destruct (handleDisconnectTimeout_run k x) as (es & row & -> & Hes%messages_rows & Hres & Hwin).
  cbn [snd].
  apply (well_formed_ended x _ PlayerQuit row); try done.
  - by left.
  - by rewrite db_rows_log, omap_app, Hes.
Qed.

Lemma ClockExpired_idle (side : Color) (r : Room) :
  (∀ t, player_clock side r = Some t → isGoing t = false) →
  handle cfg (ClockExpired side) r = (Ok tt, r).
Proof.
  intros H. unfold handle. run_steps.
  assert ((if bool_decide (side = White) then whiteTimer r else blackTimer r)
          = player_clock side r) as -> by (by destruct side).
  destruct (player_clock side r) as [t|]; [|done].
  by rewrite (H t eq_refl).
Qed.

Lemma ClockExpired_run (side side' : Color) (r : Room) (t : PausableTimer) :
  player_clock side r = Some t →
  isGoing t = true → callback t = CbClock side' →
  handle cfg (ClockExpired side) r
  = handleTimerOut cfg side'
      (match side with
       | White => set_whiteTimer (fmap PausableTimer_expire) r
       | Black => set_blackTimer (fmap PausableTimer_expire) r
       end).
Proof.
  intros Ht Hgo Hcb. unfold handle. run_steps.
  destruct side; cbn [player_clock] in Ht.
  - rewrite bool_decide_eq_true_2 by done. rewrite Ht, Hgo, Hcb.
    unfold when. by run_steps.
  - rewrite bool_decide_eq_false_2 by done. rewrite Ht, Hgo, Hcb.
    unfold when. by run_steps.
Qed.

Lemma ClockExpired_fires (side : Color) (r : Room) (t : PausableTimer) :
  well_formed r → player_clock side r = Some t → isGoing t = true →
  ∃ x w' b',
    handle cfg (ClockExpired side) r = handleTimerOut cfg side x
    ∧ well_formed x ∧ gameStatus x = InProgress
    ∧ whiteTimer x = Some w' ∧ blackTimer x = Some b' ∧ trace x = trace r.
Proof.
  intros Hwf Ht Hgo. pose proof Hwf as (Hso & _ & Hto & _).
  destruct Hto as (T1 & T2 & T3 & T4 & T5 & T6 & T7).
  assert (callback t = CbClock side) as Hcb.
  { destruct side; [by apply T2|by apply T3]. }
  assert (gameStatus r = InProgress) as Hs.
  { destruct (decide (gameStatus r = InProgress)) as [|Hne]; [done|].
    destruct (T6 Hne) as (Q1 & Q2 & _).
    destruct side; cbn [player_clock] in Ht;
      [rewrite Ht in Q1|rewrite Ht in Q2]; simpl in *; congruence. }
  assert (∃ w b, whiteTimer r = Some w ∧ blackTimer r = Some b) as (w & b & Hw & Hb).
  { destruct side; cbn [player_clock] in Ht.
    - destruct T4 as [[b Hb] _]; [by eexists|]. by exists t, b.
    - destruct T4 as [_ [w Hw]]; [by eexists|]. by exists w, t. }
  rewrite (ClockExpired_run side side r t Ht Hgo Hcb).
  set (x := match side with
            | White => set_whiteTimer (fmap PausableTimer_expire) r
            | Black => set_blackTimer (fmap PausableTimer_expire) r
            end).
  assert (∃ w' b', whiteTimer x = Some w' ∧ blackTimer x = Some b')
    as (w' & b' & Hw' & Hb').
  { destruct side; unfold x; simpl; rewrite Hw, Hb; by eexists _, _. }
  exists x, w', b'. split; [done|]. split; [|by destruct side].
  apply (well_formed_frame r); try (by destruct side).
  apply (timers_ok_frame r); try (by destruct side).
  - destruct side; [|exact (same_callback (whiteTimer r))].
    by apply option_Forall2_fmap_callback.
  - destruct side; [exact (same_callback (blackTimer r))|].
    by apply option_Forall2_fmap_callback.
  - intros Hi. left. split; [by destruct side|]. by destruct side.
Qed.

Lemma well_formed_ClockExpired (side : Color) (r : Room) :
  well_formed r → well_formed (step cfg r (ClockExpired side)).
Proof.
  intros Hwf. unfold step.
  destruct (player_clock side r) as [t|] eqn:Ht;
    [|by rewrite ClockExpired_idle by (intros ? ?; congruence)].
  destruct (isGoing t) eqn:Hgo;
    [|by rewrite ClockExpired_idle by (intros ? ?; congruence)].
  destruct (ClockExpired_fires side r t Hwf Ht Hgo)
    as (x & w' & b' & -> & Hx & Hs & Hw' & Hb' & _).
  destruct (handleTimerOut_run side x w' b' Hw' Hb')
    as (es & row & -> & Hes%messages_rows & Hres & Hwin).
  cbn [snd].
  apply (well_formed_ended x _ OutOfTime row); try done.
  - by left.
  - by rewrite db_rows_log, omap_app, Hes.
Qed.

(** *** The inactivity check *)

Lemma callback_start d t : callback (PausableTimer_start d t) = callback t.
Proof. unfold PausableTimer_start. by destruct (isGoing t). Qed.

Ltac unchanged_timers :=
  first [ done
        | exact (same_callback _)
        | by (intros _; split; [done|]; split; [done|];
              intros ? s' t' ? ? ?; by exists s', t')
        | by (intros ?; left) ].

Lemma well_formed_checkInactivity (r : Room) :
  well_formed r → well_formed (checkInactivity cfg r).2.
Proof.
  intros Hwf. pose proof Hwf as (Hso & _ & Hto & _).
  rewrite checkInactivity_run. cbn [snd].
  destruct (decide (numberOfConnectedMembers r = 0)) as [Hn|Hn];
    [rewrite (bool_decide_eq_true_2 _ Hn)|by rewrite (bool_decide_eq_false_2 _ Hn)].
  destruct (decide (gameStatus r = NotStarted)) as [Hs|Hs];
    [rewrite (bool_decide_eq_true_2 _ Hs)|rewrite (bool_decide_eq_false_2 _ Hs)].
  - apply (well_formed_frame r); try done.
    apply (timers_ok_frame r); try unchanged_timers.
    + apply callback_start.
    + intros _. right. split; [done|]. by apply numberOfConnectedMembers_0.
  - destruct (bool_decide (gameStatus r = Finished)); [|done].
    apply (well_formed_frame r); try done.
    by rewrite db_rows_log, app_nil_r.
Qed.

(** *** A connection is lost *)

Lemma seat_connect (b : bool) (so : option Socket) (t : option PausableTimer)
    (s : MemberSession) :
  seat (with_disconnectTimer t (with_socket so (with_state (MemberState_connect b) s)))
  = seat s.
Proof. done. Qed.

Lemma well_formed_Disconnect (k : N) (reason : string) (r : Room) :
  well_formed r → well_formed (step cfg r (Disconnect k reason)).
Proof.
  intros Hwf. pose proof Hwf as (Hso & _ & Hto & _). unfold step, handle.
  destruct (sessions r !! k) as [s|] eqn:Hk.
  2: { unfold handleDisconnect, session_at. run_steps.
       cbn [mbind option_bind]. rewrite Hk. by run_steps. }
  destruct (Hso k s Hk) as (S1 & S2 & S3 & S4).
  destruct (isPlayer (state (member s))) eqn:Hpl.
  - destruct (handleDisconnect_player_run k reason r s Hk Hpl)
      as (es & r1 & -> & Htrace & Hes%messages_rows & Hres & Hclk & Hina & Hsess & Hfix).
    apply well_formed_checkInactivity.
    injection Hres as Hg Hid Hch Hw Hb. injection Hclk as Hwt Hbt.
    injection Hfix as _ Hh _ Hrules _.
    set (s' := with_disconnectTimer _ _) in Hsess.
    assert (∀ i, connected_at r1 i = Some true → connected_at r i = Some true) as Hmono.
    { intros i. unfold connected_at. rewrite Hsess.
      destruct (decide (k = i)) as [<-|Hne].
      - by rewrite lookup_insert_eq.
      - by rewrite lookup_insert_ne. }
    apply (well_formed_frame r); try done.
    + unfold db_rows. by rewrite Htrace, omap_app, Hes, app_nil_r.
    + intros i. unfold seat_at. rewrite Hsess.
      destruct (decide (k = i)) as [<-|Hne].
      * by rewrite lookup_insert_eq, Hk.
      * by rewrite lookup_insert_ne.
    + apply (sessions_ok_insert r _ k s'); [done| |done].
      unfold s'. split; [done|].
      split; [simpl; by split; [|intros [? ?]]|].
      split; [simpl; rewrite Hpl; exact S3|].
      intros t. simpl. rewrite Hpl. case_bool_decide.
      * by intros [= <-].
      * intros Ht. by destruct (S4 t Ht) as (? & _ & ?).
    + apply (timers_ok_frame r); try done.
      * unfold gameStatus. by rewrite Hg.
      * by rewrite Hina.
      * rewrite Hwt. exact (same_callback _).
      * rewrite Hbt. exact (same_callback _).
      * intros Hne. rewrite Hwt, Hbt. split; [done|]. split; [done|].
        intros i s0 t0. rewrite Hsess. destruct (decide (k = i)) as [<-|Hni].
        -- rewrite lookup_insert_eq. intros [= <-]. unfold s'. simpl.
           rewrite bool_decide_eq_false_2 by done. intros Ht0 Hgo. by exists s, t0.
        -- rewrite lookup_insert_ne by done. intros Hi Ht0 Hgo. by exists s0, t0.
      * intros Hgo. left. by rewrite <- Hina.
  - destruct (handleDisconnect_spectator_run k reason r s Hk Hpl) as (es & -> & Hes%messages_rows).
    apply well_formed_checkInactivity.
    assert (∀ i, connected_at (log es (set_sessions (delete k) r)) i = Some true →
                 connected_at r i = Some true) as Hmono.
    { intros i. unfold connected_at. simpl.
      destruct (decide (k = i)) as [<-|Hne].
      - by rewrite lookup_delete_eq.
      - by rewrite lookup_delete_ne. }
    apply (well_formed_frame r); try done.
    + by rewrite db_rows_log, Hes, app_nil_r.
    + intros i. unfold seat_at. simpl.
      destruct (decide (k = i)) as [<-|Hne].
      * rewrite lookup_delete_eq, Hk. simpl. unfold seat. by rewrite Hpl.
      * by rewrite lookup_delete_ne.
    + by apply (sessions_ok_delete r _ k).
    + apply (timers_ok_frame r); try unchanged_timers.
      intros Hne. split; [done|]. split; [done|].
      intros i s0 t0. simpl. destruct (decide (k = i)) as [<-|Hni].
      * by rewrite lookup_delete_eq.
      * rewrite lookup_delete_ne by done. intros Hi Ht0 Hgo. by exists s0, t0.
Qed.

(** *** A move *)

Lemma handleMove_accepted (move : Move) (color : Color) (r : Room) (c' : Chess) :
  status (_gameState r) = InProgress →
  Chess_turn (chess r) = color →
  Chess_move (chess r) move = Some c' →
  (timer (gameRules r) = true → is_Some (whiteTimer r) ∧ is_Some (blackTimer r)) →
  ∃ es x,
    handleMove cfg move color r
    = (finished ← ChessServerRoom_isFinishCond;
       when finished (detached (ChessServerRoom_checkGameEnd cfg))) x
    ∧ trace x = trace r ++ es
    ∧ Forall message es
    ∧ chess x = c'
    ∧ sessions x = sessions r
    ∧ _gameState x = _gameState r
    ∧ winnerId x = winnerId r
    ∧ whitePlayerID x = whitePlayerID r
    ∧ blackPlayerID x = blackPlayerID r
    ∧ fixed_view x = fixed_view r
    ∧ inactivityTimer x = inactivityTimer r
    ∧ option_Forall2 (λ t t', callback t' = callback t) (whiteTimer r) (whiteTimer x)
    ∧ option_Forall2 (λ t t', callback t' = callback t) (blackTimer r) (blackTimer x).
Proof.
  intros Hs Hturn Hmove Hclocks. unfold handleMove. run_steps.
  rewrite bool_decide_eq_false_2 by (intros H; by apply H).
  rewrite bool_decide_eq_false_2 by (intros H; by apply H).
  rewrite Hmove. run_steps.
  destruct (timer (gameRules r)) eqn:Htimer.
  - destruct Hclocks as [[w Hw] [b Hb]]; [done|].
    unfold whiteTimer_call, blackTimer_call.
    destruct (bool_decide (Chess_turn c' = White)).
    all: repeat first [run_step | progress state_simpl | rewrite Hw | rewrite Hb].
    all: rewrite broadcast_run; cbv beta iota.
    all: eexists _, _; split; [reflexivity|]; state_simpl.
    all: split; [reflexivity|]; split; [apply messages_sent|].
    all: do 8 (split; [done|]).
    all: split; constructor; simpl; try done.
    all: apply callback_start.
  - rewrite broadcast_run; cbv beta iota.
    eexists _, _; split; [reflexivity|]; state_simpl.
    split; [reflexivity|]; split; [apply messages_sent|].
    do 8 (split; [done|]).
    split; [exact (same_callback _)|exact (same_callback _)].
Qed.

Ltac state_simpl_in H :=
  cbn [roomId hostID createdDateTime gameRules isFake _gameState sessions winnerId
       inactivityTimer chess whitePlayerID blackPlayerID whiteTimer blackTimer
       wallClock trace
       set_gameState set_sessions set_winnerId set_inactivityTimer set_chess
       set_whitePlayerID set_blackPlayerID set_whiteTimer set_blackTimer
       set_wallClock log
       status resolution winnerID set_status set_resolution set_winnerID
       gameStatus] in H.

Lemma finish_check_idle (x : Room) :
  Chess_isCheckmate (chess x) = false →
  Chess_isStalemate (chess x) = false →
  Chess_isDraw (chess x) = false →
  (finished ← ChessServerRoom_isFinishCond;
   when finished (detached (ChessServerRoom_checkGameEnd cfg))) x
  = (Ok tt, x).
Proof.
  intros H1 H2 H3. unfold ChessServerRoom_isFinishCond. run_steps.
  rewrite H1, H2, H3. by run_steps.
Qed.

Lemma finish_check_run (x : Room) :
  winnerID (_gameState x) = None →
  Chess_isCheckmate (chess x) = true ∨ Chess_isStalemate (chess x) = true
  ∨ Chess_isDraw (chess x) = true →
  ∃ r' res row,
    (finished ← ChessServerRoom_isFinishCond;
     when finished (detached (ChessServerRoom_checkGameEnd cfg))) x
    = (Ok tt, r')
    ∧ hostID r' = hostID x
    ∧ whitePlayerID r' = whitePlayerID x
    ∧ blackPlayerID r' = blackPlayerID x
    ∧ status (_gameState r') = Finished
    ∧ resolution (_gameState r') = Some res
    ∧ (winnerId r' = winnerId x
       ∨ (res = Checkmate ∧ winnerId r' = winnerID (_gameState r')))
    ∧ sessions r' = stop_disconnectTimer <$> sessions x
    ∧ whiteTimer r' = PausableTimer_pause <$> whiteTimer x
    ∧ blackTimer r' = PausableTimer_pause <$> blackTimer x
    ∧ inactivityTimer r' = inactivityTimer x
    ∧ db_rows r' = db_rows x ++ [row]
    ∧ unhandled r' = unhandled x
    ∧ pg_resolution row = Some res
    ∧ pg_winner row =
        (if bool_decide (winnerID (_gameState r') = whitePlayerID r') then Some White
         else if bool_decide (winnerID (_gameState r') = blackPlayerID r')
              then Some Black else None).
Proof.
  intros Hnone Hterm.
  unfold ChessServerRoom_isFinishCond, ChessServerRoom_checkGameEnd,
    ServerRoom_checkGameEnd, ChessServerRoom_isFinishCond, pauseClocks,
    stopDisconnectTimers, detached, when.
  destruct (Chess_isCheckmate (chess x)) eqn:H1;
    [|destruct (Chess_isStalemate (chess x)) eqn:H2;
      [|destruct (Chess_isDraw (chess x)) eqn:H3;
        [|by destruct Hterm as [?|[?|?]]]]].
  all: repeat first [run_step | progress state_simpl
                    | rewrite H1 | rewrite H2 | rewrite H3 | rewrite Hnone].
  all: destruct (timer (gameRules x)); rewrite broadcast_run; cbv beta iota.
  all: rewrite run_bind, run_modify; cbv beta iota.
  1-2: set (w := if bool_decide (Chess_turn (chess x) = White)
                 then blackPlayerID x else whitePlayerID x) in *.
  1-2: destruct (truthy w) eqn:Htr; unfold setWinnerId;
         [destruct w as [n|]; [|done]|];
         rewrite run_bind, ?run_modify, ?run_mret; cbv beta iota.
  5-8: rewrite run_bind, run_mret; cbv beta iota.
  all: match goal with
       | |- context [(emit ?sig ≫= _) ?y] =>
           destruct (closing_steps_run sig y eq_refl)
             as (es & row & -> & Hes & Hres & Hwin)
       end.
  all: eexists _, _, row; split; [reflexivity|].
  all: split; [reflexivity|].
  all: split; [reflexivity|].
  all: split; [reflexivity|].
  all: split; [reflexivity|].
  all: split; [reflexivity|].
  all: split; [first [by left | by right]|].
  all: split; [reflexivity|].
  all: split; [reflexivity|].
  all: split; [reflexivity|].
  all: split; [reflexivity|].
  all: state_simpl; state_simpl_in Hres; state_simpl_in Hwin.
  all: split; [|split; [|split; [exact Hres|exact Hwin]]].
  all: unfold db_rows, unhandled; state_simpl.
  all: rewrite !omap_app.
  all: first [ by rewrite no_rows_sent, (messages_rows _ Hes), app_nil_r
             | by rewrite (messages_errors _ (messages_sent _ _ _)),
                          (messages_errors _ Hes), !app_nil_r ].
Qed.

Lemma well_formed_MakeMove (move : Move) (color : Color) (r : Room) :
  well_formed r → well_formed (step cfg r (MakeMove move color)).
Proof.
  intros Hwf. pose proof Hwf as (Hso & Hp & Hto & Hst & Hr). unfold step, handle.
  destruct (decide (status (_gameState r) = InProgress)) as [Hs|Hs].
  2: { unfold handleMove. run_steps. by rewrite (bool_decide_eq_true_2 _ Hs). }
  destruct (decide (Chess_turn (chess r) = color)) as [Hturn|Hturn].
  2: { unfold handleMove. run_steps.
       rewrite bool_decide_eq_false_2 by (intros H; by apply H).
       by rewrite (bool_decide_eq_true_2 _ Hturn). }
  destruct (Chess_move (chess r) move) as [c'|] eqn:Hmove.
  2: { unfold handleMove. run_steps.
       rewrite bool_decide_eq_false_2 by (intros H; by apply H).
       rewrite bool_decide_eq_false_2 by (intros H; by apply H).
       by rewrite Hmove. }
  destruct (handleMove_accepted move color r c' Hs Hturn Hmove)
    as (es & x & -> & Htrace & Hes%messages_rows & Hch & Hsess & Hg & Hid & Hw & Hb & Hfix
        & Hina & Hwt & Hbt).
  { destruct Hto as (_ & _ & _ & T4 & T5 & _). intros Ht.
    assert (is_Some (whiteTimer r)) as Hsome by (by apply T5).
    split; [done|]. by apply T4. }
  injection Hfix as _ Hh _ Hrules _.
  assert (gameStatus x = InProgress) as Hsx by (unfold gameStatus; by rewrite Hg).
  assert (∀ i, connected_at x i = connected_at r i) as Hconn.
  { intros i. unfold connected_at. by rewrite Hsess. }
  assert (well_formed x) as Hx.
  { apply (well_formed_frame r); try done.
    - unfold db_rows. by rewrite Htrace, omap_app, Hes, app_nil_r.
    - intros i. unfold seat_at. by rewrite Hsess.
    - intros i. by rewrite Hconn.
    - by apply (sessions_ok_frame r).
    - apply (timers_ok_frame r); try done.
      + unfold gameStatus. by rewrite Hg.
      + by rewrite Hina.
      + intros Hi. left. rewrite <- Hina. split; [done|].
        intros i. by rewrite Hconn. }
  assert (winnerID (_gameState x) = None) as Hnone.
  { destruct Hx as (_ & _ & _ & _ & [H _]). apply H. by rewrite Hsx. }
  destruct (Chess_isCheckmate (chess x)) eqn:H1;
    [|destruct (Chess_isStalemate (chess x)) eqn:H2;
      [|destruct (Chess_isDraw (chess x)) eqn:H3]].
  4: by rewrite finish_check_idle.
  all: destruct (finish_check_run x Hnone)
         as (r' & res & row & -> & ? & ? & ? & ? & ? & ? & ? & ? & ? & ? & ? & _
             & ? & ?);
         [tauto|].
  all: by apply (well_formed_ended x r' res row).
Qed.

(** *** The start of the game *)

Lemma startGame_run (r : Room) (hs sel : MemberSession) (hc : Color) (k0 : N)
    (so_h so_s : Socket) :
  sessions r !! hostID r = Some hs →
  color (state (member hs)) = Some hc →
  socket hs = Some so_h →
  selectedSession r = Some (k0, sel) →
  sessions r !! k0 = Some sel →
  socket sel = Some so_s →
  uid (user (member sel)) = k0 →
  k0 ≠ hostID r →
  player_of hc r = Some (hostID r) →
  ∃ es r',
    ChessServerRoom_startGame r = (Ok tt, r')
    ∧ trace r' = trace r ++ es
    ∧ Forall message es
    ∧ sessions r'
      = <[k0 := with_state (MemberState_promote (swapColor hc)) sel]> (sessions r)
    ∧ player_of hc r' = Some (hostID r)
    ∧ player_of (swapColor hc) r' = Some k0
    ∧ _gameState r' = set_status InProgress (_gameState r)
    ∧ winnerId r' = winnerId r
    ∧ fixed_view r' = fixed_view r
    ∧ inactivityTimer r' = inactivityTimer r
    ∧ (if timer (gameRules r)
       then ∃ d, whiteTimer r'
                 = Some (PausableTimer_start None (PausableTimer_new (CbClock White) d))
                 ∧ blackTimer r' = Some (PausableTimer_new (CbClock Black) d)
       else clock_view r' = clock_view r).
Proof.
  intros Hhost Hcolor Hsoh Hsel Hk0 Hsos Huid Hne Hid.
  unfold ChessServerRoom_startGame, ServerRoom_startGame,
    ChessServerRoom_setUpGameBeforeStart, selectOpponent, update_session, emit.
  run_steps. rewrite Hsel, Hcolor. run_steps.
  destruct hc; cbn [player_of] in Hid.
  all: first [rewrite bool_decide_eq_false_2 by done
             |rewrite bool_decide_eq_true_2 by done].
  all: run_steps; rewrite broadcast_run; run_steps; state_simpl.
  all: rewrite Hid, Huid.
  all: unfold session_at, subscribeToEvents, socket_on.
  all: repeat first
         [ run_step | progress state_simpl
         | progress cbn [mbind option_bind fmap option_fmap option_map]
         | rewrite lookup_alter_eq | rewrite lookup_alter_ne by congruence
         | rewrite Hhost | rewrite Hk0 | rewrite Hsoh
         | progress (cbn [socket with_state]; rewrite Hsos) ].
  all: destruct (timer (gameRules r)); unfold when, whiteTimer_call.
  all: repeat first [run_step | progress state_simpl].
  all: rewrite broadcast_run; run_steps.
  all: eexists _, _; split; [reflexivity|]; state_simpl.
  all: split; [by rewrite <- !app_assoc|].
  all: split; [messages|].
  all: split; [by rewrite (alter_known _ _ _ _ Hk0)|].
  all: do 6 (split; [done|]).
  all: first [done | by eexists].
Qed.

Lemma well_formed_logged (es : list Effect) (r : Room) :
  omap Effect_row es = [] → well_formed r → well_formed (log es r).
Proof.
  intros Hes (Hso & Hp & Hto & Hst & Hr).
  split; [done|]. split; [done|]. split; [done|]. split; [done|].
  apply (results_ok_frame r); try done. by rewrite db_rows_log, Hes, app_nil_r.
Qed.

Lemma seat_at_Some (r : Room) (k : N) (c : Color) :
  seat_at r k = Some c ↔
  ∃ s, sessions r !! k = Some s ∧ isPlayer (state (member s)) = true
       ∧ color (state (member s)) = Some c.
Proof.
  unfold seat_at, seat. destruct (sessions r !! k) as [s|]; simpl.
  - destruct (isPlayer (state (member s))) eqn:E; split.
    + intros H. by exists s.
    + by intros (? & [= <-] & _ & ?).
    + done.
    + intros (? & [= <-] & ? & _). congruence.
  - split; [done|]. by intros (? & ? & _).
Qed.

Lemma swapColor_ne (c : Color) : swapColor c ≠ c.
Proof. by destruct c. Qed.

Lemma other_color (c c' : Color) : c' ≠ c → c' = swapColor c.
Proof. by destruct c, c'. Qed.

(** Before the game the host is the only player. *)
Lemma lobby_players (r : Room) (hc : Color) :
  players_ok r → gameStatus r = NotStarted →
  seat_at r (hostID r) = Some hc →
  player_of hc r = Some (hostID r)
  ∧ player_of (swapColor hc) r = None
  ∧ ∀ k c, seat_at r k = Some c → k = hostID r.
Proof.
  intros (_ & P2 & P3) Hs Hhc.
  assert (player_of hc r = Some (hostID r)) as Hid by (by apply P2).
  assert (player_of (swapColor hc) r = None) as Hnone.
  { destruct (proj1 P3 Hs) as [H|H]; destruct hc; simpl in *; congruence. }
  split; [done|]. split; [done|].
  intros k c Hk. apply P2 in Hk.
  destruct (decide (c = hc)) as [->|Hne]; [congruence|].
  apply other_color in Hne. congruence.
Qed.

(** The game begins: the opponent takes the seat that is free. *)
Lemma well_formed_started (r1 r2 : Room) (hc : Color) (k0 : N) (sel : MemberSession) :
  sessions_ok r1 → players_ok r1 → timers_ok r1 → results_ok r1 →
  gameStatus r1 = NotStarted →
  isGoing (inactivityTimer r1) = false →
  seat_at r1 (hostID r1) = Some hc →
  sessions r1 !! k0 = Some sel →
  isPlayer (state (member sel)) = false →
  sessions r2 = <[k0 := with_state (MemberState_promote (swapColor hc)) sel]> (sessions r1) →
  player_of hc r2 = Some (hostID r1) →
  player_of (swapColor hc) r2 = Some k0 →
  _gameState r2 = set_status InProgress (_gameState r1) →
  winnerId r2 = winnerId r1 →
  fixed_view r2 = fixed_view r1 →
  inactivityTimer r2 = inactivityTimer r1 →
  db_rows r2 = db_rows r1 →
  (if timer (gameRules r1)
   then ∃ d, whiteTimer r2
             = Some (PausableTimer_start None (PausableTimer_new (CbClock White) d))
             ∧ blackTimer r2 = Some (PausableTimer_new (CbClock Black) d)
   else clock_view r2 = clock_view r1) →
  well_formed r2.
Proof.
  intros Hso Hp Hto Hr Hs Hnot Hhc Hk0 Hnp Hsess Hidh Hido Hg Hid Hfix Hina Hdb Hclk.
  injection Hfix as _ Hh _ Hrules _.
  destruct (lobby_players r1 hc Hp Hs Hhc) as (L1 & L2 & L3).
  assert (gameStatus r2 = InProgress) as Hs2 by (unfold gameStatus; by rewrite Hg).
  assert (seat_at r1 k0 = None) as Hseat0.
  { unfold seat_at, seat. rewrite Hk0. simpl. by rewrite Hnp. }
  assert (k0 ≠ hostID r1) as Hne by congruence.
  assert (∀ k, k ≠ k0 → seat_at r2 k = seat_at r1 k) as Hseat.
  { intros k Hk. unfold seat_at. by rewrite Hsess, lookup_insert_ne. }
  assert (seat_at r2 k0 = Some (swapColor hc)) as Hseat2.
  { unfold seat_at. by rewrite Hsess, lookup_insert_eq. }
  destruct (Hso k0 sel Hk0) as (S1 & S2 & S3 & S4).
  split.
  { apply (sessions_ok_insert r1 _ k0 _ Hsess); [|done].
    split; [done|]. split; [done|]. split; [by split; [eexists|]|].
    intros t Ht. destruct (S4 t Ht) as (_ & _ & ?). congruence. }
  split.
  { split; [by rewrite Hh, Hseat|]. split.
    - intros k c. destruct (decide (k = k0)) as [->|Hk].
      + rewrite Hseat2. split.
        * by intros [= <-].
        * intros Hc. destruct (decide (c = hc)) as [->|Hch]; [congruence|].
          by rewrite (other_color _ _ Hch).
      + rewrite (Hseat k Hk). split.
        * intros Hc. pose proof (L3 k c Hc) as ->.
          assert (c = hc) as -> by congruence. done.
        * intros Hc. destruct (decide (c = hc)) as [->|Hch].
          -- assert (k = hostID r1) as -> by congruence. done.
          -- rewrite (other_color _ _ Hch) in Hc. congruence.
    - rewrite Hs2. split; [done|].
      destruct hc; simpl in *; intros [?|?]; congruence. }
  destruct Hto as (T1 & T2 & T3 & T4 & T5 & T6 & T7).
  split.
  { split; [by rewrite Hina|].
    destruct (timer (gameRules r1)) eqn:Htimer.
    - destruct Hclk as (d & Hw & Hb). rewrite Hw, Hb.
      split; [by intros ? [= <-]|]. split; [by intros ? [= <-]|].
      split; [by split; eexists|]. split; [by eexists|].
      split; [done|]. by rewrite Hina, Hnot.
    - injection Hclk as Hw Hb. rewrite Hw, Hb.
      split; [done|]. split; [done|]. split; [done|].
      split; [by rewrite Hrules, Htimer|].
      split; [done|]. by rewrite Hina, Hnot. }
  split; [intros ?; congruence|].
  destruct Hr as (R1 & _ & R3).
  destruct R1 as (Hnone & Hnores & Hnow); [congruence|].
  split; [by rewrite Hdb, Hg|]. split; [intros ?; congruence|].
  by rewrite Hid, Hg.
Qed.

(** *** A connection *)

Lemma Connect_returns (so : Socket) (u : User) (r : Room) :
  well_formed r → isUserConnected r (uid u) = false →
  ∃ r', ChessServerRoom_acceptConnection so u r = (Ok tt, r')
        ∧ well_formed r' ∧ unhandled r' = unhandled r.
Proof.
  intros Hwf Hc. pose proof Hwf as (Hso & Hp & Hto & Hst & Hr).
  unfold ChessServerRoom_acceptConnection.
  destruct (ServerRoom_acceptConnection_run so u r Hc)
    as (es & r1 & Hrun & Htrace & Hes & Hres & Hclk & Hwall & Hina & Hsess & Hfix).
  rewrite run_bind, Hrun. cbv beta iota. run_steps.
  injection Hres as Hg Hid Hch Hw Hb. injection Hclk as Hwt Hbt.
  pose proof Hfix as Hfix'. injection Hfix' as _ Hh _ Hrules _.
  set (s1 := match sessions r !! uid u with Some s => _ | None => _ end) in Hsess.
  assert (sessions r1 !! uid u = Some s1) as Hu by (by rewrite Hsess, lookup_insert_eq).
  assert (socket s1 = Some so) as Hso1 by (unfold s1; by destruct (sessions r !! uid u)).
  assert (seat s1 = seat_at r (uid u)) as Hseat1.
  { unfold s1, seat_at. by destruct (sessions r !! uid u). }
  assert (∀ i, seat_at r1 i = seat_at r i) as Hseat.
  { intros i. unfold seat_at at 1. rewrite Hsess.
    destruct (decide (uid u = i)) as [<-|Hne].
    - by rewrite lookup_insert_eq.
    - by rewrite lookup_insert_ne. }
  assert (db_rows r1 = db_rows r) as Hdb.
  { unfold db_rows. by rewrite Htrace, omap_app, (messages_rows _ Hes), app_nil_r. }
  assert (unhandled r1 = unhandled r) as Hun.
  { unfold unhandled. by rewrite Htrace, omap_app, (messages_errors _ Hes), app_nil_r. }
  assert (gameStatus r1 = gameStatus r) as Hs1 by (unfold gameStatus; by rewrite Hg).
  assert (sessions_ok r1) as Hso'.
  { apply (sessions_ok_insert r _ (uid u) s1 Hsess); [|done].
    unfold s1. destruct (sessions r !! uid u) as [s|] eqn:Hk.
    - destruct (Hso _ s Hk) as (S1 & S2 & S3 & S4).
      split; [done|]. split; [by split; [eexists|]|]. by split.
    - split; [done|]. split; [by split; [eexists|]|]. split; [|done].
      by split; [|intros [? ?]]. }
  assert (players_ok r1) as Hp'.
  { apply (players_ok_frame r); try done. by rewrite Hs1. }
  assert (timers_ok r1) as Hto'.
  { apply (timers_ok_frame r); try done.
    - by rewrite Hina.
    - rewrite Hwt. exact (same_callback _).
    - rewrite Hbt. exact (same_callback _).
    - intros Hne. rewrite Hwt, Hbt. split; [done|]. split; [done|].
      intros i s0 t0. rewrite Hsess. destruct (decide (uid u = i)) as [<-|Hni].
      + rewrite lookup_insert_eq. intros [= <-]. unfold s1.
        by destruct (sessions r !! uid u).
      + rewrite lookup_insert_ne by done. intros Hi Ht0 Hgo. by exists s0, t0.
    - by rewrite Hina. }
  assert (results_ok r1) as Hr' by (by apply (results_ok_frame r)).
  assert (isGoing (inactivityTimer r1) = false) as Hnot by (by rewrite Hina).
  assert (∀ es', Forall message es' → start_ok r1 →
                 well_formed (log es' r1)
                 ∧ unhandled (log es' r1) = unhandled r) as Hlog.
  { intros es' Hes' Hst'. split.
    - apply well_formed_logged; [by apply messages_rows|done].
    - by rewrite unhandled_log, (messages_errors _ Hes'), app_nil_r. }
  change (status (_gameState r1)) with (gameStatus r1).
  destruct (decide (gameStatus r1 = NotStarted)) as [Hn|Hn];
    [rewrite (bool_decide_eq_true_2 _ Hn)|rewrite (bool_decide_eq_false_2 _ Hn)];
    cbn [andb].
  - destruct Hp' as (P1 & P2 & P3). destruct P1 as [hc Hhc].
    pose proof (proj1 (seat_at_Some _ _ _) Hhc) as (hs & Hhost & Hhpl & Hhcol).
    destruct (decide (2 ≤ numberOfConnectedMembers r1)) as [H2|H2];
      [rewrite (bool_decide_eq_true_2 _ H2)|rewrite (bool_decide_eq_false_2 _ H2)].
    + run_steps. destruct (connected (state (member hs))) eqn:Hhconn.
      * (* the game starts *)
        destruct (lobby_players r1 hc (conj (ex_intro _ hc Hhc) (conj P2 P3)) Hn Hhc)
          as (L1 & L2 & L3).
        destruct (another_connected r1 (hostID r1) H2) as (k & Hkne & Hkc).
        assert (nonPlayerSessions r1 ≠ []) as Hnonempty.
        { unfold connected_at in Hkc.
          destruct (sessions r1 !! k) as [s|] eqn:Hk; [|done].
          injection Hkc as Hkc.
          assert ((k, s) ∈ nonPlayerSessions r1) as Hin.
          { apply elem_of_nonPlayerSessions. split; [done|]. split; [done|].
            destruct (isPlayer (state (member s))) eqn:Hpl; [|done].
            destruct (Hso' k s Hk) as (_ & _ & S3 & _).
            destruct (proj1 S3 Hpl) as [c Hcol].
            destruct Hkne. apply (L3 k c). apply seat_at_Some. by exists s. }
          intros Hnil. rewrite Hnil in Hin. by apply elem_of_nil in Hin. }
        destruct (sort_pop_nonempty (λ e : N * MemberSession, joined e.2) _ Hnonempty)
          as [[k0 sel] Hsel].
        change (selectedSession r1 = Some (k0, sel)) in Hsel.
        destruct (sort_pop_least (λ e : N * MemberSession, joined e.2) _ _ Hsel)
          as [Hin _].
        apply elem_of_nonPlayerSessions in Hin as (Hk0 & Hselc & Hselp).
        destruct (Hso' k0 sel Hk0) as (S1 & S2 & _ & _).
        destruct (proj1 S2 Hselc) as [so_s Hsos].
        destruct (Hso' _ hs Hhost) as (_ & H2' & _ & _).
        destruct (proj1 H2' Hhconn) as [so_h Hsoh].
        assert (k0 ≠ hostID r1) as Hk0ne.
        { intros ->. rewrite Hhost in Hk0. injection Hk0 as <-. congruence. }
        destruct (startGame_run r1 hs sel hc k0 so_h so_s
                    Hhost Hhcol Hsoh Hsel Hk0 Hsos S1 Hk0ne L1)
          as (es2 & r2 & -> & Htrace2 & Hes2 & Hsess2 & Hidh & Hido & Hg2 & Hid2
              & Hfix2 & Hina2 & Hclk2).
        unfold emit. run_steps. eexists; split; [reflexivity|].
        split.
        { apply well_formed_logged; [done|].
          apply (well_formed_started r1 r2 hc k0 sel); try done.
          all: first [ by split; [exists hc|]
                     | unfold db_rows;
                       by rewrite Htrace2, omap_app, (messages_rows _ Hes2), app_nil_r ]. }
        rewrite unhandled_log, app_nil_r. unfold unhandled.
        by rewrite Htrace2, omap_app, (messages_errors _ Hes2), app_nil_r.
      * unfold emit. run_steps. eexists; split; [reflexivity|]. apply Hlog; [messages|].
        intros _ Hhost'. unfold connected_at in Hhost'. rewrite Hhost in Hhost'.
        simpl in Hhost'. congruence.
    + rewrite bool_decide_eq_false_2 by congruence.
      unfold emit. run_steps. eexists; split; [reflexivity|]. apply Hlog; [messages|].
      intros _ Hhost' k Hk. destruct (decide (k = hostID r1)) as [|Hne]; [done|].
      destruct H2. by apply (two_connected r1 k (hostID r1)).
  - assert (start_ok r1) as Hst' by (by intros ?).
    destruct (decide (gameStatus r1 = InProgress)) as [Hi|Hi];
      [rewrite (bool_decide_eq_true_2 _ Hi)|rewrite (bool_decide_eq_false_2 _ Hi)].
    + destruct (_ || _); unfold when, emit, subscribeToEvents, socket_on;
        run_steps; rewrite ?Hso1; run_steps; rewrite ?log_log;
        (eexists; split; [reflexivity|]); (apply Hlog; [messages|done]).
    + unfold emit. run_steps. eexists; split; [reflexivity|].
      apply Hlog; [messages|done].
Qed.

Lemma Connect_refused (so : Socket) (u : User) (r : Room) :
  isUserConnected r (uid u) = true →
  ChessServerRoom_acceptConnection so u r
  = (Throw (AlreadyConnectedError "You can not connect to the same room twice"), r).
Proof.
  intros Hc. unfold ChessServerRoom_acceptConnection, ServerRoom_acceptConnection.
  run_steps. rewrite Hc. by run_steps.
Qed.

Lemma well_formed_Connect (so : Socket) (u : User) (r : Room) :
  well_formed r → well_formed (step cfg r (Connect so u)).
Proof.
  intros Hwf. unfold step, handle.
  destruct (isUserConnected r (uid u)) eqn:Hc.
  - by rewrite Connect_refused.
  - by destruct (Connect_returns so u r Hwf Hc) as (r' & -> & ? & _).
Qed.

(** *** Every room that can be reached *)

Lemma step_well_formed (r : Room) (op : Op) :
  well_formed r → well_formed (step cfg r op).
Proof.
  destruct op.
  - apply well_formed_Connect.
  - apply well_formed_Disconnect.
  - apply well_formed_MakeMove.
  - apply well_formed_Resign.
  - apply well_formed_InactivityExpired.
  - apply well_formed_GraceExpired.
  - apply well_formed_ClockExpired.
  - apply well_formed_elapse.
Qed.

Lemma new_room_well_formed host rules id rnd1 rnd2 now1 now2 rc :
  well_formed (ChessServerRoom_new cfg host rules id rnd1 rnd2 now1 now2 rc).
Proof.
  unfold ChessServerRoom_new. cbv zeta.
  generalize (match hostPreferredColor rules with Some c => c | None => rc end).
  intros hc.
  split.
  { intros k s. simpl. intros [<- <-]%lookup_singleton_Some.
    split; [done|]. split; [by split; [|intros [? ?]]|].
    split; [by split; [eexists|]|done]. }
  split.
  { split; [simpl; unfold seat_at; simpl; rewrite lookup_singleton_eq; by eexists|].
    split.
    - intros k c. unfold seat_at. simpl.
      destruct (decide (k = uid host)) as [->|Hne].
      + rewrite lookup_singleton_eq. simpl. unfold seat. simpl.
        destruct hc, c; simpl; split; intros; congruence.
      + rewrite lookup_singleton_ne by done. simpl.
        destruct hc, c; simpl; split; intros; congruence.
    - simpl. split; [|done]. intros _. destruct hc; simpl; auto. }
  split.
  { split; [done|]. split; [done|]. split; [done|].
    split; [by split; intros [? ?]|]. split; [done|].
    split.
    - intros _. apply timers_quiet_intro; [done|done|].
      intros k s t. simpl. by intros [<- <-]%lookup_singleton_Some.
    - intros _. split; [done|]. intros k. unfold connected_at. simpl.
      destruct (decide (k = uid host)) as [->|Hne].
      + by rewrite lookup_singleton_eq.
      + by rewrite lookup_singleton_ne. }
  split.
  { intros _. unfold connected_at. simpl. by rewrite lookup_singleton_eq. }
  split; [done|]. split; [done|]. by left.
Qed.

Lemma run_well_formed (ops : list Op) (r : Room) :
  well_formed r → well_formed (run cfg ops r).
Proof.
  revert r. induction ops as [|op ops IH]; intros r Hr; [done|].
  simpl. apply IH. by apply step_well_formed.
Qed.

Lemma reachable_well_formed (r : Room) : reachable cfg r → well_formed r.
Proof.
  intros (host & rules & id & rnd1 & rnd2 & now1 & now2 & rc & ops & ->).
  apply run_well_formed, new_room_well_formed.
Qed.

(** ** What holds of every room that can be reached *)

(** X11. In every room that a new room can come to, a session is filed
    under the id of its user; it is marked connected exactly when it has a
    socket, and has a colour exactly when it is a player's; and a
    disconnect timer is bound to the session's own user, sits on the
    session of a player who is not connected, and counts down only while
    the game is in progress. *)
Theorem reachable_sessions_in_order (r : Room) (k : N) (s : MemberSession) :
  reachable cfg r → sessions r !! k = Some s →
  uid (user (member s)) = k
  ∧ (connected (state (member s)) = true ↔ is_Some (socket s))
  ∧ (isPlayer (state (member s)) = true ↔ is_Some (color (state (member s))))
  ∧ (∀ t, disconnectTimer s = Some t →
          callback t = CbDisconnect k
          ∧ connected (state (member s)) = false
          ∧ isPlayer (state (member s)) = true
          ∧ (isGoing t = true → gameStatus r = InProgress)).
Proof.
  intros Hreach Hk.
  destruct (reachable_well_formed r Hreach) as (Hso & _ & Hto & _).
  destruct (Hso k s Hk) as (S1 & S2 & S3 & S4).
  split; [done|]. split; [done|]. split; [done|].
  intros t Ht. destruct (S4 t Ht) as (? & ? & ?).
  split; [done|]. split; [done|]. split; [done|].
  intros Hgo. destruct (decide (gameStatus r = InProgress)) as [|Hne]; [done|].
  destruct Hto as (_ & _ & _ & _ & _ & Hq & _).
  destruct (Hq Hne) as (_ & _ & Hq'). by rewrite (Hq' k s t Hk Ht) in Hgo.
Qed.

(** X12. In every room that a new room can come to, the host has a
    session, is a player and holds the player id of the host's colour.
    Before the game the host is the only player and one player id is
    unset.  Once the game has been started both ids are set, to two
    different users who have sessions, the white one playing White and the
    black one Black, and nobody else is a player. *)
Theorem players_and_seats (r : Room) :
  reachable cfg r →
  (∃ hs hc, sessions r !! hostID r = Some hs
            ∧ isPlayer (state (member hs)) = true
            ∧ color (state (member hs)) = Some hc
            ∧ player_of hc r = Some (hostID r))
  ∧ (gameStatus r = NotStarted →
     (whitePlayerID r = None ∨ blackPlayerID r = None)
     ∧ ∀ k s, sessions r !! k = Some s → isPlayer (state (member s)) = true →
              k = hostID r)
  ∧ (gameStatus r ≠ NotStarted →
     ∃ w b sw sb,
       whitePlayerID r = Some w ∧ blackPlayerID r = Some b ∧ w ≠ b
       ∧ sessions r !! w = Some sw ∧ seat sw = Some White
       ∧ sessions r !! b = Some sb ∧ seat sb = Some Black
       ∧ ∀ k s, sessions r !! k = Some s → isPlayer (state (member s)) = true →
                k = w ∨ k = b).
Proof.
  intros Hreach.
  destruct (reachable_well_formed r Hreach) as (Hso & Hp & _).
  pose proof Hp as ([hc Hhc] & P2 & P3).
  assert (∀ k s, sessions r !! k = Some s → isPlayer (state (member s)) = true →
                 ∃ c, seat_at r k = Some c) as Hseat.
  { intros k s Hk Hpl. destruct (Hso k s Hk) as (_ & _ & S3 & _).
    destruct (proj1 S3 Hpl) as [c Hc]. exists c. apply seat_at_Some. by exists s. }
  split.
  { pose proof (proj1 (seat_at_Some _ _ _) Hhc) as (hs & ? & ? & ?).
    exists hs, hc. by repeat split; [..|apply P2]. }
  split.
  - intros Hs. destruct (lobby_players r hc Hp Hs Hhc) as (_ & _ & L3).
    split; [by apply P3|]. intros k s Hk Hpl.
    destruct (Hseat k s Hk Hpl) as [c Hc]. by apply (L3 k c).
  - intros Hs.
    destruct (whitePlayerID r) as [w|] eqn:Hw; [|destruct Hs; apply P3; by left].
    destruct (blackPlayerID r) as [b|] eqn:Hb; [|destruct Hs; apply P3; by right].
    assert (seat_at r w = Some White) as Hsw by (by apply P2).
    assert (seat_at r b = Some Black) as Hsb by (by apply P2).
    unfold seat_at in Hsw, Hsb.
    destruct (sessions r !! w) as [sw|] eqn:Hkw; [|done].
    destruct (sessions r !! b) as [sb|] eqn:Hkb; [|done].
    exists w, b, sw, sb. split; [done|]. split; [done|].
    split; [intros ->; simpl in *; congruence|].
    split; [done|]. split; [done|]. split; [done|]. split; [done|].
    intros k s Hk Hpl. destruct (Hseat k s Hk Hpl) as [c Hc].
    apply P2 in Hc. destruct c; simpl in Hc; [left|right]; congruence.
Qed.

(** X13. In every room that a new room can come to, the getter [host]
    returns, and what it returns is the user whose id is [hostID]. *)
Theorem host_is_always_there (r : Room) :
  reachable cfg r → ∃ u, host r = (Ok u, r) ∧ uid u = hostID r.
Proof.
  intros Hreach.
  destruct (reachable_well_formed r Hreach) as (Hso & ([hc Hhc] & _) & _).
  apply seat_at_Some in Hhc as (hs & Hk & _).
  exists (user (member hs)). split.
  - unfold host. run_steps. done.
  - by destruct (Hso _ hs Hk).
Qed.


(** X15. In every room that a new room can come to, once the host and at
    least one more member are connected the game has been started. *)
Theorem game_starts_with_host_and_guest (r : Room) :
  reachable cfg r →
  isUserConnected r (hostID r) = true →
  2 ≤ numberOfConnectedMembers r →
  gameStatus r ≠ NotStarted.
Proof.
  intros Hreach Hhost Hn Hs.
  destruct (reachable_well_formed r Hreach) as (_ & _ & _ & Hst & _).
  destruct (another_connected r (hostID r) Hn) as (k & Hne & Hk).
  apply Hne, Hst; [done| |done]. by apply isUserConnected_connected_at.
Qed.


(** X17. In every room that a new room can come to, the room's own
    [winnerId] is still the 0 of the constructor unless the game ended in a
    checkmate, and where it is not 0 it is the winner of the game state.
    So after a resignation, a clock running out or a player's quitting
    [getWinnerId] looks for the session of user 0. *)
Theorem winnerId_is_set_by_checkmate_only (r : Room) :
  reachable cfg r →
  (resolution (_gameState r) ≠ Some Checkmate → winnerId r = Some 0%N)
  ∧ (winnerId r ≠ Some 0%N →
     resolution (_gameState r) = Some Checkmate
     ∧ winnerId r = winnerID (_gameState r)).
Proof.
  intros Hreach.
  destruct (reachable_well_formed r Hreach) as (_ & _ & _ & _ & (_ & _ & R3)).
  split.
  - intros Hne. by destruct R3 as [?|[? _]].
  - intros Hne. by destruct R3 as [?|?].
Qed.

(** ** After the end *)





(** ** Handlers are all or nothing *)

Lemma detached_returns (m : M unit) (r : Room) :
  ∃ r', detached m r = (Ok tt, r').
Proof. unfold detached. destruct (m r) as [[?|?] ?]; by eexists. Qed.

Lemma returns_as_step (op : Op) (r : Room) :
  (handle cfg op r).1 = Ok tt → handle cfg op r = (Ok tt, step cfg r op).
Proof. unfold step. by destruct (handle cfg op r) as [? ?]; simpl; intros ->. Qed.

Lemma well_formed_outcome (r : Room) (op : Op) :
  well_formed r →
  handle cfg op r
  = match refusal r op with
    | Some e => (Throw e, r)
    | None => (Ok tt, step cfg r op)
    end.
Proof.
  intros Hwf. pose proof Hwf as (Hso & Hp & Hto & _ & Hr).
  destruct op as [so u|userID reason|move mcolor|rcolor| |userID|side|d];
    cbn [refusal].
  - destruct (isUserConnected r (uid u)) eqn:Hc.
    + by apply Connect_refused.
    + apply returns_as_step. unfold handle.
      by destruct (Connect_returns so u r Hwf Hc) as (r' & -> & _).
  - destruct (sessions r !! userID) as [s|] eqn:Hk.
    + apply returns_as_step. unfold handle.
      destruct (isPlayer (state (member s))) eqn:Hpl.
      * destruct (handleDisconnect_player_run userID reason r s Hk Hpl)
          as (es & r1 & -> & _).
        by rewrite checkInactivity_run.
      * destruct (handleDisconnect_spectator_run userID reason r s Hk Hpl)
          as (es & -> & _).
        by rewrite checkInactivity_run.
    + unfold handle, handleDisconnect, session_at. run_steps.
      cbn [mbind option_bind]. rewrite Hk. by run_steps.
  - unfold gameStatus.
    destruct (decide (status (_gameState r) = InProgress)) as [Hs|Hs].
    2: { rewrite (bool_decide_eq_true_2 _ Hs). unfold handle, handleMove.
         run_steps. by rewrite (bool_decide_eq_true_2 _ Hs). }
    rewrite bool_decide_eq_false_2 by (intros H; by apply H).
    destruct (decide (Chess_turn (chess r) = mcolor)) as [Hturn|Hturn].
    2: { rewrite (bool_decide_eq_true_2 _ Hturn). unfold handle, handleMove.
         run_steps. rewrite bool_decide_eq_false_2 by (intros H; by apply H).
         by rewrite (bool_decide_eq_true_2 _ Hturn). }
    rewrite bool_decide_eq_false_2 by (intros H; by apply H).
    destruct (Chess_move (chess r) move) as [c'|] eqn:Hmove.
    2: { unfold handle, handleMove. run_steps.
         rewrite bool_decide_eq_false_2 by (intros H; by apply H).
         rewrite bool_decide_eq_false_2 by (intros H; by apply H).
         by rewrite Hmove. }
    apply returns_as_step. unfold handle.
    destruct (handleMove_accepted move mcolor r c' Hs Hturn Hmove)
      as (es & x & -> & _).
    { destruct Hto as (_ & _ & _ & T4 & T5 & _). intros Ht.
      assert (is_Some (whiteTimer r)) as Hsome by (by apply T5).
      split; [done|]. by apply T4. }
    cut (∃ r', (finished ← ChessServerRoom_isFinishCond;
                when finished (detached (ChessServerRoom_checkGameEnd cfg))) x
               = (Ok tt, r')).
    { by intros [r' ->]. }
    unfold ChessServerRoom_isFinishCond, when.
    run_steps.
    destruct (Chess_isCheckmate (chess x));
      [|destruct (Chess_isStalemate (chess x));
        [|destruct (Chess_isDraw (chess x))]].
    all: run_steps.
    all: try match goal with
             | |- context [detached ?m ?y] =>
                 destruct (detached_returns m y) as [? ->]
             end.
    all: by eexists.
  - apply returns_as_step. unfold handle, detached.
    by destruct (handleGiveUp cfg rcolor r) as [[?|?] ?].
  - apply returns_as_step. by rewrite InactivityExpired_run by apply Hto.
  - apply returns_as_step.
    destruct (sessions r !! userID) as [s|] eqn:Hk;
      [|by rewrite GraceExpired_idle by (intros ? ? ?; congruence)].
    destruct (disconnectTimer s) as [t|] eqn:Ht;
      [|by rewrite GraceExpired_idle by (intros ? ? ? ?; congruence)].
    destruct (isGoing t) eqn:Hgo;
      [|by rewrite GraceExpired_idle by (intros ? ? ? ?; congruence)].
    destruct (GraceExpired_fires userID r s t Hwf Hk Ht Hgo) as (x & -> & _).
    unfold detached.
    by destruct (ChessServerRoom_handleDisconnectTimeout _ _) as [[?|?] ?].
  - apply returns_as_step.
    destruct (player_clock side r) as [t|] eqn:Ht;
      [|by rewrite ClockExpired_idle by (intros ? ?; congruence)].
    destruct (isGoing t) eqn:Hgo;
      [|by rewrite ClockExpired_idle by (intros ? ?; congruence)].
    destruct (ClockExpired_fires side r t Hwf Ht Hgo)
      as (x & w' & b' & -> & _ & _ & Hw' & Hb' & _).
    by destruct (handleTimerOut_run side x w' b' Hw' Hb') as (es & row & -> & _).
  - done.
Qed.

(** X19. In every room that a new room can come to, a handler is all or
    nothing.  It turns the event away — a connection of a user who is
    connected already, a disconnection of a user who has no session, a move
    outside a game in progress, out of turn or against the rules — and then
    the room is exactly as it was; or it returns.  Nothing else makes
    [acceptConnection], [handleDisconnect], [handleMove], [handleTimerOut]
    or [handleInactivityTimeout] throw: none of the accesses that they mark
    as non-null meets a missing session, socket or clock. *)
Theorem handlers_are_all_or_nothing (r : Room) (op : Op) :
  reachable cfg r →
  handle cfg op r
  = match refusal r op with
    | Some e => (Throw e, r)
    | None => (Ok tt, step cfg r op)
    end.
Proof. intros Hreach. by apply well_formed_outcome, reachable_well_formed. Qed.



(** ** Promises that nobody awaits *)

Lemma unhandled_ended res w es row (r : Room) :
  Forall message es →
  unhandled (log (es ++ [DbCreate row]) (ended res w r)) = unhandled r.
Proof.
  intros Hes. rewrite unhandled_log, omap_app, (messages_errors _ Hes).
  simpl. by rewrite app_nil_r.
Qed.

Lemma unhandled_checkInactivity (r : Room) :
  unhandled (checkInactivity cfg r).2 = unhandled r.
Proof.
  rewrite checkInactivity_run. cbn [snd].
  repeat (destruct (bool_decide _)); try done.
  by rewrite unhandled_log, app_nil_r.
Qed.

Lemma step_unhandled (r : Room) (op : Op) :
  well_formed r → unhandled (step cfg r op) = unhandled r.
Proof.
  intros Hwf. pose proof Hwf as (Hso & Hp & Hto & Hst & Hr).
  destruct op as [so u|userID reason|move mcolor|rcolor| |userID|side|d];
    unfold step.
  - unfold handle. destruct (isUserConnected r (uid u)) eqn:Hc.
    + by rewrite Connect_refused.
    + by destruct (Connect_returns so u r Hwf Hc) as (r' & -> & _ & ?).
  - unfold handle. destruct (sessions r !! userID) as [s|] eqn:Hk.
    2: { unfold handleDisconnect, session_at. run_steps.
         cbn [mbind option_bind]. rewrite Hk. by run_steps. }
    destruct (isPlayer (state (member s))) eqn:Hpl.
    + destruct (handleDisconnect_player_run userID reason r s Hk Hpl)
        as (es & r1 & -> & Htrace & Hes & _).
      rewrite unhandled_checkInactivity. unfold unhandled.
      by rewrite Htrace, omap_app, (messages_errors _ Hes), app_nil_r.
    + destruct (handleDisconnect_spectator_run userID reason r s Hk Hpl)
        as (es & -> & Hes).
      rewrite unhandled_checkInactivity, unhandled_log.
      by rewrite (messages_errors _ Hes), app_nil_r.
  - unfold handle.
    destruct (decide (status (_gameState r) = InProgress)) as [Hs|Hs].
    2: { unfold handleMove. run_steps. by rewrite (bool_decide_eq_true_2 _ Hs). }
    destruct (decide (Chess_turn (chess r) = mcolor)) as [Hturn|Hturn].
    2: { unfold handleMove. run_steps.
         rewrite bool_decide_eq_false_2 by (intros H; by apply H).
         by rewrite (bool_decide_eq_true_2 _ Hturn). }
    destruct (Chess_move (chess r) move) as [c'|] eqn:Hmove.
    2: { unfold handleMove. run_steps.
         rewrite bool_decide_eq_false_2 by (intros H; by apply H).
         rewrite bool_decide_eq_false_2 by (intros H; by apply H).
         by rewrite Hmove. }
    destruct (handleMove_accepted move mcolor r c' Hs Hturn Hmove)
      as (es & x & -> & Htrace & Hes & _ & _ & Hg & _).
    { destruct Hto as (_ & _ & _ & T4 & T5 & _). intros Ht.
      assert (is_Some (whiteTimer r)) as Hsome by (by apply T5).
      split; [done|]. by apply T4. }
    assert (unhandled x = unhandled r) as Hx.
    { unfold unhandled. by rewrite Htrace, omap_app, (messages_errors _ Hes), app_nil_r. }
    assert (winnerID (_gameState x) = None) as Hnone.
    { rewrite Hg. destruct Hr as [H _]. apply H. unfold gameStatus. congruence. }
    destruct (Chess_isCheckmate (chess x)) eqn:H1;
      [|destruct (Chess_isStalemate (chess x)) eqn:H2;
        [|destruct (Chess_isDraw (chess x)) eqn:H3]].
    4: by rewrite finish_check_idle.
    all: destruct (finish_check_run x Hnone)
           as (r' & res & row & -> & _ & _ & _ & _ & _ & _ & _ & _ & _ & _ & _ & Hun & _);
           [tauto|].
    all: cbn [snd]; congruence.
  - unfold handle, detached.
    destruct (decide (gameStatus r = InProgress)) as [Hs|Hs].
    + destruct (handleGiveUp_run rcolor r Hs) as (es & row & -> & Hes & _).
      cbn [snd]. by apply unhandled_ended.
    + by rewrite (handleGiveUp_idle rcolor r Hs).
  - rewrite InactivityExpired_run by apply Hto. cbn [snd].
    destruct (isGoing (inactivityTimer r)); [|done].
    by rewrite unhandled_log, app_nil_r.
  - destruct (sessions r !! userID) as [s|] eqn:Hk;
      [|by rewrite GraceExpired_idle by (intros ? ? ?; congruence)].
    destruct (disconnectTimer s) as [t|] eqn:Ht;
      [|by rewrite GraceExpired_idle by (intros ? ? ? ?; congruence)].
    destruct (isGoing t) eqn:Hgo;
      [|by rewrite GraceExpired_idle by (intros ? ? ? ?; congruence)].
    destruct (GraceExpired_fires userID r s t Hwf Hk Ht Hgo)
      as (x & -> & _ & _ & Htrace).
    unfold detached.
    destruct (handleDisconnectTimeout_run userID x) as (es & row & -> & Hes & _).
    cbn [snd]. rewrite (unhandled_ended _ _ _ _ _ Hes). unfold unhandled.
    by rewrite Htrace.
  - destruct (player_clock side r) as [t|] eqn:Ht;
      [|by rewrite ClockExpired_idle by (intros ? ?; congruence)].
    destruct (isGoing t) eqn:Hgo;
      [|by rewrite ClockExpired_idle by (intros ? ?; congruence)].
    destruct (ClockExpired_fires side r t Hwf Ht Hgo)
      as (x & w' & b' & -> & _ & _ & Hw' & Hb' & Htrace).
    destruct (handleTimerOut_run side x w' b' Hw' Hb') as (es & row & -> & Hes & _).
    cbn [snd]. rewrite (unhandled_ended _ _ _ _ _ Hes). unfold unhandled.
    by rewrite Htrace.
  - done.
Qed.

Lemma run_unhandled (ops : list Op) (r : Room) :
  well_formed r → unhandled (run cfg ops r) = unhandled r.
Proof.
  revert r. induction ops as [|op ops IH]; intros r Hwf; [done|].
  change (run cfg (op :: ops) r) with (run cfg ops (step cfg r op)).
  rewrite IH by (by apply step_well_formed). by apply step_unhandled.
Qed.

(** X20. No promise is rejected behind the room's back.  The room starts
    three [async] methods and drops their promises: [handleGiveUp] in the
    listener of "giveUp", [handleDisconnectTimeout] in the callback of a
    disconnect timer, and [checkGameEnd], in [handleMove] and once more
    where the override calls the method of the base class.  In every room
    that a new room can come to none of these calls has failed: [saveGame]
    has only been reached in a finished game, and the sessions, players
    and clocks that the methods read were there.  (The write to the
    database is an effect here; it does not fail.) *)
Theorem no_promise_is_rejected (r : Room) (e : Error) :
  reachable cfg r → Unhandled e ∉ trace r.
Proof.
  intros (host & rules & id & rnd1 & rnd2 & now1 & now2 & rc & ops & ->) Hin.
  assert (unhandled (run cfg ops
            (ChessServerRoom_new cfg host rules id rnd1 rnd2 now1 now2 rc)) = [])
    as Hnone.
  { by rewrite run_unhandled by apply new_room_well_formed. }
  assert (e ∈ unhandled (run cfg ops
            (ChessServerRoom_new cfg host rules id rnd1 rnd2 now1 now2 rc))) as He.
  { unfold unhandled. apply list_elem_of_omap. by exists (Unhandled e). }
  rewrite Hnone in He. by apply elem_of_nil in He.
Qed.



(** ** Who is connected, and who is told *)

Lemma connectedUsers_keys (r : Room) :
  sessions_ok r → uid <$> connectedUsers r = (connectedSessions r).*1.
Proof.
  intros Hso. unfold connectedUsers. rewrite <- list_fmap_compose.
  apply Forall_fmap_ext, list.Forall_forall. intros [k s] Hin.
  apply elem_of_connectedSessions in Hin as [Hk _].
  by destruct (Hso k s Hk) as (Hu & _).
Qed.

(** X21. In every room that a new room can come to, [connectedUsers] names
    no user twice and has as many entries as [numberOfConnectedMembers]
    counts; a user is in the list exactly when the session filed under the
    user's id is this user's and is marked connected, and
    [isUserConnected] answers for an id as the list does. *)
Theorem connectedUsers_are_the_connected (r : Room) :
  reachable cfg r →
  NoDup (uid <$> connectedUsers r)
  ∧ length (connectedUsers r) = numberOfConnectedMembers r
  ∧ (∀ u, u ∈ connectedUsers r
          ↔ ∃ s, sessions r !! uid u = Some s ∧ user (member s) = u
                 ∧ connected (state (member s)) = true)
  ∧ (∀ k, isUserConnected r k = true ↔ k ∈ uid <$> connectedUsers r).
Proof.
  intros Hreach. destruct (reachable_well_formed r Hreach) as (Hso & _).
  split; [rewrite (connectedUsers_keys r Hso); apply NoDup_keys_connectedSessions|].
  split; [unfold connectedUsers, numberOfConnectedMembers; by rewrite length_fmap|].
  split.
  - intros u. unfold connectedUsers. rewrite list_elem_of_fmap. split.
    + intros ([k s] & -> & Hin). apply elem_of_connectedSessions in Hin as [Hk Hc].
      destruct (Hso k s Hk) as (Hu & _). exists s. simpl. by rewrite Hu.
    + intros (s & Hk & Hu & Hc). exists (uid u, s). split; [done|].
      by apply elem_of_connectedSessions.
  - intros k. rewrite (connectedUsers_keys r Hso), isUserConnected_connected_at,
      connected_at_connectedSessions, list_elem_of_fmap.
    split.
    + intros [s Hin]. by exists (k, s).
    + intros ([k' s] & -> & Hin). by exists s.
Qed.

Lemma length_omap_filter {A B : Type} (f : A → option B) (p : A → bool) (l : list A) :
  Forall (λ x, is_Some (f x) ↔ p x = true) l →
  length (omap f l) = length (filter (λ x, p x) l).
Proof.
  induction 1 as [|x l Hx _ IH]; [done|]. simpl. rewrite filter_cons.
  destruct (f x) as [y|] eqn:E.
  - assert (p x = true) as Hp by (apply Hx; by eexists).
    rewrite decide_True by (by rewrite Hp). simpl. f_equal. exact IH.
  - assert (p x = false) as Hp.
    { destruct (p x) eqn:Hp; [|done]. destruct (proj2 Hx eq_refl). done. }
    rewrite decide_False by (simpl; rewrite Hp; by intros []). exact IH.
Qed.

(** X22. In every room that a new room can come to, [broadcast] sends the
    event to the socket of every member that is marked connected, once,
    and to no other socket: what it sends is as many messages as
    [numberOfConnectedMembers] counts.  [broadcastExcept] does the same
    but for the given user.  Neither changes anything else in the room,
    and neither throws. *)
Theorem broadcast_reaches_the_connected (r : Room) (ev : ServerEvent) (userID : N) :
  reachable cfg r →
  ∃ es es',
    broadcast ev r = (Ok tt, log es r)
    ∧ broadcastExcept userID ev r = (Ok tt, log es' r)
    ∧ length es = numberOfConnectedMembers r
    ∧ (∀ e, e ∈ es
            ↔ ∃ k s so, sessions r !! k = Some s
                        ∧ connected (state (member s)) = true
                        ∧ socket s = Some so ∧ e = SocketEmit so ev)
    ∧ (∀ e, e ∈ es'
            ↔ ∃ k s so, k ≠ userID ∧ sessions r !! k = Some s
                        ∧ connected (state (member s)) = true
                        ∧ socket s = Some so ∧ e = SocketEmit so ev).
Proof.
  intros Hreach. destruct (reachable_well_formed r Hreach) as (Hso & _).
  eexists _, _. split; [apply broadcast_run|]. split; [reflexivity|].
  split; [|split].
  - unfold numberOfConnectedMembers, connectedSessions.
    apply (length_omap_filter _ (λ e, connected (state (member e.2)))).
    apply list.Forall_forall. intros [k s] Hin. apply elem_of_Object_entries in Hin.
    destruct (Hso k s Hin) as (_ & S2 & _). simpl. rewrite S2.
    destruct (socket s); simpl;
      [split; intros _; by eexists|split; intros [? [=]]].
  - intros e. rewrite list_elem_of_omap. split.
    + intros ([k s] & Hin & He). apply elem_of_Object_entries in Hin. simpl in He.
      destruct (socket s) as [so|] eqn:Hsock; [|done]. injection He as <-.
      exists k, s, so. destruct (Hso k s Hin) as (_ & S2 & _).
      split; [done|]. split; [apply S2; by eexists|done].
    + intros (k & s & so & Hk & _ & Hsock & ->). exists (k, s).
      split; [by apply elem_of_Object_entries|]. simpl. by rewrite Hsock.
  - intros e. rewrite list_elem_of_omap. split.
    + intros ([k s] & Hin & He). apply elem_of_Object_entries in Hin. simpl in He.
      destruct (Hso k s Hin) as (Hu & S2 & _).
      destruct (decide (uid (user (member s)) ≠ userID)) as [Hne|Heq].
      * rewrite bool_decide_eq_true_2 in He by done.
        destruct (socket s) as [so|] eqn:Hsock; [|done]. injection He as <-.
        exists k, s, so. split; [congruence|]. split; [done|].
        split; [apply S2; by eexists|done].
      * by rewrite bool_decide_eq_false_2 in He.
    + intros (k & s & so & Hne & Hk & _ & Hsock & ->). exists (k, s).
      split; [by apply elem_of_Object_entries|]. simpl.
      destruct (Hso k s Hk) as (Hu & _).
      rewrite bool_decide_eq_true_2 by congruence. by rewrite Hsock.
Qed.

(** ** Coming back *)

(** A connection that does not start the game. *)
Lemma Connect_without_start (so : Socket) (u : User) (r r1 : Room) :
  ServerRoom_acceptConnection ChessServerRoom_gameState so u r = (Ok tt, r1) →
  (gameStatus r1 = NotStarted → numberOfConnectedMembers r1 < 2) →
  (gameStatus r1 = InProgress →
   ∃ s, sessions r1 !! uid u = Some s ∧ is_Some (socket s)) →
  ∃ es, ChessServerRoom_acceptConnection so u r = (Ok tt, log es r1)
        ∧ Forall message es.
Proof.
  intros Hrun Hlobby Hgame. unfold ChessServerRoom_acceptConnection.
  rewrite run_bind, Hrun. cbv beta iota. run_steps.
  change (status (_gameState r1)) with (gameStatus r1).
  destruct (decide (gameStatus r1 = NotStarted)) as [Hn|Hn].
  - rewrite (bool_decide_eq_true_2 _ Hn).
    rewrite bool_decide_eq_false_2 by (specialize (Hlobby Hn); lia).
    cbn [andb]. rewrite bool_decide_eq_false_2 by congruence.
    unfold emit. run_steps. eexists. split; [reflexivity|]. messages.
  - rewrite (bool_decide_eq_false_2 _ Hn). cbn [andb].
    destruct (decide (gameStatus r1 = InProgress)) as [Hi|Hi].
    + rewrite (bool_decide_eq_true_2 _ Hi).
      destruct (Hgame Hi) as (s & Hk & [so' Hsock]).
      destruct (_ || _); unfold when, emit, subscribeToEvents, socket_on, session_at;
        run_steps; cbn [mbind option_bind]; rewrite ?Hk; run_steps;
        rewrite ?Hsock; run_steps; rewrite ?log_log;
        (eexists; split; [reflexivity|]); messages.
    + rewrite (bool_decide_eq_false_2 _ Hi).
      unfold emit. run_steps. eexists. split; [reflexivity|]. messages.
Qed.

(** X23. A player who loses the connection and comes back finds the seat
    as it was.  In a room that a new room can come to, let a connected
    player's socket be disconnected, let time pass without a timer running
    out, and let the same user connect on a new socket.  The room is then
    as if only the time had passed, but for the player's socket: the
    session is the old one on the new socket (same user, seat, colour and
    join time, connected, no disconnect timer left), all other sessions,
    the game state and result, the position, the player ids, both clocks
    and the rows written are the same.  No game is started or ended by
    it. *)
Theorem reconnection_gives_the_seat_back (r : Room) (u : User) (s : MemberSession)
    (so : Socket) (reason : string) (d : N) :
  reachable cfg r →
  sessions r !! uid u = Some s →
  connected (state (member s)) = true →
  isPlayer (state (member s)) = true →
  let r' := run cfg [Disconnect (uid u) reason; Elapse d; Connect so u] r in
  let r0 := run cfg [Elapse d] r in
  sessions r' = <[uid u := with_socket (Some so) s]> (sessions r0)
  ∧ result_view r' = result_view r0
  ∧ clock_view r' = clock_view r0
  ∧ db_rows r' = db_rows r0.
Proof.
  intros Hreach Hk Hc Hpl. pose proof (reachable_well_formed r Hreach) as Hwf.
  pose proof Hwf as (Hso & Hp & Hto & Hst & Hr).
  destruct (Hso _ s Hk) as (S1 & S2 & S3 & S4).
  assert (disconnectTimer s = None) as Hnt.
  { destruct (disconnectTimer s) as [t|] eqn:Ht; [|done].
    destruct (S4 t eq_refl) as (_ & ? & _). congruence. }
  cbn [run foldl]. set (k := uid u) in *.
  (* the disconnection *)
  assert (∃ rD sD,
            step cfg r (Disconnect k reason) = rD
            ∧ sessions rD = <[k := sD]> (sessions r)
            ∧ member sD = {| user := user (member s);
                             state := MemberState_connect false (state (member s)) |}
            ∧ joined sD = joined s
            ∧ result_view rD = result_view r ∧ clock_view rD = clock_view r
            ∧ db_rows rD = db_rows r)
    as (rD & sD & HD & HsessD & HmemD & HjoinD & HresD & HclkD & HdbD).
  { unfold step at 1. unfold handle.
    destruct (handleDisconnect_player_run k reason r s Hk Hpl)
      as (es & r1 & -> & Htrace & Hes%messages_rows & Hres & Hclk & _ & Hsess & _).
    destruct (checkInactivity_frame r1) as (_ & F1 & F2 & F3 & F4).
    eexists _, _. split; [reflexivity|].
    split; [by rewrite F1, Hsess|].
    split; [by destruct s as [[? ?] ? ? ?]|]. split; [done|].
    split; [by rewrite F2|]. split; [by rewrite F3|].
    rewrite F4. unfold db_rows. by rewrite Htrace, omap_app, Hes, app_nil_r. }
  rewrite HD.
  assert (well_formed rD) as HwfD by (rewrite <- HD; by apply step_well_formed).
  (* the time that passes *)
  set (f := λ x, with_disconnectTimer
                   (PausableTimer_elapse (Z.of_N d) <$> disconnectTimer x) x).
  set (rE := step cfg rD (Elapse d)).
  set (r0 := step cfg r (Elapse d)).
  assert (sessions rE = f <$> sessions rD) as HsessE by done.
  assert (sessions r0 = f <$> sessions r) as Hsess0 by done.
  assert (result_view rE = result_view r0) as HresE by exact HresD.
  assert (clock_view rE = clock_view r0) as HclkE.
  { unfold rE, r0, step, handle. cbn [snd modify]. unfold clock_view. simpl.
    injection HclkD as -> ->. done. }
  assert (db_rows rE = db_rows r0) as HdbE by exact HdbD.
  assert (well_formed rE) as HwfE by (by apply step_well_formed).
  assert (well_formed r0) as Hwf0 by (by apply step_well_formed).
  assert (sessions rE !! k = Some (f sD)) as HkE.
  { by rewrite HsessE, lookup_fmap, HsessD, lookup_insert_eq. }
  (* the connection *)
  assert (isUserConnected rE k = false) as HncE.
  { unfold isUserConnected. rewrite HkE. simpl. by rewrite HmemD. }
  destruct (ServerRoom_acceptConnection_run so u rE HncE)
    as (es & r2 & Hrun & Htrace & Hes%messages_rows & Hres2 & Hclk2 & _ & _
        & Hsess2 & _).
  fold k in Hsess2. rewrite HkE in Hsess2.
  set (s2 := with_disconnectTimer None _) in Hsess2.
  assert (s2 = with_socket (Some so) s) as Hs2.
  { unfold s2, f, with_disconnectTimer, with_state, with_socket. simpl.
    rewrite HmemD, HjoinD.
    destruct s as [[us [c p col]] sk j dt]. simpl in *. by subst. }
  assert (sessions r2 = <[k := with_socket (Some so) s]> (sessions r0)) as Hsessions.
  { rewrite Hsess2, Hs2, HsessE, Hsess0, HsessD, fmap_insert.
    by rewrite insert_insert_eq. }
  assert (∀ i, connected_at r2 i = connected_at r i) as Hconn.
  { intros i. unfold connected_at. rewrite Hsessions, Hsess0.
    destruct (decide (k = i)) as [<-|Hne].
    - rewrite lookup_insert_eq, Hk. simpl. by rewrite Hc.
    - rewrite lookup_insert_ne by done. rewrite lookup_fmap.
      by destruct (sessions r !! i). }
  assert (gameStatus r2 = gameStatus r) as Hstatus.
  { unfold gameStatus. injection Hres2 as -> _. injection HresE as -> _. done. }
  destruct (Connect_without_start so u rE r2 Hrun) as (es' & Hfin & Hes').
  { rewrite Hstatus. intros Hn.
    destruct (decide (2 ≤ numberOfConnectedMembers r2)) as [H2|]; [|lia].
    exfalso. destruct (another_connected r2 k H2) as (k' & Hne & Hk').
    rewrite Hconn in Hk'.
    destruct (proj1 S3 Hpl) as [c Hcol].
    assert (seat_at r k = Some c) as Hseat.
    { apply seat_at_Some. by exists s. }
    destruct Hp as ([hc Hhc] & P2 & P3).
    destruct (lobby_players r hc (conj (ex_intro _ hc Hhc) (conj P2 P3)) Hn Hhc)
      as (_ & _ & L3).
    assert (k = hostID r) as Hhost by (by apply (L3 k c)).
    apply Hne. rewrite Hhost. apply (Hst Hn); [|done].
    rewrite <- Hhost. unfold connected_at. rewrite Hk. simpl. by rewrite Hc. }
  { intros _. exists (with_socket (Some so) s). fold k.
    rewrite Hsessions, lookup_insert_eq. split; [done|]. by eexists. }
  assert (step cfg rE (Connect so u) = log es' r2) as ->
    by (unfold step, handle; by rewrite Hfin).
  split; [done|]. split; [by rewrite <- HresE, <- Hres2|].
  split; [by rewrite <- HclkE, <- Hclk2|].
  rewrite db_rows_log, (messages_rows _ Hes'), app_nil_r, <- HdbE.
  unfold db_rows. by rewrite Htrace, omap_app, Hes, app_nil_r.
Qed.



End Proofs.

(** * The theorems at work on the concrete room *)

Section Scenario.

#[local] Existing Instance ScriptedOracle.

Lemma started_reachable : reachable Demo.cfg Demo.started.
Proof.
  exists Demo.alice, Demo.rules, (Some "room"), "x", "y", 0%Z, 0%Z, Black,
    [Connect 100%N Demo.alice; Elapse 10; Connect 101%N Demo.bob].
  vm_compute. reflexivity.
Qed.

Lemma stalemated_reachable : reachable Demo.cfg Demo.stalemated.
Proof.
  exists Demo.alice, Demo.rules, (Some "room"), "x", "y", 0%Z, 0%Z, Black,
    [Connect 100%N Demo.alice; Elapse 10; Connect 101%N Demo.bob;
     MakeMove (O:=ScriptedOracle) Stalemating White].
  vm_compute. reflexivity.
Qed.

(** The game starts when the host comes in, and the opponent is Bob, who
    joined before Carol. *)
Lemma selectOpponent_takes_earliest_joined_witness :
  ∃ k selected,
    selectedSession Demo.lobby_with_host = Some (k, selected)
    ∧ uid (user (member selected)) = 2%N
    ∧ blackPlayerID (selectOpponent Demo.lobby_with_host).2 = Some 2%N.
Proof.
  edestruct (selectOpponent_takes_earliest_joined Demo.lobby_with_host)
    as (k & selected & Hsel & _ & _ & _ & _ & _ & Hid & _).
  - vm_compute. reflexivity.
  - vm_compute. reflexivity.
  - vm_compute. discriminate.
  - exists k, selected. split; [exact Hsel|].
    assert (uid (user (member selected)) = 2%N) as Hu.
    { revert Hsel. vm_compute. intros [= <- <-]. reflexivity. }
    split; [exact Hu|].
    rewrite <- Hu. exact Hid.
Defined.

(** Claim C1 as the specification has it fails: Carol joined after Bob, and
    Bob is taken. *)
Lemma selectOpponent_joined_last_counterexample :
  ∃ k selected,
    selectedSession Demo.lobby_with_host = Some (k, selected)
    ∧ ¬ joined_last Demo.lobby_with_host selected.
Proof.
  eexists _, _. split; [vm_compute; reflexivity|].
  intros H.
  assert (∃ s, (3%N, s) ∈ nonPlayerSessions Demo.lobby_with_host
               ∧ joined s = 15%Z) as (s & Hin & Hs).
  { eexists. split; [|shelve].
    apply elem_of_nonPlayerSessions. vm_compute. repeat split; reflexivity.
    Unshelve. reflexivity. }
  specialize (H 3%N s Hin). rewrite Hs in H. vm_compute in H. by apply H.
Qed.

(** White's first move in the scenario. *)
Lemma accepted_move_switches_clocks_witness :
  let r' := (handleMove (O:=ScriptedOracle) Demo.cfg Quiet White Demo.before_white).2 in
  clock_time (whiteTimer Demo.before_white) = Some 299000%Z
  ∧ clock_time (whiteTimer r') = Some 304000%Z
  ∧ clock_going (whiteTimer r') = false
  ∧ clock_going (blackTimer r') = true.
Proof.
  intros r'.
  destruct (accepted_move_switches_clocks (O:=ScriptedOracle)
              Demo.cfg Quiet White Demo.before_white
              {| sp_turn := Black; sp_last := Some Quiet; sp_count := 1 |}
              {| timeLeft := Some 299000%Z; isGoing := true;
                 callback := CbClock White |}
              {| timeLeft := Some 300000%Z; isGoing := false;
                 callback := CbClock Black |}
              5%Z)
    as (_ & w' & b' & Hw & Hb & Hgw & Htw & Hgb & _).
  1-11: vm_compute; reflexivity.
  unfold r'. rewrite Hw, Hb.
  change (clock_time (Some w')) with (timeLeft w').
  change (clock_going (Some w')) with (isGoing w').
  change (clock_going (Some b')) with (isGoing b').
  rewrite Hgw, Hgb, Htw.
  split; [vm_compute; reflexivity|]. split; [reflexivity|]. split; reflexivity.
Defined.

(** Claim C3 as the specification has it fails on both counts: White's clock
    already has the increment after White's first move, and gains nothing at
    Black's answer. *)
Lemma first_move_increment_counterexample :
  ¬ no_increment_yet Demo.before_white Demo.after_white
  ∧ ¬ white_gains 5 Demo.before_black Demo.after_black.
Proof.
  split; intros H; vm_compute in H.
  - destruct H as [H _]. discriminate H.
  - discriminate H.
Qed.

(** Claim C2 at work: the room bears the id that the configuration marks as
    fake; White resigns; the base method returns at its guard, and the
    override hands a row to the database all the same. *)
Theorem fake_room_game_is_written_to_the_database :
  isFake Demo.fake_finished = true
  ∧ status (_gameState Demo.fake_finished) = Finished
  ∧ ServerRoom_saveGame Demo.fake_finished = (Ok tt, Demo.fake_finished)
  ∧ (∃ row, ChessServerRoom_saveGame Demo.fake_finished
            = (Ok tt, log [DbCreate row] Demo.fake_finished))
  ∧ (∃ row, list.last (trace Demo.fake_finished) = Some (DbCreate row)).
Proof.
  split; [vm_compute; reflexivity|].
  split; [vm_compute; reflexivity|].
  split; [apply ServerRoom_saveGame_finished; vm_compute; reflexivity|].
  split.
  - destruct (ChessServerRoom_saveGame_finished Demo.fake_finished) as (row & H & _).
    + vm_compute. reflexivity.
    + by exists row.
  - eexists. vm_compute. reflexivity.
Qed.

(** White mates on the first move. *)
Lemma terminal_move_resolves_witness :
  let r' := (handleMove (O:=ScriptedOracle) Demo.cfg Mating White Demo.started).2 in
  status (_gameState r') = Finished
  ∧ resolution (_gameState r') = Some Checkmate
  ∧ winnerID (_gameState r') = Some 1%N.
Proof.
  destruct (terminal_move_resolves (O:=ScriptedOracle)
              Demo.cfg Mating White Demo.started
              {| sp_turn := Black; sp_last := Some Mating; sp_count := 1 |})
    as (_ & H & _).
  - exact started_reachable.
  - vm_compute. reflexivity.
  - vm_compute. reflexivity.
  - vm_compute. reflexivity.
  - destruct H as (Hs & Hr & _ & Hw); [vm_compute; reflexivity|].
    split; [exact Hs|]. split; [exact Hr|].
    rewrite Hw; [vm_compute; reflexivity|vm_compute; reflexivity].
Defined.

(** Bob's grace period runs out. *)
Lemma disconnect_timeout_ends_game_witness :
  let r' := (ChessServerRoom_handleDisconnectTimeout 2%N Demo.bob_gone).2 in
  status (_gameState r') = Finished
  ∧ resolution (_gameState r') = Some PlayerQuit
  ∧ winnerID (_gameState r') = Some 1%N.
Proof.
  destruct (disconnect_timeout_ends_game Demo.cfg 2%N Demo.bob_gone)
    as (_ & (Hs & Hr & _ & Hw & _) & _).
  split; [exact Hs|]. split; [exact Hr|].
  rewrite Hw; [vm_compute; reflexivity|vm_compute; reflexivity|].
  vm_compute. discriminate.
Defined.

(** Black tries to move first. *)
Lemma handleMove_rejects_without_effect_witness :
  Chess_turn (chess Demo.started) ≠ Black
  ∧ ∃ msg, handleMove (O:=ScriptedOracle) Demo.cfg Quiet Black Demo.started
           = (Throw (IllegalMoveError msg), Demo.started).
Proof.
  assert (Chess_turn (chess Demo.started) ≠ Black) as H.
  { vm_compute. discriminate. }
  split; [exact H|].
  apply handleMove_rejects_without_effect. right. exact H.
Defined.

(** Alice connects a second time. *)
Lemma acceptConnection_already_connected_witness :
  ∃ msg, ChessServerRoom_acceptConnection 200%N Demo.alice Demo.started
         = (Throw (AlreadyConnectedError msg), Demo.started).
Proof.
  destruct (acceptConnection_already_connected 200%N Demo.alice Demo.started)
    as [H _].
  destruct H as [_ H]; [|exact H].
  eexists. split; vm_compute; reflexivity.
Defined.

(** A stalemate on the board: no user 0 in the room, and [getWinnerId]
    throws. *)
Lemma drawn_game_leaves_winnerId_zero_witness :
  resolution (_gameState Demo.stalemated) = Some Stalemate
  ∧ winnerId Demo.stalemated = Some 0%N
  ∧ getWinnerId Demo.stalemated = (Throw TypeError, Demo.stalemated).
Proof.
  assert (resolution (_gameState Demo.stalemated) = Some Stalemate) as Hres.
  { vm_compute. reflexivity. }
  destruct (drawn_game_leaves_winnerId_zero Demo.cfg Demo.stalemated)
    as (_ & Hw & _ & Hthrow & _).
  - exact stalemated_reachable.
  - left. exact Hres.
  - split; [exact Hres|]. split; [exact Hw|].
    apply Hthrow. vm_compute. reflexivity.
Defined.


(** The game of the scenario is not over, and it cannot be saved. *)
Lemma saveGame_before_the_end_throws_witness :
  ChessServerRoom_saveGame Demo.started
  = (Throw (PlainError "Game is not finished yet"), Demo.started).
Proof.
  destruct (saveGame_before_the_end_throws Demo.started) as [_ H].
  - vm_compute. discriminate.
  - exact H.
Defined.

(** White resigns: Bob, who plays Black, has won. *)
Lemma handleGiveUp_ends_game_witness :
  let r' := (handleGiveUp Demo.cfg White Demo.started).2 in
  status (_gameState r') = Finished
  ∧ resolution (_gameState r') = Some GiveUp
  ∧ winnerID (_gameState r') = Some 2%N
  ∧ winnerId r' = Some 0%N.
Proof.
  destruct (handleGiveUp_ends_game Demo.cfg White Demo.started)
    as (_ & Hs & Hr & Hw & Hid & _).
  - vm_compute. reflexivity.
  - split; [exact Hs|]. split; [exact Hr|].
    split; [rewrite Hw|rewrite Hid]; vm_compute; reflexivity.
Defined.

(** White's clock runs out. *)
Lemma handleTimerOut_ends_game_witness :
  let r' := (handleTimerOut Demo.cfg White Demo.started).2 in
  status (_gameState r') = Finished
  ∧ resolution (_gameState r') = Some OutOfTime
  ∧ winnerID (_gameState r') = Some 2%N.
Proof.
  destruct (handleTimerOut_ends_game Demo.cfg White Demo.started
              {| timeLeft := Some 300000%Z; isGoing := true;
                 callback := CbClock White |}
              {| timeLeft := Some 300000%Z; isGoing := false;
                 callback := CbClock Black |})
    as (_ & Hs & Hr & Hw & _).
  - vm_compute. reflexivity.
  - vm_compute. reflexivity.
  - split; [exact Hs|]. split; [exact Hr|].
    rewrite Hw. vm_compute. reflexivity.
Defined.

(** Nobody with the id 9 is in the room. *)
Lemma handleDisconnect_unknown_user_witness :
  handleDisconnect Demo.cfg 9%N "transport close" Demo.started
  = (Throw TypeError, Demo.started).
Proof.
  apply (handleDisconnect_unknown_user Demo.cfg 9%N "transport close" Demo.started).
  vm_compute. reflexivity.
Defined.

(** Carol, who is waiting in the lobby, goes away. *)
Lemma spectator_disconnect_removes_session_witness :
  let r' := (handleDisconnect Demo.cfg 3%N "transport close" Demo.lobby).2 in
  isUserPresent r' 3%N = false ∧ isUserPresent r' 2%N = true.
Proof.
  destruct (spectator_disconnect_removes_session Demo.cfg 3%N "transport close"
              Demo.lobby
              {| member := {| user := Demo.carol;
                              state := {| connected := true; isPlayer := false;
                                          color := None |} |};
                 socket := Some 103%N; joined := 15; disconnectTimer := None |})
    as (_ & Hsess & Hgone & _).
  - vm_compute. reflexivity.
  - reflexivity.
  - split; [exact Hgone|].
    unfold isUserPresent. rewrite Hsess. vm_compute. reflexivity.
Defined.

(** Bob loses the connection in the middle of the game. *)
Lemma player_disconnect_keeps_the_seat_witness :
  let r' := (handleDisconnect Demo.cfg 2%N "transport close" Demo.started).2 in
  ∃ s', sessions r' !! 2%N = Some s'
        ∧ color (state (member s')) = Some Black
        ∧ disconnectTimer s'
          = Some {| timeLeft := Some 60000%Z; isGoing := true;
                    callback := CbDisconnect 2 |}.
Proof.
  destruct (player_disconnect_keeps_the_seat Demo.cfg 2%N "transport close"
              Demo.started
              {| member := {| user := Demo.bob;
                              state := {| connected := true; isPlayer := true;
                                          color := Some Black |} |};
                 socket := Some 101%N; joined := 10; disconnectTimer := None |})
    as (_ & (s' & Hk & _ & Hst & _ & _ & Ht) & _).
  - vm_compute. reflexivity.
  - reflexivity.
  - exists s'. split; [exact Hk|]. split; [by rewrite Hst|].
    rewrite Ht. vm_compute. reflexivity.
Defined.

(** Bob comes back within the grace period. *)
Lemma acceptConnection_admits_witness :
  let r' := (ServerRoom_acceptConnection ChessServerRoom_gameState 105%N Demo.bob
               Demo.bob_gone).2 in
  ∃ s', sessions r' !! 2%N = Some s'
        ∧ connected (state (member s')) = true
        ∧ socket s' = Some 105%N
        ∧ disconnectTimer s' = None.
Proof.
  destruct (acceptConnection_admits 105%N Demo.bob Demo.bob_gone)
    as (_ & (s' & Hk & Hc & Hso & Ht & _) & _).
  - vm_compute. reflexivity.
  - exists s'. split; [exact Hk|]. split; [exact Hc|]. split; [exact Hso|exact Ht].
Defined.



Lemma bob_gone_reachable : reachable Demo.cfg Demo.bob_gone.
Proof.
  exists Demo.alice, Demo.rules, (Some "room"), "x", "y", 0%Z, 0%Z, Black,
    [Connect 100%N Demo.alice; Elapse 10; Connect 101%N Demo.bob;
     Elapse 1000; Disconnect 2%N "transport close"].
  vm_compute. reflexivity.
Qed.

(** Bob, who lost his connection during the game, is still filed under his
    id, without a socket, and the timer on his session is his own. *)
Lemma reachable_sessions_in_order_witness :
  ∃ s t,
    sessions Demo.bob_gone !! 2%N = Some s
    ∧ disconnectTimer s = Some t
    ∧ uid (user (member s)) = 2%N
    ∧ callback t = CbDisconnect 2
    ∧ connected (state (member s)) = false
    ∧ isPlayer (state (member s)) = true.
Proof.
  destruct (sessions Demo.bob_gone !! 2%N) as [s|] eqn:Hk;
    [|vm_compute in Hk; discriminate].
  destruct (disconnectTimer s) as [t|] eqn:Ht.
  - destruct (reachable_sessions_in_order Demo.cfg Demo.bob_gone 2 s
                bob_gone_reachable Hk) as (Hu & _ & _ & Hd).
    destruct (Hd t Ht) as (Hcb & Hnc & Hpl & _).
    exists s, t. repeat split; assumption.
  - exfalso. vm_compute in Hk. injection Hk as <-. discriminate Ht.
Defined.

(** In the game of the scenario the two player ids are set to two
    different users. *)
Lemma players_and_seats_witness :
  ∃ w b, whitePlayerID Demo.started = Some w
         ∧ blackPlayerID Demo.started = Some b ∧ w ≠ b.
Proof.
  destruct (players_and_seats Demo.cfg Demo.started started_reachable)
    as (_ & _ & H).
  destruct H as (w & b & _ & _ & Hw & Hb & Hne & _).
  - vm_compute. discriminate.
  - exists w, b. repeat split; assumption.
Defined.

(** The host of the scenario's room is Alice. *)
Lemma host_is_always_there_witness :
  ∃ u, host Demo.started = (Ok u, Demo.started) ∧ uid u = hostID Demo.started.
Proof. exact (host_is_always_there Demo.cfg Demo.started started_reachable). Defined.


(** Alice, the host, and Bob are connected: the game is on. *)
Lemma game_starts_with_host_and_guest_witness :
  gameStatus Demo.started ≠ NotStarted.
Proof.
  apply (game_starts_with_host_and_guest Demo.cfg Demo.started started_reachable).
  - vm_compute. reflexivity.
  - vm_compute. lia.
Defined.


(** The stalemate has left the room's [winnerId] at 0. *)
Lemma winnerId_is_set_by_checkmate_only_witness :
  winnerId Demo.stalemated = Some 0%N.
Proof.
  destruct (winnerId_is_set_by_checkmate_only Demo.cfg Demo.stalemated
              stalemated_reachable) as [H _].
  apply H. vm_compute. discriminate.
Defined.


(** In the game of the scenario it is White's turn: a move by Black is
    turned away and the room is as it was, and a resignation by Black is
    taken. *)
Lemma handlers_are_all_or_nothing_witness :
  handle Demo.cfg (MakeMove (O:=ScriptedOracle) Quiet Black) Demo.started
  = (Throw (IllegalMoveError "This was not your turn"), Demo.started)
  ∧ handle Demo.cfg (Resign Black) Demo.started
    = (Ok tt, step Demo.cfg Demo.started (Resign Black)).
Proof.
  split.
  - rewrite (handlers_are_all_or_nothing Demo.cfg Demo.started
               (MakeMove (O:=ScriptedOracle) Quiet Black) started_reachable).
    vm_compute. reflexivity.
  - exact (handlers_are_all_or_nothing Demo.cfg Demo.started
             (Resign Black) started_reachable).
Defined.


(** Nothing was rejected on the way to the stalemate, where [checkGameEnd]
    has saved the game. *)
Lemma no_promise_is_rejected_witness :
  Unhandled (PlainError "Game is not finished yet") ∉ trace Demo.stalemated.
Proof. exact (no_promise_is_rejected Demo.cfg Demo.stalemated _ stalemated_reachable). Defined.


(** With Bob gone, Alice is the one who is connected. *)
Lemma connectedUsers_are_the_connected_witness :
  1%N ∈ uid <$> connectedUsers Demo.bob_gone
  ∧ length (connectedUsers Demo.bob_gone) = numberOfConnectedMembers Demo.bob_gone.
Proof.
  destruct (connectedUsers_are_the_connected Demo.cfg Demo.bob_gone bob_gone_reachable)
    as (_ & Hlen & _ & Hconn).
  split; [|exact Hlen]. apply Hconn. vm_compute. reflexivity.
Defined.

(** A broadcast in the game of the scenario is heard by Alice and Bob. *)
Lemma broadcast_reaches_the_connected_witness :
  ∃ es, broadcast EvGameStart Demo.started = (Ok tt, log es Demo.started)
        ∧ length es = numberOfConnectedMembers Demo.started.
Proof.
  destruct (broadcast_reaches_the_connected Demo.cfg Demo.started EvGameStart 2
              started_reachable) as (es & _ & Hrun & _ & Hlen & _).
  exists es. split; [exact Hrun|exact Hlen].
Defined.

(** Bob's connection breaks during the game; five seconds later he is back
    on another socket, and White's clock has lost five seconds. *)
Lemma reconnection_gives_the_seat_back_witness :
  ∃ s, sessions Demo.started !! 2%N = Some s
       ∧ let r' := run Demo.cfg [Disconnect 2%N "transport close"; Elapse 5000;
                                 Connect 201%N Demo.bob] Demo.started in
         let r0 := run Demo.cfg [Elapse 5000] Demo.started in
         sessions r' = <[2%N := with_socket (Some 201%N) s]> (sessions r0)
         ∧ result_view r' = result_view r0
         ∧ clock_view r' = clock_view r0
         ∧ db_rows r' = db_rows r0.
Proof.
  destruct (sessions Demo.started !! 2%N) as [s|] eqn:Hk;
    [|vm_compute in Hk; discriminate].
  exists s. split; [reflexivity|].
  apply (reconnection_gives_the_seat_back Demo.cfg Demo.started Demo.bob s
           201%N "transport close" 5000 started_reachable Hk).
  - vm_compute in Hk. injection Hk as <-. reflexivity.
  - vm_compute in Hk. injection Hk as <-. reflexivity.
Defined.

End Scenario.
